(** * Business lookup tool: scoring, normalisation and route planning

    A shallow embedding of the pure core of the business lookup tool:

    - [models.py]              the dataclasses, [Route.add_company] and
                               [Company.calculate_tax_saving_potential];
    - [data_normalizer.py]     [normalize_employee_count], [normalize_revenue],
                               [normalize_industry], [normalize_address],
                               [is_owner_operated], [is_in_growth_mode];
    - [similarity_scorer.py]   the similarity and tax-potential scorers and
                               the two rankings;
    - [logistics_optimizer.py] clustering, day assignment, routing, the
                               weekly schedule and the outreach-day table;
    - [industry_discovery.py]  the industry, segment, owner and growth
                               filters;
    - [business_matcher.py]    the similarity score, [find_similar_companies]
                               and the table of industry codes;
    - [data_collector.py]      [_determine_region].

    Conventions of the embedding.

    - A Python [float] that is read from a record, or computed from one
      with [numpy.log10], subtraction or division, is an exact rational
      ([Q]); NaN and the infinities are not represented, and equality of
      such scores is [Qeq] ([==]).  The tax-potential score is computed
      from literal constants only, by additions and multiplications: it
      is kept in binary64 ([PrimFloat]), with the rounding of the source.
    - A Python [int] is a [Z], a [str] is a [string] of bytes; [lower],
      [upper] and [strip] act on the ASCII range.
    - [Optional[T]] is [option T]; a raised exception is [None] in the
      result of a function whose source can raise.
    - A [dict] keyed by strings is a [gmap string _]; a [set] of strings is
      a [gset string].
    - A [Dict[str, Any]] is a [gmap string PyVal], [PyVal] being the
      values the functions inspect: [None], numbers, strings, lists and
      dictionaries.
    - [str(n)] of an [int] is stdpp's [pretty].
    - The library routines the source calls, [numpy.log10],
      [sklearn.cluster.DBSCAN] and the TF-IDF cosine similarity of two
      descriptions, are arguments of the functions that use them. *)

From Stdlib Require Import QArith Qminmax Qabs Qround Ascii String PrimFloat.
From Stdlib Require Import Lqa.
From stdpp Require Import gmap strings list fin_maps pretty sorting.
From Equations Require Import Equations.

#[local] Open Scope Q_scope.
#[local] Set Warnings "-inexact-float".
#[local] Set Warnings "-register-all".

#[global] Instance Q_inhabited : Inhabited Q := populate 0.
#[global] Instance float_inhabited : Inhabited float := populate 0%float.

(** ** Python string primitives *)

Module PyStr.

Definition is_upper (c : ascii) : bool :=
  (65 <=? nat_of_ascii c)%nat && (nat_of_ascii c <=? 90)%nat.

Definition is_lower (c : ascii) : bool :=
  (97 <=? nat_of_ascii c)%nat && (nat_of_ascii c <=? 122)%nat.

Definition lower_char (c : ascii) : ascii :=
  if is_upper c then ascii_of_nat (nat_of_ascii c + 32) else c.

Definition upper_char (c : ascii) : ascii :=
  if is_lower c then ascii_of_nat (nat_of_ascii c - 32) else c.

Fixpoint map_chars (f : ascii -> ascii) (s : string) : string :=
  match s with
  | EmptyString => EmptyString
  | String c s' => String (f c) (map_chars f s')
  end.

(** [s.lower()] and [s.upper()]. *)
Definition lower : string -> string := map_chars lower_char.
Definition upper : string -> string := map_chars upper_char.

(** [c.isspace()] on the ASCII range: tab to carriage return, the four
    separators 28 to 31, and the space. *)
Definition is_space (c : ascii) : bool :=
  let n := nat_of_ascii c in
  ((9 <=? n)%nat && (n <=? 13)%nat) || ((28 <=? n)%nat && (n <=? 32)%nat).

Fixpoint lstrip (s : string) : string :=
  match s with
  | String c s' => if is_space c then lstrip s' else s
  | EmptyString => EmptyString
  end.

Definition rstrip (s : string) : string :=
  String.rev (lstrip (String.rev s)).

(** [s.strip()]. *)
Definition strip (s : string) : string := rstrip (lstrip s).

(** [sub in s]. *)
Fixpoint contains (sub s : string) : bool :=
  String.prefix sub s ||
  match s with
  | EmptyString => false
  | String _ s' => contains sub s'
  end.

(** [c in s] for a one-character [c]. *)
Definition has_char (c : ascii) (s : string) : bool :=
  contains (String c EmptyString) s.

(** [s.replace(c, '')]. *)
Fixpoint remove_char (c : ascii) (s : string) : string :=
  match s with
  | EmptyString => EmptyString
  | String a s' =>
      if Ascii.eqb a c then remove_char c s'
      else String a (remove_char c s')
  end.

(** [s.split(sep)]: [cur] is the piece being read, reversed. *)
Fixpoint split_go (sep : ascii) (cur : string) (s : string) : list string :=
  match s with
  | EmptyString => [String.rev cur]
  | String a s' =>
      if Ascii.eqb a sep then String.rev cur :: split_go sep EmptyString s'
      else split_go sep (String a cur) s'
  end.

Definition split (sep : ascii) (s : string) : list string :=
  split_go sep EmptyString s.

(** [s.endswith(suffix)]. *)
Definition endswith (suffix s : string) : bool :=
  String.prefix (String.rev suffix) (String.rev s).

(** [s[:n]]. *)
Definition take (n : nat) (s : string) : string := String.substring 0 n s.

(** [s[:-1]]. *)
Definition drop_last (s : string) : string :=
  take (String.length s - 1) s.

(** [s[0]], [None] on the empty string (Python raises [IndexError]). *)
Definition first (s : string) : option ascii := String.get 0 s.

(** Truth value of a string and of an optional string. *)
Definition truthy (s : string) : bool :=
  negb (String.eqb s EmptyString).

Definition opt_truthy (o : option string) : bool :=
  match o with
  | Some s => truthy s
  | None => false
  end.

(** [any(kw in s for kw in kws)]. *)
Definition any_in (kws : list string) (s : string) : bool :=
  existsb (fun kw => contains kw s) kws.

End PyStr.

(** ** The data model ([models.py]) *)

Inductive LegalStructure :=
| LLC | S_CORP | C_CORP | FAMILY_OWNED | PARTNERSHIP | SOLE_PROPRIETORSHIP
| OTHER.

(** [LegalStructure.value]. *)
Definition LegalStructure_value (l : LegalStructure) : string :=
  match l with
  | LLC => "LLC"
  | S_CORP => "S-Corp"
  | C_CORP => "C-Corp"
  | FAMILY_OWNED => "Family-Owned Business"
  | PARTNERSHIP => "Partnership"
  | SOLE_PROPRIETORSHIP => "Sole Proprietorship"
  | OTHER => "Other"
  end.

#[global] Instance LegalStructure_eq_dec : EqDecision LegalStructure.
Proof. solve_decision. Defined.

Inductive TaxSavingPotential := HIGH | MEDIUM | LOW.

#[global] Instance TaxSavingPotential_eq_dec : EqDecision TaxSavingPotential.
Proof. solve_decision. Defined.

Module Address.
Record t := mk {
  street : string;
  city : string;
  state : string;
  zip : string;
  country : string
}.
End Address.

Module Industry.
Record t := mk {
  primary : string;
  naics_code : option string;
  sic_code : option string;
  subcategories : list string
}.
End Industry.

Module Contact.
Record t := mk {
  phone : option string;
  email : option string;
  linkedin_url : option string
}.
End Contact.

Module Executive.
Record t := mk {
  name : string;
  role : string;
  contact : Contact.t;
  business_history : option string;
  tenure : option string
}.
End Executive.

Module Financials.
Record t := mk {
  employee_count : option Z;
  estimated_revenue : option Q;
  growth_rate : option Q;
  capex_trends : option string;
  payroll_trends : option string
}.
End Financials.

Module TaxIndicators.
Record t := mk {
  recent_developments : option string;
  grants_subsidies : option string;
  government_contracts : option string;
  succession_planning : option string;
  financing_activity : option string;
  tax_saving_potential : TaxSavingPotential
}.
End TaxIndicators.

Module GeoLocation.
Record t := mk {
  latitude : Q;
  longitude : Q;
  region : option string
}.
End GeoLocation.

(** The scorers test [company.financials] and [company.tax_indicators]
    for truth before reading them, so both are optional here although the
    dataclass fills them by default.  [last_updated] is a timestamp. *)
Module Company.
Record t := mk {
  id : string;
  name : string;
  description : option string;
  address : option Address.t;
  legal_structure : option LegalStructure;
  industry : option Industry.t;
  executives : list Executive.t;
  financials : option Financials.t;
  tax_indicators : option TaxIndicators.t;
  location : option GeoLocation.t;
  website : option string;
  last_updated : Z
}.

(** [x and x >= bound] on the optional growth rate. *)
Definition growth_at_least (growth_rate : option Q) (bound : Q) : bool :=
  match growth_rate with
  | Some x => negb (Qeq_bool x 0) && Qle_bool bound x
  | None => false
  end.

(** [s and s.strip()] on an optional text. *)
Definition not_blank (text : option string) : bool :=
  match text with
  | Some s => PyStr.truthy s && PyStr.truthy (PyStr.strip s)
  | None => false
  end.

(** The points that [calculate_tax_saving_potential] adds up; [None] is
    the [AttributeError] of reading a field of [None]. *)
Definition tax_saving_points (self : t) : option Z :=
  let score := 0%Z in
  financials ← financials self;
  let growth_rate := Financials.growth_rate financials in
  let score :=
    if growth_at_least growth_rate 15 then (score + 3)%Z
    else if growth_at_least growth_rate 10 then (score + 2)%Z
    else if growth_at_least growth_rate 5 then (score + 1)%Z
    else score in
  let score :=
    if match Financials.payroll_trends financials with
       | Some s => PyStr.truthy s
                   && PyStr.contains "expansion" (PyStr.lower s)
       | None => false
       end
    then (score + 2)%Z else score in
  let score :=
    if match Financials.capex_trends financials with
       | Some s =>
           PyStr.truthy s
           && PyStr.any_in ["equipment"; "facility"; "upgrade"; "expansion"]
                           (PyStr.lower s)
       | None => false
       end
    then (score + 2)%Z else score in
  tax_indicators ← tax_indicators self;
  let score :=
    if not_blank (TaxIndicators.succession_planning tax_indicators)
    then (score + 2)%Z else score in
  let score :=
    if not_blank (TaxIndicators.government_contracts tax_indicators)
    then (score + 1)%Z else score in
  Some score.

Definition calculate_tax_saving_potential (self : t)
    : option TaxSavingPotential :=
  score ← tax_saving_points self;
  Some (if (6 <=? score)%Z then HIGH
        else if (3 <=? score)%Z then MEDIUM
        else LOW).
End Company.

Module CompanyReference.
Record t := mk {
  company_id : string;
  name : string;
  address : string;
  priority : Z
}.
End CompanyReference.

Module Route.
Record t := mk {
  day : string;
  companies : list CompanyReference.t;
  total_distance : Q;
  estimated_travel_time : Q;
  optimized_order : list nat
}.

(** [Route(day=day)]: the dataclass defaults. *)
Definition new (day : string) : t := mk day [] 0 0 [].

(** [Route.add_company]: the route after the call. *)
Definition add_company (self : t) (company : Company.t) (priority : Z) : t :=
  match Company.address company with
  | None => self
  | Some a =>
      let address_str :=
        Address.street a +:+ ", " +:+ Address.city a +:+ ", " +:+
        Address.state a +:+ " " +:+ Address.zip a in
      let company_ref :=
        CompanyReference.mk (Company.id company) (Company.name company)
                            address_str priority in
      let companies' := companies self ++ [company_ref] in
      mk (day self) companies' (total_distance self)
         (estimated_travel_time self) (seq 0 (length companies'))
  end.
End Route.

(** ** The similarity scorer ([similarity_scorer.py]) *)

Module SimilarityScorer.
Import PyStr.

(** [self.similarity_weights] and [self.tax_potential_weights]. *)
Definition similarity_weights : gmap string Q :=
  {[ "industry" := 0.35; "size" := 0.25; "location" := 0.20;
     "legal_structure" := 0.10; "growth" := 0.10 ]}.

Definition tax_potential_weights : gmap string float :=
  {[ "growth_rate" := 0.30%float; "hiring_expansion" := 0.20%float;
     "equipment_upgrades" := 0.20%float; "succession_planning" := 0.15%float;
     "government_contracts" := 0.15%float ]}.

(** [sum(scores[key] * weights[key] for key in scores)]: the scores are
    kept in insertion order, and [sum] starts from [0]. *)
Definition weighted_sum (weights : gmap string Q)
    (scores : list (string * Q)) : Q :=
  foldl (fun acc kv => acc + snd kv * (weights !!! fst kv)) 0 scores.

(** The same sum in binary64, for the tax-potential score. *)
Definition weighted_sum_binary64 (weights : gmap string float)
    (scores : list (string * float)) : float :=
  foldl (fun acc kv => acc + snd kv * (weights !!! fst kv))%float
        0%float scores.

(** [a and b and a == b] on two optional code strings. *)
Definition codes_match (a b : option string) : bool :=
  opt_truthy a && opt_truthy b && bool_decide (a = b).

(** Truth value of a Python [set]. *)
Definition set_truthy (s : gset string) : bool := negb (size s =? 0)%nat.

Definition _score_industry_similarity (company1 company2 : Company.t) : Q :=
  match Company.industry company1, Company.industry company2 with
  | Some industry1, Some industry2 =>
      let naics1 := Industry.naics_code industry1 in
      let naics2 := Industry.naics_code industry2 in
      if String.eqb (Industry.primary industry1) (Industry.primary industry2)
      then 1.0
      else if codes_match naics1 naics2 then 0.9
      else if codes_match (Industry.sic_code industry1)
                          (Industry.sic_code industry2) then 0.9
      else
        let by_subcategories :=
          let subcategories1 : gset string :=
            list_to_set (Industry.subcategories industry1) in
          let subcategories2 : gset string :=
            list_to_set (Industry.subcategories industry2) in
          if set_truthy subcategories1 && set_truthy subcategories2 then
            let overlap := subcategories1 ∩ subcategories2 in
            if set_truthy overlap then
              0.5 + (0.3 * inject_Z (Z.of_nat (size overlap)))
                    / inject_Z (Z.of_nat (Nat.max (size subcategories1)
                                                  (size subcategories2)))
            else 0.2
          else 0.2 in
        if opt_truthy naics1 && opt_truthy naics2 then
          if String.eqb (take 2 (default "" naics1)) (take 2 (default "" naics2))
          then 0.8
          else if bool_decide (first (default "" naics1)
                               = first (default "" naics2))
          then 0.6
          else by_subcategories
        else by_subcategories
  | _, _ => 0.1
  end.

Definition _score_size_similarity (log10 : Q -> Q)
    (company1 company2 : Company.t) : Q :=
  match Company.financials company1, Company.financials company2 with
  | Some financials1, Some financials2 =>
      let employee_similarity :=
        match Financials.employee_count financials1,
              Financials.employee_count financials2 with
        | Some employee_count1, Some employee_count2 =>
            let log_emp1 := log10 (inject_Z (Z.max 10 employee_count1)) in
            let log_emp2 := log10 (inject_Z (Z.max 10 employee_count2)) in
            Qmin log_emp1 log_emp2 / Qmax log_emp1 log_emp2
        | _, _ => 0.5
        end in
      let revenue_similarity :=
        match Financials.estimated_revenue financials1,
              Financials.estimated_revenue financials2 with
        | Some estimated_revenue1, Some estimated_revenue2 =>
            let log_rev1 := log10 (Qmax 10000 estimated_revenue1) in
            let log_rev2 := log10 (Qmax 10000 estimated_revenue2) in
            Qmin log_rev1 log_rev2 / Qmax log_rev1 log_rev2
        | _, _ => 0.5
        end in
      0.6 * employee_similarity + 0.4 * revenue_similarity
  | _, _ => 0.5
  end.

Definition _score_location_similarity (company1 company2 : Company.t) : Q :=
  match Company.address company1, Company.address company2 with
  | Some address1, Some address2 =>
      let same_city :=
        String.eqb (Address.city address1) (Address.city address2) in
      let same_state :=
        String.eqb (Address.state address1) (Address.state address2) in
      if String.eqb (Address.street address1) (Address.street address2)
         && same_city && same_state then 1.0
      else if same_city && same_state then 0.9
      else if same_state
              && truthy (Address.zip address1) && truthy (Address.zip address2)
              && String.eqb (take 3 (Address.zip address1))
                            (take 3 (Address.zip address2)) then 0.8
      else if same_state then 0.6
      else 0.2
  | _, _ => 0.1
  end.

Definition corp_types : list string := ["C-Corp"; "S-Corp"].

Definition owner_operated_types : list string :=
  ["LLC"; "Family-Owned Business"; "Partnership"; "Sole Proprietorship"].

Definition _score_legal_structure_similarity
    (company1 company2 : Company.t) : Q :=
  match Company.legal_structure company1, Company.legal_structure company2 with
  | Some legal_structure1, Some legal_structure2 =>
      if bool_decide (legal_structure1 = legal_structure2) then 1.0
      else if bool_decide (LegalStructure_value legal_structure1 ∈ corp_types)
              && bool_decide (LegalStructure_value legal_structure2 ∈ corp_types)
      then 0.8
      else if bool_decide (LegalStructure_value legal_structure1
                           ∈ owner_operated_types)
              && bool_decide (LegalStructure_value legal_structure2
                              ∈ owner_operated_types)
      then 0.7
      else 0.3
  | _, _ => 0.5
  end.

Definition _score_growth_similarity (company1 company2 : Company.t) : Q :=
  match Company.financials company1, Company.financials company2 with
  | Some financials1, Some financials2 =>
      match Financials.growth_rate financials1,
            Financials.growth_rate financials2 with
      | Some growth_rate1, Some growth_rate2 =>
          let diff := Qabs (growth_rate1 - growth_rate2) in
          if Qle_bool diff 2 then 1.0
          else if Qle_bool diff 5 then 0.8
          else if Qle_bool diff 10 then 0.6
          else if Qle_bool diff 20 then 0.4
          else 0.2
      | _, _ => 0.5
      end
  | _, _ => 0.5
  end.

Definition score_company_similarity (log10 : Q -> Q)
    (reference target : Company.t) : Q :=
  let scores :=
    [ ("industry", _score_industry_similarity reference target);
      ("size", _score_size_similarity log10 reference target);
      ("location", _score_location_similarity reference target);
      ("legal_structure", _score_legal_structure_similarity reference target);
      ("growth", _score_growth_similarity reference target) ] in
  weighted_sum similarity_weights scores.

(** *** Tax-saving potential *)

Definition _score_growth_rate (company : Company.t) : float :=
  match Company.financials company with
  | None => 0.3%float
  | Some financials =>
      match Financials.growth_rate financials with
      | None => 0.3%float
      | Some growth_rate =>
          if Qle_bool 15 growth_rate then 1.0%float
          else if Qle_bool 10 growth_rate then 0.8%float
          else if Qle_bool 5 growth_rate then 0.5%float
          else 0.2%float
      end
  end.

Definition hiring_strong_indicators : list string :=
  ["significant hiring"; "major expansion"; "doubled workforce";
   "rapid growth in employees"; "aggressive hiring"].

Definition hiring_moderate_indicators : list string :=
  ["hiring"; "expansion"; "growing team"; "adding staff";
   "increasing workforce"].

Definition _score_hiring_expansion (company : Company.t) : float :=
  match Company.financials company with
  | None => 0.3%float
  | Some financials =>
      let by_employee_count :=
        match Financials.employee_count financials with
        | Some employee_count =>
            if negb (employee_count =? 0)%Z && (50 <? employee_count)%Z
            then 0.5%float else 0.2%float
        | None => 0.2%float
        end in
      if opt_truthy (Financials.payroll_trends financials) then
        let payroll_trends :=
          lower (default "" (Financials.payroll_trends financials)) in
        if any_in hiring_strong_indicators payroll_trends then 1.0%float
        else if any_in hiring_moderate_indicators payroll_trends then 0.7%float
        else by_employee_count
      else by_employee_count
  end.

Definition equipment_strong_indicators : list string :=
  ["major investment"; "new facility"; "significant upgrade";
   "automation investment"; "new manufacturing line"; "facility expansion"].

Definition equipment_moderate_indicators : list string :=
  ["equipment purchase"; "upgrade"; "renovation"; "expansion";
   "new equipment"; "technology investment"].

Definition _score_equipment_upgrades (company : Company.t) : float :=
  match Company.financials company with
  | None => 0.3%float
  | Some financials =>
      if negb (opt_truthy (Financials.capex_trends financials)) then 0.3%float
      else
        let capex_trends :=
          lower (default "" (Financials.capex_trends financials)) in
        if any_in equipment_strong_indicators capex_trends then 1.0%float
        else if any_in equipment_moderate_indicators capex_trends then 0.7%float
        else 0.2%float
  end.

Definition succession_strong_indicators : list string :=
  ["leadership transition"; "succession plan"; "ownership transfer";
   "generational change"; "retirement planning";
   "family business transition"].

Definition succession_moderate_indicators : list string :=
  ["new leadership"; "management change"; "executive transition";
   "restructuring"; "ownership changes"].

Definition _score_succession_planning (company : Company.t) : float :=
  match Company.tax_indicators company with
  | None => 0.2%float
  | Some tax_indicators =>
      if negb (opt_truthy (TaxIndicators.succession_planning tax_indicators))
      then 0.2%float
      else
        let succession_planning :=
          lower (default "" (TaxIndicators.succession_planning tax_indicators)) in
        if any_in succession_strong_indicators succession_planning then 1.0%float
        else if any_in succession_moderate_indicators succession_planning
        then 0.7%float
        else 0.3%float
  end.

Definition government_strong_indicators : list string :=
  ["major government contract"; "federal contract award";
   "multi-year government project"; "significant public sector work";
   "primary government contractor"].

Definition government_moderate_indicators : list string :=
  ["government work"; "public sector"; "state contract";
   "municipal project"; "government bid"].

Definition _score_government_contracts (company : Company.t) : float :=
  match Company.tax_indicators company with
  | None => 0.2%float
  | Some tax_indicators =>
      if negb (opt_truthy (TaxIndicators.government_contracts tax_indicators))
      then 0.2%float
      else
        let government_contracts :=
          lower (default "" (TaxIndicators.government_contracts tax_indicators)) in
        if any_in government_strong_indicators government_contracts then 1.0%float
        else if any_in government_moderate_indicators government_contracts
        then 0.7%float
        else 0.3%float
  end.

(** The local [weighted_score] of [score_tax_saving_potential]. *)
Definition tax_weighted_score (company : Company.t) : float :=
  let scores :=
    [ ("growth_rate", _score_growth_rate company);
      ("hiring_expansion", _score_hiring_expansion company);
      ("equipment_upgrades", _score_equipment_upgrades company);
      ("succession_planning", _score_succession_planning company);
      ("government_contracts", _score_government_contracts company) ] in
  weighted_sum_binary64 tax_potential_weights scores.

Definition score_tax_saving_potential (company : Company.t)
    : TaxSavingPotential :=
  let weighted_score := tax_weighted_score company in
  if (0.7 <=? weighted_score)%float then HIGH
  else if (0.4 <=? weighted_score)%float then MEDIUM
  else LOW.

(** *** Ranking *)

(** [l.sort(key=key, reverse=True)]: the sort is stable, so an element is
    placed before the elements of the sorted rest whose key is not
    greater than its own, and after the others. *)
Fixpoint insert_desc {A K : Type} (leb : K -> K -> bool) (key : A -> K)
    (x : A) (l : list A) : list A :=
  match l with
  | [] => [x]
  | y :: l' =>
      if leb (key y) (key x) then x :: y :: l'
      else y :: insert_desc leb key x l'
  end.

Definition sort_desc {A K : Type} (leb : K -> K -> bool) (key : A -> K)
    (l : list A) : list A :=
  foldr (insert_desc leb key) [] l.

(** [l[:n]]: a negative [n] counts from the end. *)
Definition slice_to {A : Type} (n : Z) (l : list A) : list A :=
  if (0 <=? n)%Z then firstn (Z.to_nat n) l
  else firstn (length l - Z.to_nat (- n)) l.

Definition rank_companies_by_similarity (log10 : Q -> Q)
    (reference : Company.t) (candidates : list Company.t) (top_n : Z)
    : list (Company.t * Q) :=
  let scored_companies :=
    (fun candidate =>
       (candidate, score_company_similarity log10 reference candidate))
    <$> filter (fun candidate => Company.id candidate <> Company.id reference)
               candidates in
  slice_to top_n (sort_desc Qle_bool snd scored_companies).

(** The [potential_order] dictionary. *)
Definition potential_order (p : TaxSavingPotential) : Z :=
  match p with
  | HIGH => 3
  | MEDIUM => 2
  | LOW => 1
  end.

Definition rank_companies_by_tax_potential (companies : list Company.t)
    : list (Company.t * TaxSavingPotential) :=
  let scored_companies :=
    (fun company => (company, score_tax_saving_potential company))
    <$> companies in
  sort_desc Z.leb (fun x => potential_order x.2) scored_companies.

End SimilarityScorer.

(** ** The normalizer ([data_normalizer.py]) *)

Module DataNormalizer.
Import PyStr.

(** A raw field value as the providers deliver it: [None], an [int], a
    [float] or a [str]. *)
Inductive RawValue :=
| RawNone
| RawInt (n : Z)
| RawFloat (x : Q)
| RawStr (s : string).

(** A run of decimal digits in which single underscores may separate
    digits, read after a first digit: the value so far, the number of
    digits read, and the unread rest. *)
Fixpoint digitpart_go (acc : Z) (n : nat) (s : string) : Z * nat * string :=
  match s with
  | String c s' =>
      match Ascii.is_nat c with
      | Some d => digitpart_go (10 * acc + Z.of_nat d) (S n) s'
      | None =>
          if Ascii.eqb c "_" then
            match s' with
            | String c2 s'' =>
                match Ascii.is_nat c2 with
                | Some d2 => digitpart_go (10 * acc + Z.of_nat d2) (S n) s''
                | None => (acc, n, s)
                end
            | EmptyString => (acc, n, s)
            end
          else (acc, n, s)
      end
  | EmptyString => (acc, n, s)
  end.

Definition digitpart (s : string) : option (Z * nat * string) :=
  match s with
  | String c s' =>
      match Ascii.is_nat c with
      | Some d => Some (digitpart_go (Z.of_nat d) 1 s')
      | None => None
      end
  | EmptyString => None
  end.

(** An optional sign: whether it is a minus, and the rest. *)
Definition read_sign (s : string) : bool * string :=
  match s with
  | String c s' =>
      if Ascii.eqb c "-" then (true, s')
      else if Ascii.eqb c "+" then (false, s')
      else (false, s)
  | EmptyString => (false, s)
  end.

(** [int(s)] on a string; [None] is [ValueError]. *)
Definition py_int (s : string) : option Z :=
  let '(negative, body) := read_sign (strip s) in
  match digitpart body with
  | Some (v, _, EmptyString) => Some (if negative then (- v)%Z else v)
  | _ => None
  end.

(** The exponent part of a float literal applied to the mantissa [m]. *)
Definition read_exponent (m : Q) (s : string) : option Q :=
  match s with
  | EmptyString => Some m
  | String c s' =>
      if Ascii.eqb c "e" || Ascii.eqb c "E" then
        let '(negative, body) := read_sign s' in
        match digitpart body with
        | Some (e, _, EmptyString) =>
            Some (m * Qpower 10 (if negative then (- e)%Z else e))
        | _ => None
        end
      else None
  end.

(** [float(s)] on a decimal literal; [None] is [ValueError].  The
    spellings of infinity and NaN, which have no rational value, are
    [None] as well. *)
Definition py_float (s : string) : option Q :=
  let '(negative, body) := read_sign (strip s) in
  let magnitude :=
    match digitpart body with
    | Some (ip, _, rest) =>
        match rest with
        | String c rest' =>
            if Ascii.eqb c "." then
              match digitpart rest' with
              | Some (fp, k, rest'') =>
                  read_exponent
                    (inject_Z ip + inject_Z fp / Qpower 10 (Z.of_nat k)) rest''
              | None => read_exponent (inject_Z ip) rest'
              end
            else read_exponent (inject_Z ip) rest
        | EmptyString => Some (inject_Z ip)
        end
    | None =>
        match body with
        | String c rest' =>
            if Ascii.eqb c "." then
              match digitpart rest' with
              | Some (fp, k, rest'') =>
                  read_exponent (inject_Z fp / Qpower 10 (Z.of_nat k)) rest''
              | None => None
              end
            else None
        | EmptyString => None
        end
    end in
  match magnitude with
  | Some m => Some (if negative then - m else m)
  | None => None
  end.

Definition normalize_employee_count (employee_count : RawValue) : option Z :=
  match employee_count with
  | RawNone => None
  | RawInt n => Some n
  | RawFloat _ => None
  | RawStr s =>
      let by_range :=
        if has_char "-" s then
          match split "-" s with
          | [part0; part1] =>
              match py_int (strip part0), py_int (strip part1) with
              | Some lower, Some upper => Some ((lower + upper) / 2)%Z
              | _, _ => None
              end
          | _ => None
          end
        else None in
      let by_plus :=
        if has_char "+" s
        then py_int (remove_char "+" (remove_char "," s))
        else None in
      match by_range with
      | Some n => Some n
      | None =>
          match by_plus with
          | Some n => Some n
          | None => py_int (remove_char "," s)
          end
      end
  end.

Definition parse_revenue_with_suffix (revenue_str : string) : option Q :=
  let revenue_str := upper (strip revenue_str) in
  if endswith "K" revenue_str then
    match py_float (drop_last revenue_str) with
    | Some x => Some (x * 1000)
    | None => None
    end
  else if endswith "M" revenue_str then
    match py_float (drop_last revenue_str) with
    | Some x => Some (x * 1000000)
    | None => None
    end
  else if endswith "B" revenue_str then
    match py_float (drop_last revenue_str) with
    | Some x => Some (x * 1000000000)
    | None => None
    end
  else py_float revenue_str.

Definition normalize_revenue (revenue : RawValue) : option Q :=
  match revenue with
  | RawNone => None
  | RawInt n => Some (inject_Z n)
  | RawFloat x => Some x
  | RawStr s =>
      let cleaned := remove_char "," (remove_char "$" s) in
      let by_range :=
        if has_char "-" cleaned then
          match split "-" cleaned with
          | [part0; part1] =>
              match parse_revenue_with_suffix (strip part0),
                    parse_revenue_with_suffix (strip part1) with
              | Some lower, Some upper => Some ((lower + upper) / 2)
              | _, _ => None
              end
          | _ => None
          end
        else None in
      match by_range with
      | Some x => Some x
      | None => parse_revenue_with_suffix cleaned
      end
  end.

(** *** Industry names *)

(** The dictionary that [normalize_industry] returns: its three keys. *)
Module Normalized.
Record t := mk {
  primary : string;
  category : string;
  subcategory : string
}.
End Normalized.

Definition construction_keywords : list string :=
  ["construction"; "contractor"; "builder"; "engineering";
   "architect"; "hvac"; "electrical"; "plumbing"; "concrete";
   "framing"; "insulation"; "excavation"; "site prep";
   "modular"; "prefab"; "building materials"; "steel";
   "lumber"; "glass"; "precast"; "fasteners"; "coatings"].

Definition manufacturing_keywords : list string :=
  ["manufacturing"; "manufacturer"; "industrial"; "machinery";
   "automation"; "oem"; "supplier"; "component"; "fabricator";
   "fabrication"; "steel"; "plastic"; "composite"; "metal";
   "stamping"; "machining"; "aerospace"; "automotive";
   "equipment"; "robotics"; "cnc"; "injection molding";
   "food processing"; "packaging"].

Definition trucking_keywords : list string :=
  ["trucking"; "logistics"; "freight"; "carrier"; "ltl"; "ftl";
   "last-mile"; "delivery"; "refrigerated"; "transport";
   "tanker"; "fleet"; "heavy equipment"; "warehousing";
   "distribution"; "supply chain"; "fleet maintenance";
   "intermodal"; "hazardous material"].

Definition construction_subcategory (industry_lower : string) : string :=
  if any_in ["general contractor"; "builder"] industry_lower
  then "General Contractors"
  else if any_in ["engineering"; "architect"] industry_lower
  then "Engineering Firms"
  else if any_in ["hvac"; "electrical"; "plumbing"; "concrete"; "framing";
                  "insulation"] industry_lower
  then "Specialty Trade Contractors"
  else if any_in ["excavation"; "site prep"] industry_lower
  then "Excavation & Site Prep"
  else if any_in ["modular"; "prefab"] industry_lower
  then "Modular & Prefab Construction"
  else if any_in ["building materials"; "steel"; "lumber"; "glass";
                  "precast"; "fasteners"; "coatings"] industry_lower
  then "Building Materials Suppliers"
  else "Other Construction".

Definition manufacturing_subcategory (industry_lower : string) : string :=
  if any_in ["industrial machinery"; "automation"] industry_lower
  then "Industrial Machinery & Automation"
  else if any_in ["oem"; "supplier"; "component"] industry_lower
  then "OEM Suppliers & Component Manufacturers"
  else if any_in ["fabricator"; "fabrication"; "steel"; "plastic";
                  "composite"; "metal"; "stamping"; "machining"] industry_lower
  then "Fabricators"
  else if any_in ["aerospace"; "automotive"; "equipment"] industry_lower
  then "Aerospace, Automotive & Heavy Equipment"
  else if any_in ["robotics"; "cnc"; "automation"] industry_lower
  then "Robotics & Automation"
  else if any_in ["injection molding"; "composite"] industry_lower
  then "Injection Molding & Composite Materials"
  else if any_in ["food processing"; "packaging"] industry_lower
  then "Food Processing & Packaging"
  else "Other Manufacturing".

Definition trucking_subcategory (industry_lower : string) : string :=
  if any_in ["freight"; "carrier"; "ltl"; "ftl"; "last-mile"; "delivery"]
            industry_lower
  then "Freight Carriers"
  else if any_in ["refrigerated"; "tanker"] industry_lower
  then "Refrigerated Transport & Tanker Fleets"
  else if any_in ["heavy equipment"] industry_lower
  then "Heavy Equipment Transporters"
  else if any_in ["warehousing"; "distribution"] industry_lower
  then "Warehousing & Distribution"
  else if any_in ["logistics"; "supply chain"] industry_lower
  then "Logistics Technology & Supply Chain"
  else if any_in ["fleet maintenance"] industry_lower
  then "Fleet Maintenance & Repair"
  else if any_in ["intermodal"; "hazardous material"] industry_lower
  then "Intermodal & Hazardous Material Haulers"
  else "Other Trucking & Logistics".

Definition normalize_industry (industry : string) : Normalized.t :=
  if negb (truthy industry) then Normalized.mk "" "" ""
  else
    let industry_lower := lower industry in
    if any_in construction_keywords industry_lower then
      Normalized.mk industry "Construction"
                    (construction_subcategory industry_lower)
    else if any_in manufacturing_keywords industry_lower then
      Normalized.mk industry "Manufacturing"
                    (manufacturing_subcategory industry_lower)
    else if any_in trucking_keywords industry_lower then
      Normalized.mk industry "Trucking & Logistics"
                    (trucking_subcategory industry_lower)
    else Normalized.mk industry "Other" "Other".

(** *** Dictionaries of company data *)

(** A value of a [Dict[str, Any]]: [None], a number, a string, a list or
    a dictionary. *)
Inductive PyVal :=
| PNone
| PInt (n : Z)
| PFloat (x : Q)
| PStr (s : string)
| PList (l : list PyVal)
| PDict (d : gmap string PyVal).

(** The truth value of a value. *)
Definition py_truthy (v : PyVal) : bool :=
  match v with
  | PNone => false
  | PInt n => negb (n =? 0)%Z
  | PFloat x => negb (Qeq_bool x 0)
  | PStr s => truthy s
  | PList l => negb (length l =? 0)%nat
  | PDict d => negb (size d =? 0)%nat
  end.

(** [isinstance(v, (int, float)) and v > bound], [... and v >= bound]. *)
Definition number_gt (v : PyVal) (bound : Q) : bool :=
  match v with
  | PInt n => negb (Qle_bool (inject_Z n) bound)
  | PFloat x => negb (Qle_bool x bound)
  | _ => false
  end.

Definition number_ge (v : PyVal) (bound : Q) : bool :=
  match v with
  | PInt n => Qle_bool bound (inject_Z n)
  | PFloat x => Qle_bool bound x
  | _ => false
  end.

(** [d.get(key)] and [d.get(key, fallback)]. *)
Definition py_get (d : gmap string PyVal) (key : string) (fallback : PyVal)
    : PyVal :=
  default fallback (d !! key).

(** [v.lower()]; [None] is [AttributeError]. *)
Definition py_lower (v : PyVal) : option string :=
  match v with
  | PStr s => Some (lower s)
  | _ => None
  end.

(** The one-character strings of a string. *)
Fixpoint characters (s : string) : list PyVal :=
  match s with
  | EmptyString => []
  | String c s' => PStr (String c EmptyString) :: characters s'
  end.

(** What a [for] loop over a value visits: the items of a list, the
    characters of a string, the keys of a dictionary; [None] is
    [TypeError]. *)
Definition py_iter (v : PyVal) : option (list PyVal) :=
  match v with
  | PList l => Some l
  | PStr s => Some (characters s)
  | PDict d => Some (PStr <$> (map_to_list d).*1)
  | _ => None
  end.

Definition owner_titles : list string :=
  ["owner"; "founder"; "president"; "ceo"; "principal"].

(** The loop over the executives: whether it returns [True]. *)
Fixpoint owner_title_loop (executives : list PyVal) : option bool :=
  match executives with
  | [] => Some false
  | exec :: executives' =>
      match exec with
      | PDict d =>
          title ← py_lower (py_get d "role" (PStr ""));
          if any_in owner_titles title then Some true
          else owner_title_loop executives'
      | _ => None
      end
  end.

Definition is_owner_operated (company_data : gmap string PyVal)
    : option bool :=
  let employee_count := py_get company_data "employee_count" PNone in
  if py_truthy employee_count && number_gt employee_count 500
  then Some false
  else
    let executives := py_get company_data "executives" (PList []) in
    items ← py_iter executives;
    by_title ← owner_title_loop items;
    if (by_title : bool) then Some true
    else
      let legal_structure := py_get company_data "legal_structure" (PStr "") in
      let by_structure :=
        match legal_structure with
        | PStr s => any_in ["llc"; "family"; "proprietor"] (lower s)
        | _ => false
        end in
      if by_structure then Some true
      else
        company_name ← py_lower (py_get company_data "name" (PStr ""));
        Some (any_in ["family"; "& sons"; "& son"; "brothers"; "& co"]
                     company_name).

Definition hiring_indicators : list string :=
  ["hiring"; "expanding"; "growth"; "new positions";
   "job openings"; "career"; "join our team"].

Definition expansion_indicators : list string :=
  ["expansion"; "new facility"; "new location"; "growing";
   "increased capacity"; "new equipment"; "investment"].

Definition financing_terms : list string :=
  ["funding"; "investment"; "capital"; "loan"; "financing"].

Definition is_in_growth_mode (company_data : gmap string PyVal)
    : option bool :=
  let growth_rate := py_get company_data "growth_rate" PNone in
  if py_truthy growth_rate && number_ge growth_rate 5 then Some true
  else
    description ← py_lower (py_get company_data "description" (PStr ""));
    if any_in hiring_indicators description then Some true
    else
      recent_dev ←
        py_lower (py_get company_data "recent_developments" (PStr ""));
      if truthy recent_dev && any_in expansion_indicators recent_dev
      then Some true
      else
        financing ←
          py_lower (py_get company_data "financing_activity" (PStr ""));
        Some (truthy financing && any_in financing_terms financing).

(** *** Addresses *)

(** [a or b]. *)
Definition py_or (a b : PyVal) : PyVal := if py_truthy a then a else b.

(** [v.strip()]; [None] is [AttributeError]. *)
Definition py_strip (v : PyVal) : option string :=
  match v with
  | PStr s => Some (strip s)
  | _ => None
  end.

(** [len(v)]; [None] is [TypeError]. *)
Definition py_len (v : PyVal) : option nat :=
  match v with
  | PStr s => Some (String.length s)
  | PList l => Some (length l)
  | PDict d => Some (size d)
  | _ => None
  end.

(** ['-' in v]; [None] is [TypeError]. *)
Definition py_has_hyphen (v : PyVal) : option bool :=
  match v with
  | PStr s => Some (has_char "-" s)
  | PList l =>
      Some (existsb (fun x => match x with
                              | PStr s => String.eqb s "-"
                              | _ => false
                              end) l)
  | PDict d => Some (bool_decide (is_Some (d !! "-")))
  | _ => None
  end.

(** The statement that cuts a long zip code at its first hyphen. *)
Definition cut_zip (zip_code : PyVal) : option PyVal :=
  if py_truthy zip_code then
    n ← py_len zip_code;
    if (5 <? n)%nat then
      hyphen ← py_has_hyphen zip_code;
      if (hyphen : bool) then
        match zip_code with
        | PStr s => Some (PStr (default "" (head (split "-" s))))
        | _ => None
        end
      else Some zip_code
    else Some zip_code
  else Some zip_code.

Definition normalize_address (address : gmap string PyVal)
    : option (gmap string string) :=
  let get key := py_get address key PNone in
  let normalized : gmap string string := ∅ in
  let street :=
    py_or (py_or (py_or (get "street") (get "address1"))
                 (get "street_address")) (PStr "") in
  street ← py_strip street;
  let normalized := <["street" := street]> normalized in
  let city := py_or (get "city") (PStr "") in
  city ← py_strip city;
  let normalized := <["city" := city]> normalized in
  let state := py_or (py_or (get "state") (get "region")) (PStr "") in
  state ← py_strip state;
  let normalized := <["state" := state]> normalized in
  let zip_code :=
    py_or (py_or (py_or (get "zip") (get "postal_code")) (get "zipcode"))
          (PStr "") in
  zip_code ← cut_zip zip_code;
  zip_code ← py_strip zip_code;
  Some (<["zip" := zip_code]> normalized).

End DataNormalizer.

(** ** Loops that may raise *)

(** [for x in l: s = body(s, x)], where the body may raise: [None] as soon
    as one iteration raises. *)
Fixpoint for_each {A S : Type} (body : S -> A -> option S) (l : list A)
    (s : S) : option S :=
  match l with
  | [] => Some s
  | x :: l' => s' ← body s x; for_each body l' s'
  end.

(** [range(a, b)]. *)
Definition range (a b : nat) : list nat := seq a (b - a).

(** ** Configuration ([config.py]) *)

Module Config.

(** The value of a schedule entry: a list of region names (Monday to
    Wednesday) or a single string (Thursday and Friday). *)
Inductive Regions :=
| RegionList (regions : list string)
| RegionStr (s : string).

(** The settings read from the environment. *)
Record t := mk {
  MONDAY_LOCATIONS : list string;
  TUESDAY_LOCATIONS : list string;
  WEDNESDAY_LOCATIONS : list string;
  THURSDAY_FRIDAY : string
}.

(** The settings when the environment sets none of them. *)
Definition defaults : t :=
  mk ["Waukesha"; "West Milwaukee"; "Jackson"; "West Bend"]
     ["Kenosha"; "Racine"]
     ["West Waukesha"; "Madison"]
     "Follow-up".

(** The schedule dictionary, in insertion order. *)
Definition get_location_schedule (cls : t) : list (string * Regions) :=
  [ ("Monday", RegionList (MONDAY_LOCATIONS cls));
    ("Tuesday", RegionList (TUESDAY_LOCATIONS cls));
    ("Wednesday", RegionList (WEDNESDAY_LOCATIONS cls));
    ("Thursday", RegionStr (THURSDAY_FRIDAY cls));
    ("Friday", RegionStr (THURSDAY_FRIDAY cls)) ].

End Config.

(** ** The logistics optimizer ([logistics_optimizer.py]) *)

Module LogisticsOptimizer.
Import PyStr.

(** *** Clustering *)

(** The filter of [cluster_companies_by_region]:
    [c.location and c.location.latitude and c.location.longitude]. *)
Definition has_valid_location (c : Company.t) : bool :=
  match Company.location c with
  | Some location =>
      negb (Qeq_bool (GeoLocation.latitude location) 0)
      && negb (Qeq_bool (GeoLocation.longitude location) 0)
  | None => false
  end.

(** [[c.location.latitude, c.location.longitude]]; [None] where the
    attribute access would raise. *)
Definition coordinates_of (c : Company.t) : option (Q * Q) :=
  location ← Company.location c;
  Some (GeoLocation.latitude location, GeoLocation.longitude location).

(** The bucket name of a cluster label. *)
Definition region_of_label (label : Z) : string :=
  if (label =? -1)%Z then "Other" else "Cluster_" +:+ pretty label.

(** One iteration of the grouping loop, on the pair [(i, label)]. *)
Definition group_step (companies_with_location : list Company.t)
    (clusters : gmap string (list Company.t)) (entry : nat * Z)
    : option (gmap string (list Company.t)) :=
  let region := region_of_label entry.2 in
  let clusters :=
    match clusters !! region with
    | Some _ => clusters
    | None => <[region := []]> clusters
    end in
  company ← companies_with_location !! entry.1;
  bucket ← clusters !! region;
  Some (<[region := bucket ++ [company]]> clusters).

(** [DBSCAN(eps, min_samples).fit(coordinates).labels_] is the argument
    [dbscan]. *)
Definition cluster_companies_by_region
    (dbscan : Q -> nat -> list (Q * Q) -> list Z)
    (companies : list Company.t) : option (gmap string (list Company.t)) :=
  let companies_with_location := filter has_valid_location companies in
  match companies_with_location with
  | [] => Some ∅
  | _ =>
      coordinates ← mapM coordinates_of companies_with_location;
      let labels := dbscan 0.05 2%nat coordinates in
      for_each (group_step companies_with_location)
               (imap pair labels) ∅
  end.

(** *** Day assignment *)

(** [region_lower in company_city or company_city in region_lower]. *)
Definition region_matches (company_city region : string) : bool :=
  let region_lower := lower region in
  contains region_lower company_city || contains company_city region_lower.

(** The inner loop over one day's regions: whether it assigns. *)
Definition day_matches (company_city : string) (regions : Config.Regions)
    : bool :=
  match regions with
  | Config.RegionList l => existsb (region_matches company_city) l
  | Config.RegionStr _ => false
  end.

(** The loop over the schedule with its [break]: the first day that
    assigns, if any. *)
Definition matching_day (location_schedule : list (string * Config.Regions))
    (company_city : string) : option string :=
  fst <$> List.find (fun entry => day_matches company_city entry.2)
                    location_schedule.

(** [days[day].append(company)]; [None] is [KeyError]. *)
Definition append_to (days : gmap string (list Company.t)) (day : string)
    (company : Company.t) : option (gmap string (list Company.t)) :=
  bucket ← days !! day;
  Some (<[day := bucket ++ [company]]> days).

Definition assign_step (location_schedule : list (string * Config.Regions))
    (days : gmap string (list Company.t)) (company : Company.t)
    : option (gmap string (list Company.t)) :=
  match Company.address company with
  | None => Some days
  | Some address =>
      if negb (truthy (Address.city address)) then Some days
      else
        let company_city := lower (Address.city address) in
        match matching_day location_schedule company_city with
        | Some day => append_to days day company
        | None => append_to days "Thursday" company
        end
  end.

Definition assign_companies_to_days
    (location_schedule : list (string * Config.Regions))
    (companies : list Company.t) : option (gmap string (list Company.t)) :=
  let days : gmap string (list Company.t) :=
    list_to_map (map (fun entry => (entry.1, [])) location_schedule) in
  for_each (assign_step location_schedule) companies days.


(** *** Route optimisation *)

(** The placeholder distance of the source. *)
Definition _calculate_distance (address1 address2 : string) : Q := 10.0.

(** [distances[i][j]]; [None] is [IndexError]. *)
Definition cell (distances : list (list Q)) (i j : nat) : option Q :=
  row ← distances !! i; row !! j.

(** [distances[i][j] = d]; [None] is [IndexError]. *)
Definition set_cell (distances : list (list Q)) (i j : nat) (d : Q)
    : option (list (list Q)) :=
  row ← distances !! i;
  if (j <? length row)%nat then Some (<[i := <[j := d]> row]> distances)
  else None.

Definition _calculate_distance_matrix (companies : list CompanyReference.t)
    (start_location : string) : option (list (list Q)) :=
  let addresses := start_location :: map CompanyReference.address companies in
  let n := length addresses in
  let distances := replicate n (replicate n 0) in
  for_each
    (fun distances i =>
       for_each
         (fun distances j =>
            address_i ← addresses !! i;
            address_j ← addresses !! j;
            let distance := _calculate_distance address_i address_j in
            distances ← set_cell distances i j distance;
            set_cell distances j i distance)
         (range (i + 1) n) distances)
    (range 0 n) distances.

(** [min(l, key=key)] after its first element: [best] is kept unless a
    later key is strictly smaller. *)
Fixpoint min_by (key : nat -> option Q) (best : nat) (best_key : Q)
    (l : list nat) : option nat :=
  match l with
  | [] => Some best
  | x :: l' =>
      k ← key x;
      if Qle_bool best_key k then min_by key best best_key l'
      else min_by key x k l'
  end.

(** [min(l, key=key)]; [None] when [l] is empty or a key raises. *)
Definition py_min (key : nat -> option Q) (l : list nat) : option nat :=
  match l with
  | [] => None
  | x :: l' => k ← key x; min_by key x k l'
  end.

(** [unvisited.remove(x)]: the set is a duplicate-free list in the order
    in which CPython iterates a set of small integers (ascending). *)
Definition set_remove (x : nat) (unvisited : list nat) : list nat :=
  filter (fun y => y ≠ x) unvisited.

Definition inspect {A : Type} (a : A) : {b : A | a = b} := exist _ a eq_refl.

Lemma min_by_elem key best best_key l r :
  min_by key best best_key l = Some r -> r = best \/ r ∈ l.
Proof.
  revert best best_key.
  induction l as [|x l IH]; intros best best_key; simpl.
  - intros [= <-]. by left.
  - destruct (key x) as [k|]; simpl; [|done].
    destruct (Qle_bool best_key k); intros Hr; apply IH in Hr;
      destruct Hr as [->|Hr]; auto using list_elem_of_here, list_elem_of_further.
Qed.

Lemma py_min_elem key l r : py_min key l = Some r -> r ∈ l.
Proof.
  destruct l as [|x l]; simpl; [done|].
  destruct (key x) as [k|]; simpl; [|done].
  intros Hr. apply min_by_elem in Hr.
  destruct Hr as [->|Hr]; auto using list_elem_of_here, list_elem_of_further.
Qed.

Lemma set_remove_length x l :
  x ∈ l -> (length (set_remove x l) < length l)%nat.
Proof.
  unfold set_remove. induction l as [|y l IH]; [by intros ?%elem_of_nil|].
  rewrite filter_cons. destruct (decide (y ≠ x)) as [Hne|Heq].
  - intros [->|Hin]%elem_of_cons; [done|]. simpl. apply IH in Hin. lia.
  - intros _. simpl. pose proof (length_filter (fun y => y ≠ x) l). lia.
Qed.

(** The [while unvisited] loop of [_solve_tsp_greedy]. *)
Equations? tsp_loop (distances : list (list Q)) (current : nat)
    (unvisited tour : list nat) : option (list nat)
    by wf (length unvisited) lt :=
  tsp_loop distances current [] tour := Some tour;
  tsp_loop distances current (u :: us) tour
    with inspect (py_min (cell distances current) (u :: us)) := {
    | exist _ (Some closest) Hmin =>
        tsp_loop distances closest (set_remove closest (u :: us))
                 (tour ++ [closest]);
    | exist _ None _ => None }.
Proof.
  apply (set_remove_length closest (u :: us)).
  by apply (py_min_elem (cell distances current)).
Qed.

Definition _solve_tsp_greedy (distances : list (list Q))
    : option (list nat) :=
  let n := length distances in
  tour ← tsp_loop distances 0 (range 1 n) [0%nat];
  Some (tour ++ [0%nat]).

(** The day label: the region of the first company, or Monday. *)
Definition route_day (first_company : Company.t) : string :=
  match Company.location first_company with
  | Some location =>
      if opt_truthy (GeoLocation.region location)
      then default "" (GeoLocation.region location)
      else "Monday"
  | None => "Monday"
  end.

Definition optimize_route (companies : list Company.t)
    (start_location : string) : option Route.t :=
  match companies with
  | [] => Some (Route.mk "" [] 0 0 [])
  | first_company :: _ =>
      let day := route_day first_company in
      let route :=
        foldl (fun route company => Route.add_company route company 0)
              (Route.new day) companies in
      match Route.companies route with
      | [] => Some route
      | _ =>
          distances ←
            _calculate_distance_matrix (Route.companies route) start_location;
          optimized_order ← _solve_tsp_greedy distances;
          total_distance ←
            for_each
              (fun total_distance i =>
                 from_idx ← optimized_order !! i;
                 to_idx ← optimized_order !! (i + 1)%nat;
                 d ← cell distances from_idx to_idx;
                 Some (total_distance + d))
              (range 0 (length optimized_order - 1)) 0;
          Some (Route.mk (Route.day route) (Route.companies route)
                         total_distance (total_distance / 30)
                         optimized_order)
      end
  end.

(** *** Weekly schedule *)

(** The start of a day's route. *)
Definition day_start_location (day : string) : string :=
  if (day =? "Monday")%string then "Waukesha, WI"
  else if (day =? "Tuesday")%string then "Kenosha, WI"
  else if (day =? "Wednesday")%string then "Madison, WI"
  else "Milwaukee, WI".

(** One iteration of the loop over [companies_by_day.items()], on the
    key [day] of that dictionary. *)
Definition schedule_step (companies_by_day : gmap string (list Company.t))
    (routes : gmap string Route.t) (day : string)
    : option (gmap string Route.t) :=
  day_companies ← companies_by_day !! day;
  match day_companies with
  | _ :: _ =>
      let start_location := day_start_location day in
      route ← optimize_route day_companies start_location;
      Some (<[day := route]> routes)
  | [] => Some (<[day := Route.new day]> routes)
  end.

(** The dictionary of [assign_companies_to_days] has the days of the
    schedule as keys, inserted in the order of the schedule: that is the
    order of [items()]. *)
Definition generate_weekly_schedule
    (location_schedule : list (string * Config.Regions))
    (companies : list Company.t) : option (gmap string Route.t) :=
  companies_by_day ← assign_companies_to_days location_schedule companies;
  for_each (schedule_step companies_by_day) location_schedule.*1 ∅.

(** *** Outreach days *)

Definition default_rates : gmap string Q :=
  {[ "Monday" := 0.7; "Tuesday" := 0.9; "Wednesday" := 0.8;
     "Thursday" := 0.7; "Friday" := 0.5 ]}.

(** [if historical_data:] is the truth value of an optional dictionary:
    false for [None] and for the empty dictionary. *)
Definition suggest_best_outreach_days (companies : list Company.t)
    (historical_data : option (gmap string Q)) : gmap string Q :=
  match historical_data with
  | Some data => if negb (size data =? 0)%nat then data else default_rates
  | None => default_rates
  end.

End LogisticsOptimizer.

(** ** Industry discovery ([industry_discovery.py]) *)

Module IndustryDiscovery.
Import PyStr DataNormalizer.

Definition industry_keywords : gmap string (list string) :=
  {[ "construction" :=
       ["contractor"; "builder"; "construction"; "engineering"; "architect";
        "hvac"; "electrical"; "plumbing"; "concrete"; "framing"; "insulation";
        "excavation"; "site prep"; "modular"; "prefab"; "building materials";
        "steel"; "lumber"; "glass"; "precast"; "fasteners"; "coatings"];
     "manufacturing" :=
       ["manufacturer"; "manufacturing"; "industrial"; "machinery";
        "automation"; "oem"; "supplier"; "component"; "fabricator";
        "fabrication"; "steel"; "plastic"; "composite"; "metal"; "stamping";
        "machining"; "aerospace"; "automotive"; "equipment"; "robotics";
        "cnc"; "injection molding"; "food processing"; "packaging"];
     "trucking" :=
       ["trucking"; "logistics"; "freight"; "carrier"; "ltl"; "ftl";
        "last-mile"; "delivery"; "refrigerated"; "transport"; "tanker";
        "fleet"; "heavy equipment"; "warehousing"; "distribution";
        "supply chain"; "fleet maintenance"; "intermodal";
        "hazardous material"] ]}.

Definition industry_naics_codes : gmap string (list string) :=
  {[ "construction" :=
       ["23"; "236"; "237"; "238"; "2361"; "2362";
        "2371"; "2372"; "2373"; "2379"; "2381"; "2382"; "2383"; "2389"];
     "manufacturing" :=
       ["31"; "32"; "33";
        "331"; "332"; "333"; "334"; "335"; "336"; "337"; "339";
        "3311"; "3312"; "3313"; "3314"; "3315";
        "3321"; "3322"; "3323"; "3324"; "3325"; "3326"; "3327"; "3328";
        "3329"];
     "trucking" :=
       ["48"; "484"; "4841"; "4842"; "493"; "4931";
        "49311"; "49312"; "49313"; "49319"] ]}.

(** The three tests of [_is_in_industry], each a loop that returns
    [True] at its first hit. *)
Definition in_industry_by_primary (industry : Industry.t)
    (industry_type : string) : bool :=
  truthy (Industry.primary industry)
  && String.eqb
       (lower (Normalized.category
                 (normalize_industry (Industry.primary industry))))
       (lower industry_type).

Definition in_industry_by_naics (industry : Industry.t)
    (industry_type : string) : bool :=
  match Industry.naics_code industry, industry_naics_codes !! industry_type with
  | Some naics_code, Some prefixes =>
      truthy naics_code
      && existsb (fun code_prefix => String.prefix code_prefix naics_code)
                 prefixes
  | _, _ => false
  end.

Definition in_industry_by_description (company : Company.t)
    (industry_type : string) : bool :=
  match Company.description company, industry_keywords !! industry_type with
  | Some description, Some keywords =>
      truthy description
      && (let description_lower := lower description in
          existsb (fun keyword => contains keyword description_lower) keywords)
  | _, _ => false
  end.

Definition _is_in_industry (company : Company.t) (industry_type : string)
    : bool :=
  match Company.industry company with
  | None => false
  | Some industry =>
      if in_industry_by_primary industry industry_type then true
      else if in_industry_by_naics industry industry_type then true
      else in_industry_by_description company industry_type
  end.

Definition filter_companies_by_industry (companies : list Company.t)
    (industry_type : string) : list Company.t :=
  List.filter (fun company => _is_in_industry company industry_type) companies.

Definition get_industry_segments (industry_type : string) : list string :=
  let segments : gmap string (list string) :=
    {[ "construction" :=
         ["General Contractors"; "Engineering Firms";
          "Specialty Trade Contractors"; "Excavation & Site Prep";
          "Modular & Prefab Construction"; "Building Materials Suppliers"];
       "manufacturing" :=
         ["Industrial Machinery & Automation";
          "OEM Suppliers & Component Manufacturers"; "Fabricators";
          "Aerospace, Automotive & Heavy Equipment"; "Robotics & Automation";
          "Injection Molding & Composite Materials";
          "Food Processing & Packaging"];
       "trucking" :=
         ["Freight Carriers"; "Refrigerated Transport & Tanker Fleets";
          "Heavy Equipment Transporters"; "Warehousing & Distribution";
          "Logistics Technology & Supply Chain"; "Fleet Maintenance & Repair";
          "Intermodal & Hazardous Material Haulers"] ]} in
  default [] (segments !! industry_type).

Definition segment_keywords (segment_lower : string) : list string :=
  if (segment_lower =? "general contractors")%string
  then ["general contractor"; "builder"; "construction company"]
  else if (segment_lower =? "engineering firms")%string
  then ["engineering firm"; "engineer"; "architectural"; "design firm"]
  else if (segment_lower =? "specialty trade contractors")%string
  then ["specialty"; "trade"; "hvac"; "electrical"; "plumbing"; "concrete";
        "framing"; "insulation"]
  else [].

Definition _is_in_segment (company : Company.t) (segment : string) : bool :=
  match Company.industry company, Company.description company with
  | Some industry, Some description =>
      if negb (truthy description) then false
      else if truthy (Industry.primary industry)
              && String.eqb
                   (Normalized.subcategory
                      (normalize_industry (Industry.primary industry)))
                   segment
      then true
      else
        let description_lower := lower description in
        let segment_lower := lower segment in
        existsb (fun keyword => contains keyword description_lower)
                (segment_keywords segment_lower)
  | _, _ => false
  end.

Definition filter_companies_by_segment (companies : list Company.t)
    (industry_type segment : string) : list Company.t :=
  List.filter
    (fun company => _is_in_industry company industry_type
                    && _is_in_segment company segment)
    companies.

(** [[x for x in l if p(x)]] where [p] may raise. *)
Fixpoint filter_raising {A : Type} (p : A -> option bool) (l : list A)
    : option (list A) :=
  match l with
  | [] => Some []
  | x :: l' =>
      keep ← p x;
      rest ← filter_raising p l';
      Some (if (keep : bool) then x :: rest else rest)
  end.

(** The dictionary that [filter_owner_operated_companies] builds. *)
Definition owner_data (company : Company.t) : gmap string PyVal :=
  {[ "employee_count" :=
       match Company.financials company with
       | Some financials =>
           match Financials.employee_count financials with
           | Some n => PInt n
           | None => PNone
           end
       | None => PNone
       end;
     "executives" :=
       PList ((fun exec => PDict {[ "role" := PStr (Executive.role exec) ]})
              <$> Company.executives company);
     "legal_structure" :=
       match Company.legal_structure company with
       | Some legal_structure => PStr (LegalStructure_value legal_structure)
       | None => PStr ""
       end;
     "name" := PStr (Company.name company) ]}.

Definition filter_owner_operated_companies (companies : list Company.t)
    : option (list Company.t) :=
  filter_raising (fun company => is_owner_operated (owner_data company))
                 companies.

(** [x if company.tax_indicators else ""] for an optional text [x]. *)
Definition indicator_text (company : Company.t)
    (field : TaxIndicators.t -> option string) : PyVal :=
  match Company.tax_indicators company with
  | Some tax_indicators =>
      match field tax_indicators with
      | Some s => PStr s
      | None => PNone
      end
  | None => PStr ""
  end.

(** The dictionary that [filter_growth_mode_companies] builds. *)
Definition growth_data (company : Company.t) : gmap string PyVal :=
  {[ "growth_rate" :=
       match Company.financials company with
       | Some financials =>
           match Financials.growth_rate financials with
           | Some x => PFloat x
           | None => PNone
           end
       | None => PNone
       end;
     "description" :=
       match Company.description company with
       | Some s => if truthy s then PStr s else PStr ""
       | None => PStr ""
       end;
     "recent_developments" :=
       indicator_text company TaxIndicators.recent_developments;
     "financing_activity" :=
       indicator_text company TaxIndicators.financing_activity ]}.

Definition filter_growth_mode_companies (companies : list Company.t)
    : option (list Company.t) :=
  filter_raising (fun company => is_in_growth_mode (growth_data company))
                 companies.

End IndustryDiscovery.

(** ** The business matcher ([business_matcher.py]) *)

Module BusinessMatcher.
Import PyStr DataNormalizer.

Definition calculate_industry_similarity (company1 company2 : Company.t)
    : Q :=
  match Company.industry company1, Company.industry company2 with
  | Some industry1, Some industry2 =>
      let naics1 := Industry.naics_code industry1 in
      let naics2 := Industry.naics_code industry2 in
      if String.eqb (Industry.primary industry1) (Industry.primary industry2)
      then 1.0
      else if SimilarityScorer.codes_match naics1 naics2 then 0.9
      else if SimilarityScorer.codes_match (Industry.sic_code industry1)
                                           (Industry.sic_code industry2)
      then 0.9
      else if opt_truthy naics1 && opt_truthy naics2
              && String.eqb (take 2 (default "" naics1))
                            (take 2 (default "" naics2))
      then 0.8
      else
        let normalized1 := normalize_industry (Industry.primary industry1) in
        let normalized2 := normalize_industry (Industry.primary industry2) in
        if String.eqb (Normalized.category normalized1)
                      (Normalized.category normalized2)
        then
          if String.eqb (Normalized.subcategory normalized1)
                        (Normalized.subcategory normalized2)
          then 0.8 else 0.6
        else
          let subcategories1 : gset string :=
            list_to_set (Industry.subcategories industry1) in
          let subcategories2 : gset string :=
            list_to_set (Industry.subcategories industry2) in
          if SimilarityScorer.set_truthy subcategories1
             && SimilarityScorer.set_truthy subcategories2 then
            let overlap := subcategories1 ∩ subcategories2 in
            if SimilarityScorer.set_truthy overlap then
              0.5 + (0.3 * inject_Z (Z.of_nat (size overlap)))
                    / inject_Z (Z.of_nat (Nat.max (size subcategories1)
                                                  (size subcategories2)))
            else 0.2
          else 0.2
  | _, _ => 0.1
  end.

Definition calculate_size_similarity (log10 : Q -> Q)
    (company1 company2 : Company.t) : Q :=
  match Company.financials company1, Company.financials company2 with
  | Some financials1, Some financials2 =>
      let employee_similarity :=
        match Financials.employee_count financials1,
              Financials.employee_count financials2 with
        | Some employee_count1, Some employee_count2 =>
            let log_emp1 := log10 (inject_Z (Z.max 10 employee_count1)) in
            let log_emp2 := log10 (inject_Z (Z.max 10 employee_count2)) in
            let ratio := Qmin log_emp1 log_emp2 / Qmax log_emp1 log_emp2 in
            ratio
        | _, _ => 0.5
        end in
      let revenue_similarity :=
        match Financials.estimated_revenue financials1,
              Financials.estimated_revenue financials2 with
        | Some estimated_revenue1, Some estimated_revenue2 =>
            let log_rev1 := log10 (Qmax 10000 estimated_revenue1) in
            let log_rev2 := log10 (Qmax 10000 estimated_revenue2) in
            let ratio := Qmin log_rev1 log_rev2 / Qmax log_rev1 log_rev2 in
            ratio
        | _, _ => 0.5
        end in
      0.6 * employee_similarity + 0.4 * revenue_similarity
  | _, _ => 0.5
  end.

Definition calculate_location_similarity (company1 company2 : Company.t)
    : Q :=
  match Company.address company1, Company.address company2 with
  | Some address1, Some address2 =>
      if String.eqb (Address.street address1) (Address.street address2)
         && String.eqb (Address.city address1) (Address.city address2)
         && String.eqb (Address.state address1) (Address.state address2)
      then 1.0
      else if String.eqb (Address.city address1) (Address.city address2)
              && String.eqb (Address.state address1) (Address.state address2)
      then 0.9
      else if String.eqb (Address.state address1) (Address.state address2)
              && truthy (Address.zip address1) && truthy (Address.zip address2)
              && String.eqb (take 3 (Address.zip address1))
                            (take 3 (Address.zip address2))
      then 0.8
      else if String.eqb (Address.state address1) (Address.state address2)
      then 0.6
      else 0.2
  | _, _ => 0.1
  end.

(** [tfidf d1 d2] is the value of the [try] block on two descriptions:
    the cosine of their TF-IDF vectors, or 0.3 when the vectorizer
    raises. *)
Definition calculate_description_similarity (tfidf : string -> string -> Q)
    (company1 company2 : Company.t) : Q :=
  if negb (opt_truthy (Company.description company1))
     || negb (opt_truthy (Company.description company2))
  then 0.3
  else tfidf (default "" (Company.description company1))
             (default "" (Company.description company2)).

Definition calculate_similarity_score (log10 : Q -> Q)
    (tfidf : string -> string -> Q) (company1 company2 : Company.t) : Q :=
  let industry_similarity := calculate_industry_similarity company1 company2 in
  let size_similarity := calculate_size_similarity log10 company1 company2 in
  let location_similarity := calculate_location_similarity company1 company2 in
  let description_similarity :=
    calculate_description_similarity tfidf company1 company2 in
  0.4 * industry_similarity + 0.2 * size_similarity
  + 0.2 * location_similarity + 0.2 * description_similarity.

Definition find_similar_companies (log10 : Q -> Q)
    (tfidf : string -> string -> Q) (company : Company.t)
    (candidate_companies : list Company.t) (top_n : Z)
    : list (Company.t * Q) :=
  let candidates :=
    filter (fun c => Company.id c <> Company.id company) candidate_companies in
  match candidates with
  | [] => []
  | _ =>
      let similarity_scores :=
        (fun candidate =>
           (candidate, calculate_similarity_score log10 tfidf company candidate))
        <$> candidates in
      SimilarityScorer.slice_to top_n
        (SimilarityScorer.sort_desc Qle_bool snd similarity_scores)
  end.

(** *** Industry codes *)

(** An entry of the table of industry codes. *)
Module IndustryCode.
Record t := mk {
  code_type : string;
  name : string;
  subcategories : option (list (string * string));
  naics_equivalent : option string
}.
End IndustryCode.

(** [_load_industry_codes], in insertion order. *)
Definition industry_codes : list (string * IndustryCode.t) :=
  [ ("23", IndustryCode.mk "NAICS" "Construction"
             (Some [("236", "Construction of Buildings");
                    ("237", "Heavy and Civil Engineering Construction");
                    ("238", "Specialty Trade Contractors")]) None);
    ("1521", IndustryCode.mk "SIC" "General Contractors-Single-Family Houses"
               None (Some "236115"));
    ("1541", IndustryCode.mk "SIC"
               "General Contractors-Industrial Buildings and Warehouses"
               None (Some "236210"));
    ("31-33", IndustryCode.mk "NAICS" "Manufacturing"
                (Some [("331", "Primary Metal Manufacturing");
                       ("332", "Fabricated Metal Product Manufacturing");
                       ("333", "Machinery Manufacturing");
                       ("336", "Transportation Equipment Manufacturing")])
                None);
    ("3411", IndustryCode.mk "SIC" "Metal Cans" None (Some "332431"));
    ("3441", IndustryCode.mk "SIC" "Fabricated Structural Metal" None
               (Some "332312"));
    ("484", IndustryCode.mk "NAICS" "Truck Transportation"
              (Some [("4841", "General Freight Trucking");
                     ("4842", "Specialized Freight Trucking")]) None);
    ("4212", IndustryCode.mk "SIC" "Local Trucking Without Storage" None
               (Some "484110"));
    ("4213", IndustryCode.mk "SIC" "Trucking, Except Local" None
               (Some "484121")) ].

(** The loop over the table for a NAICS code: an entry of that code ends
    the loop; a subcategory of that code ends the loop over the
    subcategories of its entry. *)
Fixpoint naics_matches (entries : list (string * IndustryCode.t))
    (naics_code : string) (matches : list string) : list string :=
  match entries with
  | [] => matches
  | (code, info) :: entries' =>
      if String.eqb (IndustryCode.code_type info) "NAICS"
         && String.eqb code naics_code
      then matches ++ [IndustryCode.name info]
      else
        let matches :=
          match IndustryCode.subcategories info with
          | Some subcategories =>
              match List.find (fun sub => String.eqb sub.1 naics_code)
                              subcategories with
              | Some sub => matches ++ [sub.2]
              | None => matches
              end
          | None => matches
          end in
        naics_matches entries' naics_code matches
  end.

(** The loop over the table for a SIC code. *)
Fixpoint sic_matches (entries : list (string * IndustryCode.t))
    (sic_code : string) (matches : list string) : list string :=
  match entries with
  | [] => matches
  | (code, info) :: entries' =>
      if String.eqb (IndustryCode.code_type info) "SIC"
         && String.eqb code sic_code
      then matches ++ [IndustryCode.name info]
      else sic_matches entries' sic_code matches
  end.

Definition match_by_industry_code (naics_code sic_code : option string)
    : list string :=
  let matches := [] in
  let matches :=
    if opt_truthy naics_code
    then naics_matches industry_codes (default "" naics_code) matches
    else matches in
  if opt_truthy sic_code
  then sic_matches industry_codes (default "" sic_code) matches
  else matches.

(** An entry of the result of [get_industry_by_name]. *)
Module IndustryMatch.
Record t := mk {
  code : string;
  code_type : string;
  name : string;
  parent_name : option string
}.
End IndustryMatch.

Definition name_matches (industry_name_lower : string)
    (entry : string * IndustryCode.t) : list IndustryMatch.t :=
  let '(code, info) := entry in
  (if contains industry_name_lower (lower (IndustryCode.name info))
   then [IndustryMatch.mk code (IndustryCode.code_type info)
                          (IndustryCode.name info) None]
   else [])
  ++ match IndustryCode.subcategories info with
     | Some subcategories =>
         flat_map
           (fun sub =>
              if contains industry_name_lower (lower sub.2)
              then [IndustryMatch.mk sub.1 (IndustryCode.code_type info) sub.2
                                     (Some (IndustryCode.name info))]
              else [])
           subcategories
     | None => []
     end.

Definition get_industry_by_name (industry_name : string)
    : list IndustryMatch.t :=
  let industry_name_lower := lower industry_name in
  flat_map (name_matches industry_name_lower) industry_codes.

End BusinessMatcher.

(** ** The data collector ([data_collector.py]) *)

Module DataCollector.
Import PyStr.



End DataCollector.

(** ** Predicates used in the statements *)

(** The company has an address. *)
Definition has_address (c : Company.t) : Prop :=
  is_Some (Company.address c).

#[global] Instance has_address_dec c : Decision (has_address c).
Proof. unfold has_address. apply _. Defined.

(** [add_company] called on each company of the input in turn, as
    [optimize_route] does. *)
Definition add_all (route : Route.t) (companies : list Company.t) : Route.t :=
  foldl (fun route company => Route.add_company route company 0)
        route companies.

(** A matrix of [n] rows of [n] cells. *)
Definition square (n : nat) (distances : list (list Q)) : Prop :=
  length distances = n /\ Forall (fun row => length row = n) distances.

(** The cells that the double loop of [_calculate_distance_matrix] has
    written when the outer index is [i] and the inner index is about to
    be [j0]. *)
Definition written (i j0 p q : nat) : Prop :=
  (Nat.min p q < i)%nat \/ (Nat.min p q = i /\ (Nat.max p q < j0)%nat).

(** The state of the matrix at that point: square, zero on the diagonal,
    the placeholder distance in every written cell. *)
Definition filled (n i j0 : nat) (distances : list (list Q)) : Prop :=
  square n distances /\
  (forall p, (p < n)%nat -> LogisticsOptimizer.cell distances p p = Some 0) /\
  (forall p q, (p < n)%nat -> (q < n)%nat -> p <> q -> written i j0 p q ->
               LogisticsOptimizer.cell distances p q = Some 10.0).

(** What [generate_weekly_schedule] stores for a day, given the companies
    assigned to it: a fresh route named after the day when there is none;
    otherwise a route named after the region of the first company (Monday
    when it has none) that lists the companies in their order. *)
Definition route_for (day : string) (day_companies : list Company.t)
    (r : Route.t) : Prop :=
  match day_companies with
  | [] => r = Route.new day
  | first_company :: _ =>
      Route.day r = LogisticsOptimizer.route_day first_company /\
      CompanyReference.company_id <$> Route.companies r
      = Company.id <$> filter has_address day_companies
  end.

(** Industry, address, legal structure and financials are present, and
    the financials carry an employee count, a revenue and a growth rate. *)
Definition fully_populated (c : Company.t) : Prop :=
  is_Some (Company.industry c) /\
  is_Some (Company.address c) /\
  is_Some (Company.legal_structure c) /\
  exists f, Company.financials c = Some f /\
            is_Some (Financials.employee_count f) /\
            is_Some (Financials.estimated_revenue f) /\
            is_Some (Financials.growth_rate f).

(** The company passes the guard of the day-assignment loop: it has an
    address whose city is not empty. *)
Definition has_city (c : Company.t) : bool :=
  match Company.address c with
  | Some address => PyStr.truthy (Address.city address)
  | None => false
  end.

(** The day whose list receives a company that passes the guard: the
    first matching day, Thursday when there is none. *)
Definition day_of (location_schedule : list (string * Config.Regions))
    (c : Company.t) : string :=
  match Company.address c with
  | Some address =>
      default "Thursday"
        (LogisticsOptimizer.matching_day location_schedule
           (PyStr.lower (Address.city address)))
  | None => "Thursday"
  end.

(** The company is appended to the list of day [d]. *)
Definition assigned_to (location_schedule : list (string * Config.Regions))
    (d : string) (c : Company.t) : Prop :=
  has_city c = true /\ day_of location_schedule c = d.

#[global] Instance assigned_to_dec schedule d c :
  Decision (assigned_to schedule d c).
Proof. unfold assigned_to. apply _. Defined.

(** No configured region name contains the company's city, or is
    contained in it, ignoring case. *)
Definition matches_no_region (cls : Config.t) (c : Company.t) : Prop :=
  forall address region,
    Company.address c = Some address ->
    region ∈ Config.MONDAY_LOCATIONS cls ++ Config.TUESDAY_LOCATIONS cls
             ++ Config.WEDNESDAY_LOCATIONS cls ->
    PyStr.contains (PyStr.lower region) (PyStr.lower (Address.city address))
      = false /\
    PyStr.contains (PyStr.lower (Address.city address)) (PyStr.lower region)
      = false.

(** The members of all buckets of a clustering, bucket after bucket. *)
Definition members (clusters : gmap string (list Company.t))
    : list Company.t :=
  concat (map_to_list clusters).*2.

(** What the optimizer relies on in [DBSCAN]: one label per sample. *)
Definition labels_every_sample
    (dbscan : Q -> nat -> list (Q * Q) -> list Z) : Prop :=
  forall eps min_samples coordinates,
    length (dbscan eps min_samples coordinates) = length coordinates.

(** The values an indicator score of the tax potential can take, and the
    weighted sums they give. *)
Definition growth_values : list float := [0.3; 1.0; 0.8; 0.5; 0.2]%float.
Definition hiring_values : list float := [0.3; 1.0; 0.7; 0.5; 0.2]%float.
Definition equipment_values : list float := [0.3; 1.0; 0.7; 0.2]%float.
Definition succession_values : list float := [0.2; 1.0; 0.7; 0.3]%float.
Definition government_values : list float := [0.2; 1.0; 0.7; 0.3]%float.

Definition tax_weighted_values : list float :=
  g ← growth_values; h ← hiring_values; e ← equipment_values;
  s ← succession_values; k ← government_values;
  [(0 + g * 0.30 + h * 0.20 + e * 0.20 + s * 0.15 + k * 0.15)%float].

(** On a weighted sum [w]: "below" is the negation of "at least", and a
    sum that is at least 0.7 is at least 0.4. *)
Definition thresholds_coherent (w : float) : bool :=
  Bool.eqb (w <? 0.7)%float (negb (0.7 <=? w)%float)
  && Bool.eqb (w <? 0.4)%float (negb (0.4 <=? w)%float)
  && implb (0.7 <=? w)%float (0.4 <=? w)%float.

#[global] Instance Qeq_rel_dec : RelDecision Qeq := Qeq_dec.

(** The companies of a list that the tax-potential scorer puts in class
    [p], in the order of the list, each paired with [p]. *)
Definition with_potential (p : TaxSavingPotential)
    (companies : list Company.t) : list (Company.t * TaxSavingPotential) :=
  (fun c => (c, p))
  <$> filter (fun c => SimilarityScorer.score_tax_saving_potential c = p)
             companies.

(** The candidates a ranking against [reference] scores: those with
    another id. *)
Definition other_candidates (reference : Company.t)
    (candidates : list Company.t) : list Company.t :=
  filter (fun c => Company.id c <> Company.id reference) candidates.

(** The company has more than 500 employees on record. *)
Definition large (c : Company.t) : bool :=
  match Company.financials c with
  | Some f =>
      match Financials.employee_count f with
      | Some n => (500 <? n)%Z
      | None => false
      end
  | None => false
  end.

(** The role of some executive names an owner, founder, president, CEO
    or principal. *)
Definition owner_titled (c : Company.t) : bool :=
  existsb (fun exec => PyStr.any_in DataNormalizer.owner_titles
                                    (PyStr.lower (Executive.role exec)))
          (Company.executives c).

(** The legal structure is LLC, family-owned or sole proprietorship. *)
Definition owner_structured (c : Company.t) : bool :=
  match Company.legal_structure c with
  | Some LLC | Some FAMILY_OWNED | Some SOLE_PROPRIETORSHIP => true
  | _ => false
  end.

(** The name carries a family indicator. *)
Definition family_named (c : Company.t) : bool :=
  PyStr.any_in ["family"; "& sons"; "& son"; "brothers"; "& co"]
               (PyStr.lower (Company.name c)).

(** The growth rate is on record and at least 5. *)
Definition fast_growing (c : Company.t) : bool :=
  match Company.financials c with
  | Some f =>
      match Financials.growth_rate f with
      | Some g => Qle_bool 5 g
      | None => false
      end
  | None => false
  end.

(** The description carries a hiring indicator. *)
Definition hiring_described (c : Company.t) : bool :=
  PyStr.any_in DataNormalizer.hiring_indicators
               (PyStr.lower (default "" (Company.description c))).

(** An optional text of the tax indicators: whether the company has tax
    indicators in which it is [None], and the text otherwise. *)
Definition text_missing (c : Company.t)
    (field : TaxIndicators.t -> option string) : bool :=
  match Company.tax_indicators c with
  | Some t => bool_decide (field t = None)
  | None => false
  end.

Definition text_of (c : Company.t)
    (field : TaxIndicators.t -> option string) : string :=
  match Company.tax_indicators c with
  | Some t => default "" (field t)
  | None => ""
  end.

Definition expansion_reported (c : Company.t) : bool :=
  PyStr.any_in DataNormalizer.expansion_indicators
               (PyStr.lower (text_of c TaxIndicators.recent_developments)).

Definition financing_reported (c : Company.t) : bool :=
  PyStr.any_in DataNormalizer.financing_terms
               (PyStr.lower (text_of c TaxIndicators.financing_activity)).

(** The growth-mode test reaches a text that is [None]. *)
Definition growth_check_raises (c : Company.t) : bool :=
  negb (fast_growing c) && negb (hiring_described c)
  && (text_missing c TaxIndicators.recent_developments
      || negb (expansion_reported c)
         && text_missing c TaxIndicators.financing_activity).

Definition growth_mode (c : Company.t) : bool :=
  fast_growing c || hiring_described c || expansion_reported c
  || financing_reported c.

(** The primary industry label, the NAICS code and the description of a
    company against a list of keywords or code prefixes. *)
Definition primary_mentions (c : Company.t) (keywords : list string) : bool :=
  match Company.industry c with
  | Some i => PyStr.any_in keywords (PyStr.lower (Industry.primary i))
  | None => false
  end.

Definition naics_starts (c : Company.t) (prefixes : list string) : bool :=
  match Company.industry c with
  | Some i =>
      match Industry.naics_code i with
      | Some code => existsb (fun p => String.prefix p code) prefixes
      | None => false
      end
  | None => false
  end.

Definition description_mentions (c : Company.t) (keywords : list string)
    : bool :=
  match Company.description c with
  | Some d => PyStr.any_in keywords (PyStr.lower d)
  | None => false
  end.

(** The string does not begin with white space. *)
Definition starts_clean (s : string) : Prop :=
  match s with
  | String c _ => PyStr.is_space c = false
  | EmptyString => True
  end.

(** The company with financials [f] in which the growth rate is [g]. *)
Definition with_growth_rate (c : Company.t) (f : Financials.t)
    (g : option Q) : Company.t :=
  Company.mk (Company.id c) (Company.name c) (Company.description c)
    (Company.address c) (Company.legal_structure c) (Company.industry c)
    (Company.executives c)
    (Some (Financials.mk (Financials.employee_count f)
             (Financials.estimated_revenue f) g
             (Financials.capex_trends f) (Financials.payroll_trends f)))
    (Company.tax_indicators c) (Company.location c) (Company.website c)
    (Company.last_updated c).

(** The class of a weighted tax score, and the weighted sum of five
    indicator scores, as [score_tax_saving_potential] computes them. *)
Definition tax_class (w : float) : TaxSavingPotential :=
  if (0.7 <=? w)%float then HIGH
  else if (0.4 <=? w)%float then MEDIUM
  else LOW.

Definition tax_sum (g h e s k : float) : float :=
  (0 + g * 0.30 + h * 0.20 + e * 0.20 + s * 0.15 + k * 0.15)%float.

(** The pairs of growth scores of a lower and a higher known growth
    rate, and the pairs of the score of a known rate below 5 and the
    score of an unknown rate. *)
Definition growth_steps : list (float * float) :=
  [ (0.2, 0.2); (0.2, 0.5); (0.2, 0.8); (0.2, 1.0); (0.5, 0.5); (0.5, 0.8);
    (0.5, 1.0); (0.8, 0.8); (0.8, 1.0); (1.0, 1.0); (0.2, 0.3) ]%float.

(** The class does not go down along a step, whatever the other four
    indicator scores. *)
Definition class_steps : list bool :=
  ab ← growth_steps; h ← hiring_values; e ← equipment_values;
  s ← succession_values; k ← government_values;
  [ (SimilarityScorer.potential_order (tax_class (tax_sum ab.1 h e s k))
     <=? SimilarityScorer.potential_order (tax_class (tax_sum ab.2 h e s k)))%Z ].

(** ** Sample records *)

Module Samples.

Definition milwaukee_address : Address.t :=
  Address.mk "123 Main St" "Milwaukee" "WI" "53202" "USA".

Definition madison_address : Address.t :=
  Address.mk "101 Elm St" "Madison" "WI" "53703" "USA".

Definition springfield_address : Address.t :=
  Address.mk "9 Lake Rd" "Springfield" "IL" "62701" "USA".

Definition manufacturing : Industry.t :=
  Industry.mk "Manufacturing" (Some "333") (Some "3500") [].

Definition steady_financials : Financials.t :=
  Financials.mk (Some 50%Z) (Some 5000000) (Some 15) None None.

(** A company with every optional part missing. *)
Definition bare (id : string) : Company.t :=
  Company.mk id id None None None None [] None None None None 0.

(** A company that only has an address. *)
Definition located (id : string) (address : Address.t) : Company.t :=
  Company.mk id id None (Some address) None None [] None None None None 0.

(** A company with industry, address, financials and legal structure. *)
Definition full_company : Company.t :=
  Company.mk "company1" "Test Manufacturing"
             (Some "A test manufacturing company")
             (Some milwaukee_address) (Some LLC) (Some manufacturing) []
             (Some steady_financials) None None None 0.

(** The scenario of the tax-potential end-to-end test. *)
Definition growing_company : Company.t :=
  Company.mk "company2" "Growing Works" None None None None []
    (Some (Financials.mk None None (Some 20)
             (Some "major investment in new facility")
             (Some "significant hiring")))
    (Some (TaxIndicators.mk None None
             (Some "major federal contract award")
             (Some "owner retirement succession plan") None LOW))
    None None 0.

(** A company with coordinates. *)
Definition placed (id : string) (latitude longitude : Q) : Company.t :=
  Company.mk id id None None None None [] None None
             (Some (GeoLocation.mk latitude longitude None)) None 0.

(** A coarse rational stand-in for [numpy.log10], to run the scorer:
    the binary logarithm of the integer part scaled by log10(2), and at
    least 1. *)
Definition coarse_log10 (x : Q) : Q :=
  Qmax 1 (inject_Z (Z.log2 (Qfloor x)) * 0.30103).

(** The labels of [DBSCAN] when no two samples are neighbours: every
    sample is noise. *)
Definition all_noise (eps : Q) (min_samples : nat)
    (coordinates : list (Q * Q)) : list Z :=
  map (fun _ => (-1)%Z) coordinates.

(** A company whose indicator scores are 0.5, 0.5, 0.3, 0.3 and 0.3. *)
Definition borderline_company : Company.t :=
  Company.mk "company3" "Borderline Works" None None None None []
    (Some (Financials.mk (Some 51%Z) None (Some 5) None None))
    (Some (TaxIndicators.mk None None (Some "none so far")
             (Some "not discussed") None LOW))
    None None 0.

(** A company as the dataclass builds it from an id and a name alone:
    empty financials and empty tax indicators. *)
Definition fresh (id : string) : Company.t :=
  Company.mk id id None None None None []
    (Some (Financials.mk None None None None None))
    (Some (TaxIndicators.mk None None None None None LOW))
    None None 0.

End Samples.

(** ** The string primitives on sample inputs *)

Example split_range : PyStr.split "-" "10-50" = ["10"; "50"].
Proof. reflexivity. Qed.

Example split_keeps_empty_pieces : PyStr.split "-" "-5-" = [""; "5"; ""].
Proof. reflexivity. Qed.

Example strip_both_ends : PyStr.strip "  1,000+ " = "1,000+".
Proof. reflexivity. Qed.

Example lower_ascii : PyStr.lower "West Milwaukee" = "west milwaukee".
Proof. reflexivity. Qed.

Example upper_ascii : PyStr.upper "2.5m" = "2.5M".
Proof. reflexivity. Qed.

Example contains_substring :
  PyStr.contains "milwaukee" "west milwaukee" = true
  /\ PyStr.contains "west milwaukee" "milwaukee" = false
  /\ PyStr.contains "" "" = true.
Proof. repeat split. Qed.

Example py_int_forms :
  DataNormalizer.py_int " 42 " = Some 42%Z
  /\ DataNormalizer.py_int "-7" = Some (-7)%Z
  /\ DataNormalizer.py_int "1_000" = Some 1000%Z
  /\ DataNormalizer.py_int "1,000" = None
  /\ DataNormalizer.py_int "" = None.
Proof. repeat split. Qed.

Example py_float_forms :
  DataNormalizer.py_float "750" = Some 750
  /\ DataNormalizer.py_float "abc" = None
  /\ (exists x, DataNormalizer.py_float "2.5" = Some x /\ x == 2.5)
  /\ (exists x, DataNormalizer.py_float "1.5E3" = Some x /\ x == 1500).
Proof.
  repeat split; eexists; (split; [vm_compute; reflexivity|reflexivity]).
Qed.

(** ** [Route.add_company] *)

Lemma add_company_no_address (r : Route.t) (c : Company.t) (priority : Z) :
  Company.address c = None -> Route.add_company r c priority = r.
Proof. intros Hnone. unfold Route.add_company. by rewrite Hnone. Qed.

Lemma add_company_with_address (r : Route.t) (c : Company.t) (priority : Z)
    (a : Address.t) :
  Company.address c = Some a ->
  Route.add_company r c priority
  = let companies' :=
      Route.companies r ++
      [CompanyReference.mk (Company.id c) (Company.name c)
         (Address.street a +:+ ", " +:+ Address.city a +:+ ", " +:+
          Address.state a +:+ " " +:+ Address.zip a) priority] in
    Route.mk (Route.day r) companies' (Route.total_distance r)
             (Route.estimated_travel_time r) (seq 0 (length companies')).
Proof. intros Ha. unfold Route.add_company. by rewrite Ha. Qed.

(** C10: [Route.add_company] with a company that has no address leaves
    the route as it was; with a company that has an address it appends
    exactly one reference (built from the company and the priority),
    resets [optimized_order] to [0, ..., len(companies) - 1] whatever it
    was before, and keeps the day, [total_distance] and
    [estimated_travel_time]. *)
Theorem add_company_frame (r : Route.t) (c : Company.t) (priority : Z) :
  (Company.address c = None -> Route.add_company r c priority = r) /\
  (forall a, Company.address c = Some a ->
     let r' := Route.add_company r c priority in
     (exists ref,
        Route.companies r' = Route.companies r ++ [ref] /\
        CompanyReference.company_id ref = Company.id c /\
        CompanyReference.name ref = Company.name c /\
        CompanyReference.priority ref = priority) /\
     Route.optimized_order r' = seq 0 (length (Route.companies r')) /\
     length (Route.companies r') = S (length (Route.companies r)) /\
     Route.day r' = Route.day r /\
     Route.total_distance r' = Route.total_distance r /\
     Route.estimated_travel_time r' = Route.estimated_travel_time r).
Proof.
  split; [apply add_company_no_address|].
  intros a Ha r'. subst r'. rewrite (add_company_with_address r c priority a Ha).
  simpl. repeat split; [eexists; repeat split | rewrite length_app; simpl; lia].
Qed.

Lemma add_company_frame_witness :
  let r := Route.mk "Monday" [] 42 7 [3; 1; 2]%nat in
  Route.add_company r (Samples.bare "x") 0 = r /\
  Route.optimized_order
    (Route.add_company r (Samples.located "y" Samples.milwaukee_address) 0)
  = [0%nat].
Proof.
  intros r.
  pose proof (add_company_frame r (Samples.bare "x") 0) as [Hnone _].
  pose proof (add_company_frame r
                (Samples.located "y" Samples.milwaukee_address) 0) as [_ Hsome].
  split.
  - apply Hnone. reflexivity.
  - destruct (Hsome Samples.milwaukee_address eq_refl) as (_ & Horder & _).
    exact Horder.
Defined.

(** ** The normalizers on the documented inputs *)

(** C8: [normalize_employee_count("10-50") == 30],
    [normalize_employee_count("1,000+") == 1000],
    [normalize_revenue("$1M-$5M") == 3000000.0] and
    [normalize_revenue("$750K") == 750000.0]; the range average is a floor
    division, and the suffixes K, M and B multiply by 1e3, 1e6 and 1e9. *)
Theorem normalizers_documented_values :
  DataNormalizer.normalize_employee_count (DataNormalizer.RawStr "10-50")
    = Some 30%Z /\
  DataNormalizer.normalize_employee_count (DataNormalizer.RawStr "1,000+")
    = Some 1000%Z /\
  (exists x, DataNormalizer.normalize_revenue (DataNormalizer.RawStr "$1M-$5M")
             = Some x /\ x == 3000000) /\
  (exists x, DataNormalizer.normalize_revenue (DataNormalizer.RawStr "$750K")
             = Some x /\ x == 750000) /\
  DataNormalizer.normalize_employee_count (DataNormalizer.RawStr "10-51")
    = Some 30%Z /\
  (exists k m b,
     DataNormalizer.parse_revenue_with_suffix "2K" = Some k /\ k == 2 * 1000 /\
     DataNormalizer.parse_revenue_with_suffix "2M" = Some m
       /\ m == 2 * 1000000 /\
     DataNormalizer.parse_revenue_with_suffix "2B" = Some b
       /\ b == 2 * 1000000000).
Proof.
  repeat split; try reflexivity.
  - eexists; split; [vm_compute; reflexivity | reflexivity].
  - eexists; split; [vm_compute; reflexivity | reflexivity].
  - do 3 eexists. repeat split; vm_compute; reflexivity.
Qed.

(** ** Outreach days *)

Section OutreachDays.
Import LogisticsOptimizer.

Lemma default_rates_lookup :
  default_rates !! "Monday" = Some 0.7 /\
  default_rates !! "Tuesday" = Some 0.9 /\
  default_rates !! "Wednesday" = Some 0.8 /\
  default_rates !! "Thursday" = Some 0.7 /\
  default_rates !! "Friday" = Some 0.5.
Proof. repeat split. Qed.

Lemma default_rates_dom :
  dom default_rates
  = ({[ "Monday"; "Tuesday"; "Wednesday"; "Thursday"; "Friday" ]} : gset string).
Proof. unfold default_rates. rewrite !dom_insert_L, dom_singleton_L. set_solver. Qed.

(** C6, as stated, fails: a caller that supplies the empty dictionary gets
    the default table back, not its own dictionary. *)
Lemma suggest_best_outreach_days_empty_history :
  suggest_best_outreach_days [] (Some ∅) <> ∅.
Proof.
  intros Heq. apply (f_equal (fun m => m !! "Monday")) in Heq.
  vm_compute in Heq. discriminate.
Qed.

(** C6, amended: a supplied, non-empty [historical_data] is returned as it
    is; with no [historical_data], or an empty one, the result is the
    table Monday 0.7, Tuesday 0.9, Wednesday 0.8, Thursday 0.7, Friday 0.5
    (and nothing else), whatever the companies are. *)
Theorem suggest_best_outreach_days_spec (companies : list Company.t) :
  (forall data : gmap string Q,
     data <> ∅ -> suggest_best_outreach_days companies (Some data) = data) /\
  suggest_best_outreach_days companies (Some ∅) = default_rates /\
  suggest_best_outreach_days companies None = default_rates /\
  (default_rates !! "Monday" = Some 0.7 /\
   default_rates !! "Tuesday" = Some 0.9 /\
   default_rates !! "Wednesday" = Some 0.8 /\
   default_rates !! "Thursday" = Some 0.7 /\
   default_rates !! "Friday" = Some 0.5) /\
  dom default_rates
  = ({[ "Monday"; "Tuesday"; "Wednesday"; "Thursday"; "Friday" ]} : gset string).
Proof.
  split; [|split; [|split; [|split]]].
  - intros data Hne. unfold suggest_best_outreach_days.
    destruct (size data =? 0)%nat eqn:Hsize; [|done].
    apply Nat.eqb_eq, map_size_empty_iff in Hsize. done.
  - reflexivity.
  - reflexivity.
  - exact default_rates_lookup.
  - exact default_rates_dom.
Qed.

Lemma suggest_best_outreach_days_spec_witness :
  let data : gmap string Q := {[ "Monday" := 0.1 ]} in
  suggest_best_outreach_days [Samples.bare "x"] (Some data) = data.
Proof.
  intros data.
  apply (proj1 (suggest_best_outreach_days_spec [Samples.bare "x"])).
  intros Heq. apply (f_equal (fun m => m !! "Monday")) in Heq.
  vm_compute in Heq. discriminate.
Defined.

End OutreachDays.

(** ** Route optimisation *)

Section ForEach.
Context {A S : Type}.
Implicit Types (body : S -> A -> option S) (l : list A) (s : S).

(** A loop whose body keeps an invariant, and does not raise while the
    invariant holds, runs to its end and ends in the invariant. *)
Lemma for_each_invariant (I : S -> Prop) body l s :
  (forall s x, I s -> x ∈ l -> exists s', body s x = Some s' /\ I s') ->
  I s ->
  exists s', for_each body l s = Some s' /\ I s'.
Proof.
  revert s. induction l as [|x l IH]; intros s Hbody Hs; simpl.
  - eauto.
  - destruct (Hbody s x Hs) as (s1 & -> & Hs1); [apply list_elem_of_here|].
    simpl. apply IH; [|done].
    intros s2 y Hs2 Hy. apply Hbody; [done|]. by apply list_elem_of_further.
Qed.

End ForEach.

Section Routing.
Import LogisticsOptimizer.

Lemma add_all_cons route c companies :
  add_all route (c :: companies)
  = add_all (Route.add_company route c 0) companies.
Proof. reflexivity. Qed.

Lemma add_all_no_address route companies :
  Forall (fun c => Company.address c = None) companies ->
  add_all route companies = route.
Proof.
  revert route. induction companies as [|c cs IH]; intros route Hall; [done|].
  inversion_clear Hall as [|?? Hc Hcs].
  rewrite add_all_cons, (add_company_no_address route c 0 Hc). by apply IH.
Qed.

Lemma add_all_with_address route companies :
  Forall has_address companies ->
  length (Route.companies (add_all route companies))
  = (length (Route.companies route) + length companies)%nat
  /\ Route.day (add_all route companies) = Route.day route.
Proof.
  revert route. induction companies as [|c cs IH]; intros route Hall.
  - simpl. split; [lia|done].
  - inversion_clear Hall as [|?? [a Ha] Hcs]. rewrite add_all_cons.
    destruct (IH (Route.add_company route c 0) Hcs) as [IHlen IHday].
    rewrite IHlen, IHday, (add_company_with_address route c 0 a Ha).
    simpl. rewrite length_app. simpl. split; [lia|done].
Qed.

Lemma square_replicate n : square n (replicate n (replicate n 0)).
Proof.
  split; [by rewrite length_replicate|].
  apply Forall_replicate. by rewrite length_replicate.
Qed.

Lemma square_row n distances i :
  square n distances -> (i < n)%nat ->
  exists row, distances !! i = Some row /\ length row = n.
Proof.
  intros [Hlen Hrows] Hi.
  destruct (lookup_lt_is_Some_2 distances i) as [row Hrow]; [lia|].
  exists row. split; [done|].
  by apply (Forall_lookup_1 _ _ _ _ Hrows Hrow).
Qed.

Lemma cell_square n distances i j :
  square n distances -> (i < n)%nat -> (j < n)%nat ->
  is_Some (cell distances i j).
Proof.
  intros Hsq Hi Hj. destruct (square_row n distances i Hsq Hi) as (row & Hrow & Hlen).
  unfold cell. rewrite Hrow. simpl. apply lookup_lt_is_Some_2. lia.
Qed.

Lemma set_cell_square n distances i j d :
  square n distances -> (i < n)%nat -> (j < n)%nat ->
  exists distances', set_cell distances i j d = Some distances'
                     /\ square n distances'.
Proof.
  intros Hsq Hi Hj.
  destruct (square_row n distances i Hsq Hi) as (row & Hrow & Hlen).
  unfold set_cell. rewrite Hrow. simpl.
  assert ((j <? length row)%nat = true) as -> by (apply Nat.ltb_lt; lia).
  eexists. split; [done|]. destruct Hsq as [Hn Hrows].
  split; [by rewrite length_insert|].
  apply Forall_insert; [done|]. by rewrite length_insert.
Qed.

Lemma elem_of_range a b i : i ∈ range a b -> (a <= i < b)%nat.
Proof. unfold range. rewrite elem_of_seq. lia. Qed.

Lemma _calculate_distance_matrix_square companies start_location :
  exists distances,
    _calculate_distance_matrix companies start_location = Some distances
    /\ square (S (length companies)) distances.
Proof.
  unfold _calculate_distance_matrix.
  set (addresses := start_location :: map CompanyReference.address companies).
  assert (length addresses = S (length companies)) as Hn
    by (subst addresses; simpl; by rewrite length_map).
  rewrite Hn.
  apply for_each_invariant; [|apply square_replicate].
  intros distances i Hsq [_ Hi]%elem_of_range.
  apply for_each_invariant; [|done].
  intros distances' j Hsq' [_ Hj]%elem_of_range.
  destruct (lookup_lt_is_Some_2 addresses i) as [address_i ->]; [lia|].
  destruct (lookup_lt_is_Some_2 addresses j) as [address_j ->]; [lia|].
  simpl.
  destruct (set_cell_square _ distances' i j
              (_calculate_distance address_i address_j) Hsq' Hi Hj)
    as (d1 & -> & Hsq1).
  simpl. by apply set_cell_square.
Qed.

Lemma min_by_is_Some key best best_key l :
  (forall x, x ∈ l -> is_Some (key x)) -> is_Some (min_by key best best_key l).
Proof.
  revert best best_key. induction l as [|x l IH]; intros best best_key Hkey.
  - by eexists.
  - simpl. destruct (Hkey x) as [k ->]; [apply list_elem_of_here|]. simpl.
    destruct (Qle_bool best_key k); apply IH;
      intros y Hy; apply Hkey; by apply list_elem_of_further.
Qed.

Lemma py_min_is_Some key l :
  l <> [] -> (forall x, x ∈ l -> is_Some (key x)) -> is_Some (py_min key l).
Proof.
  destruct l as [|x l]; [done|]. intros _ Hkey. simpl.
  destruct (Hkey x) as [k ->]; [apply list_elem_of_here|]. simpl.
  apply min_by_is_Some. intros y Hy. apply Hkey. by apply list_elem_of_further.
Qed.

Lemma set_remove_Permutation x l :
  NoDup l -> x ∈ l -> x :: set_remove x l ≡ₚ l.
Proof.
  unfold set_remove. induction 1 as [|y l Hy Hnd IH]; [by intros ?%elem_of_nil|].
  rewrite filter_cons. intros Hx. destruct (decide (y ≠ x)) as [Hne|Heq].
  - apply elem_of_cons in Hx as [->|Hx]; [done|].
    rewrite Permutation_swap. by rewrite IH.
  - assert (y = x) as -> by (by destruct (decide (y = x))).
    f_equiv. clear IH Hx Hnd Heq. induction l as [|z l IH]; [done|].
    apply not_elem_of_cons in Hy as [Hzx Hl]. rewrite filter_cons.
    destruct (decide (z ≠ x)); [|done]. by rewrite IH.
Qed.

(** The greedy loop never raises on a square matrix and in-range indices;
    it appends to the tour a permutation of the unvisited indices. *)
Lemma tsp_loop_spec n distances current unvisited tour :
  square n distances -> (current < n)%nat ->
  Forall (fun x => (x < n)%nat) unvisited -> NoDup unvisited ->
  exists visited,
    tsp_loop distances current unvisited tour = Some (tour ++ visited)
    /\ visited ≡ₚ unvisited.
Proof.
  intros Hsq.
  remember (length unvisited) as len eqn:Hlen.
  revert unvisited Hlen current tour.
  induction len as [len IH] using lt_wf_ind.
  intros unvisited Hlen current tour Hcur Hlt Hnd.
  destruct unvisited as [|u us].
  - exists []. simp tsp_loop. by rewrite app_nil_r.
  - rewrite tsp_loop_equation_2.
    destruct (py_min_is_Some (cell distances current) (u :: us)) as [closest Hmin];
      [done| |].
    { intros x Hx. apply (cell_square n); [done..|].
      by apply (Forall_forall (fun x => (x < n)%nat) (u :: us)). }
    pose proof (py_min_elem _ _ _ Hmin) as Hin.
    assert (closest < n)%nat as Hclosest
      by (by apply (Forall_forall (fun x => (x < n)%nat) (u :: us))).
    generalize (inspect (py_min (cell distances current) (u :: us))).
    intros [[c|] Hr]; [|congruence].
    assert (c = closest) as -> by congruence. simpl.
    destruct (IH (length (set_remove closest (u :: us))))
      with (unvisited := set_remove closest (u :: us))
           (current := closest) (tour := tour ++ [closest])
      as (visited & Hloop & Hperm).
    + rewrite Hlen. by apply set_remove_length.
    + done.
    + done.
    + apply Forall_forall. intros x [_ Hx]%list_elem_of_filter.
      by apply (Forall_forall (fun x => (x < n)%nat) (u :: us)).
    + by apply NoDup_filter.
    + exists (closest :: visited). split.
      * rewrite Hloop. by rewrite <- app_assoc.
      * rewrite Hperm. by apply set_remove_Permutation.
Qed.

Lemma _solve_tsp_greedy_spec n distances :
  square (S n) distances ->
  exists middle,
    _solve_tsp_greedy distances = Some (0%nat :: middle ++ [0%nat])
    /\ middle ≡ₚ seq 1 n.
Proof.
  intros Hsq. unfold _solve_tsp_greedy.
  destruct Hsq as [Hlen Hrows]. rewrite Hlen.
  destruct (tsp_loop_spec (S n) distances 0 (range 1 (S n)) [0%nat])
    as (visited & -> & Hperm).
  - by split.
  - lia.
  - apply Forall_forall. intros x Hx%elem_of_range. lia.
  - apply NoDup_seq.
  - exists visited. split; [done|].
    rewrite Hperm. unfold range. by replace (S n - 1)%nat with n by lia.
Qed.

(** The loop that sums the legs of a tour never raises when every index
    of the tour is a row and a column of the matrix. *)
Lemma total_distance_is_Some n distances (optimized_order : list nat) :
  square n distances ->
  Forall (fun x => (x < n)%nat) optimized_order ->
  is_Some
    (for_each
       (fun total_distance i =>
          from_idx ← optimized_order !! i;
          to_idx ← optimized_order !! (i + 1)%nat;
          d ← cell distances from_idx to_idx;
          Some (total_distance + d))
       (range 0 (length optimized_order - 1)) 0).
Proof.
  intros Hsq Hlt.
  match goal with
  | |- is_Some (for_each ?body ?l ?s) =>
      destruct (for_each_invariant (fun _ => True) body l s)
        as (total & -> & _); [|done|by eexists]
  end.
  intros total i _ Hi%elem_of_range.
  destruct (lookup_lt_is_Some_2 optimized_order i) as [from_idx Hfrom]; [lia|].
  destruct (lookup_lt_is_Some_2 optimized_order (i + 1)) as [to_idx Hto]; [lia|].
  rewrite Hfrom, Hto. simpl.
  destruct (cell_square n distances from_idx to_idx) as [d ->]; [done|..].
  - by apply (Forall_lookup_1 _ _ _ _ Hlt Hfrom).
  - by apply (Forall_lookup_1 _ _ _ _ Hlt Hto).
  - simpl. eauto.
Qed.

(** [optimize_route] on an input of which at least one company has an
    address: it returns a route over those companies whose order is the
    start, a permutation of the company indices, and the start again. *)
Lemma optimize_route_routed first_company rest start_location :
  let route :=
    add_all (Route.new (route_day first_company)) (first_company :: rest) in
  Route.companies route <> [] ->
  exists middle total,
    optimize_route (first_company :: rest) start_location
    = Some (Route.mk (Route.day route) (Route.companies route) total
                     (total / 30) (0%nat :: middle ++ [0%nat]))
    /\ middle ≡ₚ seq 1 (length (Route.companies route)).
Proof.
  intros route Hne. unfold optimize_route. fold (add_all (Route.new (route_day first_company)) (first_company :: rest)).
  fold route. destruct (Route.companies route) as [|ref refs] eqn:Hrefs; [done|].
  rewrite <- Hrefs. clear Hne.
  destruct (_calculate_distance_matrix_square (Route.companies route)
              start_location) as (distances & -> & Hsq).
  cbv [mbind option_bind].
  destruct (_solve_tsp_greedy_spec _ distances Hsq) as (middle & -> & Hperm).
  assert (Forall (fun x => (x < S (length (Route.companies route)))%nat)
                 (0%nat :: middle ++ [0%nat])) as Hlt.
  { apply Forall_cons. split; [lia|]. apply Forall_app. split.
    - rewrite Hperm. apply Forall_forall. intros x Hx%elem_of_seq. lia.
    - apply Forall_singleton. lia. }
  match goal with
  | |- context [for_each ?body ?l ?s] =>
      assert (is_Some (for_each body l s)) as [total Htotal]
        by exact (total_distance_is_Some _ distances _ Hsq Hlt);
      rewrite Htotal
  end.
  by exists middle, total.
Qed.

(** [optimize_route] never raises. *)
Lemma optimize_route_total companies start_location :
  is_Some (optimize_route companies start_location).
Proof.
  destruct companies as [|first_company rest]; [by eexists|].
  destruct (Route.companies
              (add_all (Route.new (route_day first_company))
                       (first_company :: rest))) as [|ref refs] eqn:Hrefs.
  - unfold optimize_route.
    fold (add_all (Route.new (route_day first_company)) (first_company :: rest)).
    rewrite Hrefs. by eexists.
  - destruct (optimize_route_routed first_company rest start_location)
      as (middle & total & -> & _); [by rewrite Hrefs|by eexists].
Qed.

(** C7: on the empty list, and on a list in which no company has an
    address, [optimize_route] does not raise and returns a route with no
    companies, distance 0 and travel time 0 (and an empty order). *)
Theorem optimize_route_unlocated (companies : list Company.t)
    (start_location : string) :
  Forall (fun c => Company.address c = None) companies ->
  exists r,
    optimize_route companies start_location = Some r /\
    Route.companies r = [] /\
    Route.total_distance r = 0 /\
    Route.estimated_travel_time r = 0 /\
    Route.optimized_order r = [].
Proof.
  intros Hall. destruct companies as [|first_company rest].
  - eexists. split; [reflexivity|]. by simpl.
  - unfold optimize_route.
    fold (add_all (Route.new (route_day first_company)) (first_company :: rest)).
    rewrite (add_all_no_address _ _ Hall). simpl. eexists. by split.
Qed.

Lemma optimize_route_unlocated_witness :
  (exists r,
     optimize_route [] "Milwaukee, WI" = Some r /\
     Route.companies r = [] /\ Route.total_distance r = 0 /\
     Route.estimated_travel_time r = 0 /\ Route.optimized_order r = []) /\
  (exists r,
     optimize_route [Samples.bare "a"; Samples.bare "b"] "Milwaukee, WI"
     = Some r /\
     Route.companies r = [] /\ Route.total_distance r = 0 /\
     Route.estimated_travel_time r = 0 /\ Route.optimized_order r = []).
Proof.
  split.
  - apply (optimize_route_unlocated [] "Milwaukee, WI"). constructor.
  - apply (optimize_route_unlocated [Samples.bare "a"; Samples.bare "b"]
             "Milwaukee, WI").
    repeat constructor.
Defined.

(** C3, as stated, fails on the empty input: every company of the empty
    list has an address, and the order of the returned route is empty,
    not of length [0 + 2]. *)
Lemma optimize_route_empty_order :
  Forall has_address [] /\
  exists r,
    optimize_route [] "Milwaukee, WI" = Some r /\
    length (Route.optimized_order r) <> (length (Route.companies r) + 2)%nat /\
    head (Route.optimized_order r) <> Some 0%nat.
Proof.
  split; [constructor|]. eexists. split; [reflexivity|]. by simpl.
Qed.

(** C3, amended: on a non-empty input in which every company has an
    address, [optimize_route] returns a route with one reference per
    company whose [optimized_order] has [len(companies) + 2] entries: it
    begins with 0, ends with 0, and in between visits each of the indices
    [1 .. len(companies)] once. *)
Theorem optimize_route_order (companies : list Company.t)
    (start_location : string) :
  companies <> [] ->
  Forall has_address companies ->
  exists r,
    optimize_route companies start_location = Some r /\
    length (Route.companies r) = length companies /\
    length (Route.optimized_order r) = (length (Route.companies r) + 2)%nat /\
    head (Route.optimized_order r) = Some 0%nat /\
    last (Route.optimized_order r) = Some 0%nat /\
    exists middle,
      Route.optimized_order r = 0%nat :: middle ++ [0%nat] /\
      middle ≡ₚ seq 1 (length (Route.companies r)).
Proof.
  intros Hne Hall. destruct companies as [|first_company rest]; [done|].
  pose proof (add_all_with_address (Route.new (route_day first_company))
                (first_company :: rest) Hall) as [Hlen _].
  pose proof (optimize_route_routed first_company rest start_location)
    as Hrouted.
  cbv zeta in Hrouted.
  set (route := add_all (Route.new (route_day first_company))
                        (first_company :: rest)) in *.
  change (length (Route.companies (Route.new (route_day first_company))))
    with 0%nat in Hlen.
  destruct Hrouted as (middle & total & -> & Hperm).
  { intros Hnil. rewrite Hnil in Hlen. simpl in Hlen. lia. }
  eexists. split; [reflexivity|].
  cbn [Route.companies Route.optimized_order].
  split; [by rewrite Hlen|].
  split; [|split; [done|split; [|eauto]]].
  - cbn [length]. rewrite length_app, (Permutation_length Hperm), length_seq.
    cbn [length]. lia.
  - change (0%nat :: middle ++ [0%nat]) with ([0%nat] ++ middle ++ [0%nat]).
    by rewrite !last_app.
Qed.

(** The input of the component test: two companies with addresses. *)
Example optimize_route_two_companies :
  exists r,
    optimize_route [Samples.located "company1" Samples.milwaukee_address;
                    Samples.located "company2" Samples.madison_address]
                   "Milwaukee, WI" = Some r /\
    Route.day r = "Monday" /\
    length (Route.companies r) = 2%nat /\
    Route.optimized_order r = [0; 1; 2; 0]%nat /\
    Route.total_distance r == 30 /\
    Route.estimated_travel_time r == 1.
Proof. eexists. split; [vm_compute; reflexivity|]. by repeat split. Qed.

Lemma optimize_route_order_witness :
  exists r,
    optimize_route [Samples.located "a" Samples.milwaukee_address;
                    Samples.located "b" Samples.madison_address]
                   "Milwaukee, WI" = Some r /\
    length (Route.companies r) = 2%nat /\
    length (Route.optimized_order r) = (length (Route.companies r) + 2)%nat /\
    head (Route.optimized_order r) = Some 0%nat /\
    last (Route.optimized_order r) = Some 0%nat /\
    exists middle,
      Route.optimized_order r = 0%nat :: middle ++ [0%nat] /\
      middle ≡ₚ seq 1 (length (Route.companies r)).
Proof.
  apply (optimize_route_order
           [Samples.located "a" Samples.milwaukee_address;
            Samples.located "b" Samples.madison_address] "Milwaukee, WI").
  - discriminate.
  - repeat constructor; by eexists.
Defined.

End Routing.

(** ** Tax-saving potential *)

Section TaxPotential.
Import SimilarityScorer.

Lemma tax_weighted_score_eq (c : Company.t) :
  tax_weighted_score c
  = (0 + _score_growth_rate c * 0.30
       + _score_hiring_expansion c * 0.20
       + _score_equipment_upgrades c * 0.20
       + _score_succession_planning c * 0.15
       + _score_government_contracts c * 0.15)%float.
Proof. reflexivity. Qed.

Ltac in_values :=
  repeat first [apply list_elem_of_here | apply list_elem_of_further].

Lemma _score_growth_rate_values c : _score_growth_rate c ∈ growth_values.
Proof. unfold _score_growth_rate. repeat case_match; in_values. Qed.

Lemma _score_hiring_expansion_values c :
  _score_hiring_expansion c ∈ hiring_values.
Proof. unfold _score_hiring_expansion. repeat case_match; in_values. Qed.

Lemma _score_equipment_upgrades_values c :
  _score_equipment_upgrades c ∈ equipment_values.
Proof. unfold _score_equipment_upgrades. repeat case_match; in_values. Qed.

Lemma _score_succession_planning_values c :
  _score_succession_planning c ∈ succession_values.
Proof. unfold _score_succession_planning. repeat case_match; in_values. Qed.

Lemma _score_government_contracts_values c :
  _score_government_contracts c ∈ government_values.
Proof. unfold _score_government_contracts. repeat case_match; in_values. Qed.

Lemma tax_weighted_score_values c : tax_weighted_score c ∈ tax_weighted_values.
Proof.
  rewrite tax_weighted_score_eq. unfold tax_weighted_values.
  apply list_elem_of_bind. eexists. split; [|apply _score_growth_rate_values].
  apply list_elem_of_bind. eexists. split; [|apply _score_hiring_expansion_values].
  apply list_elem_of_bind. eexists.
  split; [|apply _score_equipment_upgrades_values].
  apply list_elem_of_bind. eexists.
  split; [|apply _score_succession_planning_values].
  apply list_elem_of_bind. eexists.
  split; [|apply _score_government_contracts_values].
  apply list_elem_of_here.
Qed.

(** Checked on each of the 1600 possible sums. *)
Lemma tax_weighted_values_coherent :
  forallb thresholds_coherent tax_weighted_values = true.
Proof. vm_compute. reflexivity. Qed.

Lemma tax_weighted_score_coherent c :
  let w := tax_weighted_score c in
  (w <? 0.7)%float = negb (0.7 <=? w)%float /\
  (w <? 0.4)%float = negb (0.4 <=? w)%float /\
  ((0.7 <=? w)%float = true -> (0.4 <=? w)%float = true).
Proof.
  intros w.
  pose proof (proj1 (forallb_forall thresholds_coherent tax_weighted_values)
                tax_weighted_values_coherent w) as Hw.
  unfold thresholds_coherent in Hw.
  rewrite !andb_true_iff, !Bool.eqb_true_iff, implb_true_iff in Hw.
  destruct Hw as [[H7 H4] Himp];
    [apply list_elem_of_In, tax_weighted_score_values|done].
Qed.

(** The classification of a weighted score. *)
Lemma score_tax_saving_potential_thresholds (c : Company.t) :
  let w := tax_weighted_score c in
  (score_tax_saving_potential c = HIGH <-> (0.7 <=? w)%float = true) /\
  (score_tax_saving_potential c = MEDIUM
   <-> (0.4 <=? w)%float = true /\ (w <? 0.7)%float = true) /\
  (score_tax_saving_potential c = LOW <-> (w <? 0.4)%float = true).
Proof.
  intros w. destruct (tax_weighted_score_coherent c) as (H7 & H4 & Himp).
  fold w in H7, H4, Himp. unfold score_tax_saving_potential. cbv zeta. fold w.
  rewrite H7, H4.
  destruct (0.7 <=? w)%float eqn:Hhigh.
  - rewrite (Himp eq_refl). simpl. repeat split; try done. by intros [_ ?].
  - destruct (0.4 <=? w)%float; simpl; repeat split; try done. by intros [? _].
Qed.

(** C5: [score_tax_saving_potential] is HIGH exactly when the weighted
    sum of the five indicator scores (weights 0.30, 0.20, 0.20, 0.15 and
    0.15), as the source computes it, is at least 0.7, MEDIUM exactly when
    it is at least 0.4 and below 0.7, and LOW otherwise; a company with
    growth rate 20, payroll trends "significant hiring", capex trends
    "major investment in new facility", succession planning "owner
    retirement succession plan" and government contracts "major federal
    contract award" has all five indicator scores equal to 1.0 and is
    HIGH. *)
Theorem tax_saving_potential_classes :
  (forall c : Company.t,
     let w := tax_weighted_score c in
     w = (0 + _score_growth_rate c * 0.30
            + _score_hiring_expansion c * 0.20
            + _score_equipment_upgrades c * 0.20
            + _score_succession_planning c * 0.15
            + _score_government_contracts c * 0.15)%float /\
     (score_tax_saving_potential c = HIGH <-> (0.7 <=? w)%float = true) /\
     (score_tax_saving_potential c = MEDIUM
      <-> (0.4 <=? w)%float = true /\ (w <? 0.7)%float = true) /\
     (score_tax_saving_potential c = LOW <-> (w <? 0.4)%float = true)) /\
  (forall (c : Company.t) (f : Financials.t) (t : TaxIndicators.t) (g : Q),
     Company.financials c = Some f ->
     Company.tax_indicators c = Some t ->
     Financials.growth_rate f = Some g -> g == 20 ->
     Financials.payroll_trends f = Some "significant hiring" ->
     Financials.capex_trends f = Some "major investment in new facility" ->
     TaxIndicators.succession_planning t
       = Some "owner retirement succession plan" ->
     TaxIndicators.government_contracts t
       = Some "major federal contract award" ->
     _score_growth_rate c = 1.0%float /\
     _score_hiring_expansion c = 1.0%float /\
     _score_equipment_upgrades c = 1.0%float /\
     _score_succession_planning c = 1.0%float /\
     _score_government_contracts c = 1.0%float /\
     tax_weighted_score c = 1.0%float /\
     score_tax_saving_potential c = HIGH).
Proof.
  split.
  - intros c w. split; [apply tax_weighted_score_eq|].
    apply score_tax_saving_potential_thresholds.
  - intros c f t g Hf Ht Hg Hg20 Hpayroll Hcapex Hsucc Hgov.
    assert (_score_growth_rate c = 1.0%float) as Hs1.
    { unfold _score_growth_rate. rewrite Hf, Hg.
      assert (Qle_bool 15 g = true) as ->; [|done].
      apply Qle_bool_iff. by rewrite Hg20. }
    assert (_score_hiring_expansion c = 1.0%float) as Hs2
      by (unfold _score_hiring_expansion; by rewrite Hf, Hpayroll).
    assert (_score_equipment_upgrades c = 1.0%float) as Hs3
      by (unfold _score_equipment_upgrades; by rewrite Hf, Hcapex).
    assert (_score_succession_planning c = 1.0%float) as Hs4
      by (unfold _score_succession_planning; by rewrite Ht, Hsucc).
    assert (_score_government_contracts c = 1.0%float) as Hs5
      by (unfold _score_government_contracts; by rewrite Ht, Hgov).
    assert (tax_weighted_score c = 1.0%float) as Hw
      by (rewrite tax_weighted_score_eq, Hs1, Hs2, Hs3, Hs4, Hs5;
          vm_compute; reflexivity).
    repeat split; try done.
    apply score_tax_saving_potential_thresholds. by rewrite Hw.
Qed.

Lemma tax_saving_potential_classes_witness :
  score_tax_saving_potential Samples.growing_company = HIGH.
Proof.
  destruct tax_saving_potential_classes as [_ Hscenario].
  refine (proj2 (proj2 (proj2 (proj2 (proj2 (proj2
    (Hscenario Samples.growing_company _ _ 20
       eq_refl eq_refl eq_refl _ eq_refl eq_refl eq_refl eq_refl))))))).
  reflexivity.
Defined.

(** The sum is the binary64 one: with indicator scores 0.5, 0.5, 0.3, 0.3
    and 0.3 the decimal values add up to 0.4, the computed sum is just
    below it, and the company is LOW. *)
Remark tax_weighted_score_rounding :
  (tax_weighted_score Samples.borderline_company <? 0.4)%float = true /\
  score_tax_saving_potential Samples.borderline_company = LOW /\
  0.5 * 0.30 + 0.5 * 0.20 + 0.3 * 0.20 + 0.3 * 0.15 + 0.3 * 0.15 == 0.4.
Proof. repeat split. Qed.

End TaxPotential.

(** ** Company similarity *)

Section Similarity.
Import SimilarityScorer PyStr.

(** [numpy.log10], of which the proofs use one property at most: it is
    positive from 10 on. *)
Variable log10 : Q -> Q.

Lemma bool_decide_eq_sym {A : Type} `{EqDecision A} (x y : A) :
  bool_decide (x = y) = bool_decide (y = x).
Proof. by apply bool_decide_ext. Qed.

Lemma codes_match_sym a b : codes_match a b = codes_match b a.
Proof.
  unfold codes_match.
  by rewrite (andb_comm (opt_truthy a)), (bool_decide_eq_sym a b).
Qed.

Lemma score_company_similarity_eq (reference target : Company.t) :
  score_company_similarity log10 reference target
  == 0.35 * _score_industry_similarity reference target
     + 0.25 * _score_size_similarity log10 reference target
     + 0.20 * _score_location_similarity reference target
     + 0.10 * _score_legal_structure_similarity reference target
     + 0.10 * _score_growth_similarity reference target.
Proof.
  unfold score_company_similarity, weighted_sum. cbn [foldl fst snd].
  change (similarity_weights !!! "industry") with 0.35.
  change (similarity_weights !!! "size") with 0.25.
  change (similarity_weights !!! "location") with 0.20.
  change (similarity_weights !!! "legal_structure") with 0.10.
  change (similarity_weights !!! "growth") with 0.10.
  ring.
Qed.

(** *** Symmetry of the five sub-scores *)

Lemma _score_industry_similarity_sym c1 c2 :
  _score_industry_similarity c1 c2 = _score_industry_similarity c2 c1.
Proof.
  unfold _score_industry_similarity.
  destruct (Company.industry c1) as [i1|], (Company.industry c2) as [i2|];
    try done.
  cbv zeta.
  rewrite (String.eqb_sym (Industry.primary i2)).
  rewrite (codes_match_sym (Industry.naics_code i2)).
  rewrite (codes_match_sym (Industry.sic_code i2)).
  rewrite (andb_comm (opt_truthy (Industry.naics_code i2))).
  rewrite (String.eqb_sym (take 2 (default "" (Industry.naics_code i2)))).
  rewrite (bool_decide_eq_sym (first (default "" (Industry.naics_code i2)))).
  rewrite (andb_comm (set_truthy (list_to_set (Industry.subcategories i2)))).
  rewrite (comm_L (∩) (list_to_set (Industry.subcategories i2) : gset string)).
  rewrite (Nat.max_comm (size (list_to_set (Industry.subcategories i2)
                               : gset string))).
  reflexivity.
Qed.

Lemma _score_size_similarity_sym c1 c2 :
  _score_size_similarity log10 c1 c2 == _score_size_similarity log10 c2 c1.
Proof.
  unfold _score_size_similarity.
  destruct (Company.financials c1) as [f1|], (Company.financials c2) as [f2|];
    try reflexivity.
  cbv zeta.
  assert (forall a b, Qmin a b / Qmax a b == Qmin b a / Qmax b a) as Hratio
    by (intros a b; by rewrite (Q.min_comm a b), (Q.max_comm a b)).
  destruct (Financials.employee_count f1), (Financials.employee_count f2),
           (Financials.estimated_revenue f1), (Financials.estimated_revenue f2);
    try reflexivity;
    repeat match goal with
           | |- context [Qmin ?a ?b / Qmax ?a ?b] =>
               lazymatch goal with
               | |- context [Qmin b a / Qmax b a] =>
                   rewrite (Hratio a b)
               end
           end; reflexivity.
Qed.

Lemma _score_location_similarity_sym c1 c2 :
  _score_location_similarity c1 c2 = _score_location_similarity c2 c1.
Proof.
  unfold _score_location_similarity.
  destruct (Company.address c1) as [a1|], (Company.address c2) as [a2|];
    try done.
  cbv zeta.
  rewrite (String.eqb_sym (Address.street a2)).
  rewrite (String.eqb_sym (Address.city a2)).
  rewrite (String.eqb_sym (Address.state a2)).
  rewrite (String.eqb_sym (take 3 (Address.zip a2))).
  destruct (Address.state a1 =? Address.state a2)%string; [|done].
  by destruct (truthy (Address.zip a1)), (truthy (Address.zip a2)).
Qed.

Lemma _score_legal_structure_similarity_sym c1 c2 :
  _score_legal_structure_similarity c1 c2
  = _score_legal_structure_similarity c2 c1.
Proof.
  unfold _score_legal_structure_similarity.
  destruct (Company.legal_structure c1) as [l1|],
           (Company.legal_structure c2) as [l2|]; try done.
  rewrite (bool_decide_eq_sym l2 l1).
  rewrite (andb_comm (bool_decide (LegalStructure_value l2 ∈ corp_types))).
  by rewrite (andb_comm (bool_decide (LegalStructure_value l2
                                      ∈ owner_operated_types))).
Qed.

Lemma _score_growth_similarity_sym c1 c2 :
  _score_growth_similarity c1 c2 = _score_growth_similarity c2 c1.
Proof.
  unfold _score_growth_similarity.
  destruct (Company.financials c1) as [f1|], (Company.financials c2) as [f2|];
    try done.
  destruct (Financials.growth_rate f1) as [g1|],
           (Financials.growth_rate f2) as [g2|]; try done.
  cbv zeta. by rewrite (Qabs_Qminus g2 g1).
Qed.

(** C2: [score_company_similarity(A, B) == score_company_similarity(B, A)]
    for all companies, because each of the five sub-scores (industry,
    size, location, legal structure, growth) is symmetric. *)
Theorem score_company_similarity_sym (A B : Company.t) :
  _score_industry_similarity A B = _score_industry_similarity B A /\
  _score_size_similarity log10 A B == _score_size_similarity log10 B A /\
  _score_location_similarity A B = _score_location_similarity B A /\
  _score_legal_structure_similarity A B
    = _score_legal_structure_similarity B A /\
  _score_growth_similarity A B = _score_growth_similarity B A /\
  score_company_similarity log10 A B == score_company_similarity log10 B A.
Proof.
  repeat split.
  - apply _score_industry_similarity_sym.
  - apply _score_size_similarity_sym.
  - apply _score_location_similarity_sym.
  - apply _score_legal_structure_similarity_sym.
  - apply _score_growth_similarity_sym.
  - rewrite !score_company_similarity_eq.
    rewrite (_score_industry_similarity_sym A B),
            (_score_size_similarity_sym A B),
            (_score_location_similarity_sym A B),
            (_score_legal_structure_similarity_sym A B),
            (_score_growth_similarity_sym A B).
    reflexivity.
Qed.

(** *** Self-similarity *)

Hypothesis log10_pos : forall x, 10 <= x -> 0 < log10 x.

Lemma log_ratio_self (x : Q) :
  10 <= x -> Qmin (log10 x) (log10 x) / Qmax (log10 x) (log10 x) == 1.
Proof.
  intros Hx. rewrite Q.min_id, Q.max_id.
  apply Qmult_inv_r. intros Hzero. apply log10_pos in Hx.
  rewrite Hzero in Hx. by apply Qlt_irrefl in Hx.
Qed.

(** C1: for a company [A] with industry, address, legal structure and
    financials carrying employee count, revenue and growth rate, each of
    the five sub-scores of [A] against itself is 1.0, the weights 0.35,
    0.25, 0.20, 0.10 and 0.10 add up to 1, and
    [score_company_similarity(A, A)] is 1.0. *)
Theorem score_company_similarity_self (A : Company.t) :
  fully_populated A ->
  _score_industry_similarity A A == 1.0 /\
  _score_size_similarity log10 A A == 1.0 /\
  _score_location_similarity A A == 1.0 /\
  _score_legal_structure_similarity A A == 1.0 /\
  _score_growth_similarity A A == 1.0 /\
  (similarity_weights !!! "industry") + (similarity_weights !!! "size")
  + (similarity_weights !!! "location")
  + (similarity_weights !!! "legal_structure")
  + (similarity_weights !!! "growth") == 1.0 /\
  score_company_similarity log10 A A == 1.0.
Proof.
  intros ([i Hi] & [a Ha] & [l Hl] & f & Hf & [e He] & [r Hr] & [g Hg]).
  assert (_score_industry_similarity A A == 1.0) as H1.
  { unfold _score_industry_similarity. rewrite Hi.
    by rewrite String.eqb_refl. }
  assert (_score_size_similarity log10 A A == 1.0) as H2.
  { unfold _score_size_similarity. rewrite Hf, He, Hr. cbv zeta.
    rewrite !log_ratio_self; [done| |].
    - eapply Qle_trans; [|apply Q.le_max_l]. done.
    - change (inject_Z 10 <= inject_Z (Z.max 10 e)).
      rewrite <- Zle_Qle. apply Z.le_max_l. }
  assert (_score_location_similarity A A == 1.0) as H3.
  { unfold _score_location_similarity. rewrite Ha. cbv zeta.
    by rewrite !String.eqb_refl. }
  assert (_score_legal_structure_similarity A A == 1.0) as H4.
  { unfold _score_legal_structure_similarity. rewrite Hl.
    by rewrite bool_decide_eq_true_2. }
  assert (_score_growth_similarity A A == 1.0) as H5.
  { unfold _score_growth_similarity. rewrite Hf, Hg. cbv zeta.
    assert (Qle_bool (Qabs (g - g)) 2 = true) as ->; [|done].
    apply Qle_bool_iff. assert (g - g == 0) as -> by ring. done. }
  repeat split; try done.
  rewrite score_company_similarity_eq, H1, H2, H3, H4, H5. done.
Qed.

(** In binary64 too the sums of C1 are exact: the weighted sum of five
    scores 1.0, and the size score 0.6 * 1.0 + 0.4 * 1.0, are 1.0. *)
Remark self_similarity_binary64 :
  ((0 + 1.0 * 0.35 + 1.0 * 0.25 + 1.0 * 0.20 + 1.0 * 0.10 + 1.0 * 0.10 =? 1.0)
   && (0.6 * 1.0 + 0.4 * 1.0 =? 1.0))%float = true.
Proof. reflexivity. Qed.

End Similarity.

Lemma coarse_log10_pos (x : Q) : 10 <= x -> 0 < Samples.coarse_log10 x.
Proof.
  intros _. unfold Samples.coarse_log10.
  eapply Qlt_le_trans; [|apply Q.le_max_l]. done.
Qed.

Lemma score_company_similarity_sym_witness :
  SimilarityScorer.score_company_similarity Samples.coarse_log10
    Samples.full_company (Samples.located "b" Samples.madison_address)
  == SimilarityScorer.score_company_similarity Samples.coarse_log10
       (Samples.located "b" Samples.madison_address) Samples.full_company.
Proof.
  apply (score_company_similarity_sym Samples.coarse_log10
           Samples.full_company (Samples.located "b" Samples.madison_address)).
Defined.

Lemma score_company_similarity_self_witness :
  fully_populated Samples.full_company /\
  SimilarityScorer.score_company_similarity Samples.coarse_log10
    Samples.full_company Samples.full_company == 1.0.
Proof.
  assert (fully_populated Samples.full_company) as Hfull.
  { split; [by eexists|split; [by eexists|split; [by eexists|]]].
    exists Samples.steady_financials.
    split; [reflexivity|]. repeat split; by eexists. }
  split; [exact Hfull|].
  apply (score_company_similarity_self Samples.coarse_log10 coarse_log10_pos
           Samples.full_company Hfull).
Defined.

(** ** Day assignment *)

Section DayAssignment.
Import LogisticsOptimizer.

Lemma assign_step_skip schedule days c :
  has_city c = false -> assign_step schedule days c = Some days.
Proof.
  unfold has_city, assign_step.
  destruct (Company.address c) as [a|]; [|done]. by intros ->.
Qed.

Lemma assign_step_append schedule days c :
  has_city c = true ->
  assign_step schedule days c = append_to days (day_of schedule c) c.
Proof.
  unfold has_city, assign_step, day_of.
  destruct (Company.address c) as [a|]; [|done]. intros ->. simpl.
  by destruct (matching_day schedule (PyStr.lower (Address.city a))).
Qed.

Lemma matching_day_key schedule company_city d :
  matching_day schedule company_city = Some d -> d ∈ schedule.*1.
Proof.
  unfold matching_day.
  destruct (List.find _ schedule) as [entry|] eqn:Hfind; [|done].
  intros [= <-]. apply find_some in Hfind as [Hin _].
  apply list_elem_of_fmap. exists entry. split; [done|].
  by apply list_elem_of_In.
Qed.

Lemma day_of_key schedule c :
  "Thursday" ∈ schedule.*1 -> day_of schedule c ∈ schedule.*1.
Proof.
  intros Hthu. unfold day_of. destruct (Company.address c) as [a|]; [|done].
  destruct (matching_day schedule (PyStr.lower (Address.city a))) as [d|] eqn:Hd;
    [|done].
  by apply matching_day_key in Hd.
Qed.

(** The loop of [assign_companies_to_days] from any dictionary that has
    the days of the schedule as keys: it does not raise, and it extends
    the list of each day by the companies assigned to that day, in input
    order. *)
Lemma assign_loop schedule companies (days0 : gmap string (list Company.t)) :
  "Thursday" ∈ schedule.*1 ->
  (forall d, d ∈ schedule.*1 -> is_Some (days0 !! d)) ->
  exists days,
    for_each (assign_step schedule) companies days0 = Some days /\
    forall d,
      days !! d
      = (fun l => l ++ filter (assigned_to schedule d) companies)
          <$> (days0 !! d).
Proof.
  intros Hthu. revert days0.
  induction companies as [|c cs IH]; intros days0 Hkeys.
  - exists days0. split; [done|]. intros d.
    destruct (days0 !! d); simpl; [|done]. by rewrite app_nil_r.
  - simpl. destruct (has_city c) eqn:Hcity.
    + rewrite (assign_step_append _ _ _ Hcity). unfold append_to.
      destruct (Hkeys (day_of schedule c)) as [l Hl]; [by apply day_of_key|].
      rewrite Hl. simpl.
      destruct (IH (<[day_of schedule c := l ++ [c]]> days0))
        as (days & -> & Hdays).
      { intros d Hd. destruct (decide (day_of schedule c = d)) as [->|Hne].
        - rewrite lookup_insert_eq. by eexists.
        - rewrite lookup_insert_ne by done. by apply Hkeys. }
      exists days. split; [done|]. intros d. rewrite Hdays.
      destruct (decide (day_of schedule c = d)) as [<-|Hne].
      * rewrite lookup_insert_eq, Hl. simpl.
        rewrite filter_cons_True by done. by rewrite <- app_assoc.
      * rewrite lookup_insert_ne by done.
        rewrite (filter_cons_False _ c); [done|]. by intros [_ ?].
    + rewrite (assign_step_skip _ _ _ Hcity). simpl.
      destruct (IH days0 Hkeys) as (days & -> & Hdays).
      exists days. split; [done|]. intros d. rewrite Hdays.
      rewrite (filter_cons_False _ c); [done|]. intros [? _]. congruence.
Qed.

Lemma get_location_schedule_keys cls :
  (Config.get_location_schedule cls).*1
  = ["Monday"; "Tuesday"; "Wednesday"; "Thursday"; "Friday"].
Proof. reflexivity. Qed.

(** [assign_companies_to_days] on a configured schedule: the list of each
    weekday is the sub-list of the input assigned to it, and there is no
    other key. *)
Lemma assign_companies_to_days_lookup cls companies :
  let schedule := Config.get_location_schedule cls in
  exists days,
    assign_companies_to_days schedule companies = Some days /\
    forall d,
      days !! d
      = if bool_decide (d ∈ schedule.*1)
        then Some (filter (assigned_to schedule d) companies)
        else None.
Proof.
  intros schedule. unfold assign_companies_to_days.
  set (days0 := list_to_map (map (fun entry => (entry.1, [])) schedule)
                : gmap string (list Company.t)).
  assert (forall d, days0 !! d
                    = if bool_decide (d ∈ schedule.*1) then Some [] else None)
    as Hdays0.
  { intros d. subst days0 schedule. rewrite get_location_schedule_keys.
    change (list_to_map _) with
      (<["Monday" := []]> (<["Tuesday" := []]> (<["Wednesday" := []]>
        (<["Thursday" := []]> (<["Friday" := []]>
          (∅ : gmap string (list Company.t))))))).
    repeat (rewrite lookup_insert; case_decide; [subst d; reflexivity|]).
    rewrite lookup_empty, bool_decide_eq_false_2; [done|].
    rewrite !elem_of_cons, elem_of_nil.
    intros [->|[->|[->|[->|[->|[]]]]]]; congruence. }
  destruct (assign_loop schedule companies days0) as (days & -> & Hdays).
  - subst schedule. rewrite get_location_schedule_keys.
    rewrite !elem_of_cons. auto.
  - intros d Hd. rewrite Hdays0, bool_decide_eq_true_2 by done. by eexists.
  - exists days. split; [done|]. intros d. rewrite Hdays, Hdays0.
    by case_bool_decide.
Qed.

Lemma existsb_false {A : Type} (f : A -> bool) (l : list A) :
  (forall x, x ∈ l -> f x = false) -> existsb f l = false.
Proof.
  intros Hall. destruct (existsb f l) eqn:Hex; [|done].
  apply existsb_exists in Hex as (x & Hin%list_elem_of_In & Hx).
  rewrite (Hall x Hin) in Hx. discriminate.
Qed.

Lemma matches_no_region_day cls c address :
  Company.address c = Some address ->
  matches_no_region cls c ->
  matching_day (Config.get_location_schedule cls)
               (PyStr.lower (Address.city address)) = None.
Proof.
  intros Ha Hno.
  assert (forall l,
            l ⊆ Config.MONDAY_LOCATIONS cls ++ Config.TUESDAY_LOCATIONS cls
                ++ Config.WEDNESDAY_LOCATIONS cls ->
            existsb (region_matches (PyStr.lower (Address.city address))) l
            = false) as Hlist.
  { intros l Hl. apply existsb_false. intros region Hregion.
    destruct (Hno address region Ha (Hl _ Hregion)) as [H1 H2].
    unfold region_matches. cbv zeta. by rewrite H1, H2. }
  unfold matching_day, Config.get_location_schedule. cbn [List.find day_matches snd].
  rewrite !Hlist; [done|..].
  - intros x Hx. rewrite !elem_of_app. auto.
  - intros x Hx. rewrite !elem_of_app. auto.
  - intros x Hx. rewrite !elem_of_app. auto.
Qed.

(** C4, as stated, fails: a company without an address is in the input
    and in no day's list. *)
Lemma assign_companies_to_days_unaddressed :
  Samples.bare "x" ∈ [Samples.bare "x"] /\
  exists days,
    assign_companies_to_days (Config.get_location_schedule Config.defaults)
                             [Samples.bare "x"] = Some days /\
    forall d l, days !! d = Some l -> Samples.bare "x" ∉ l.
Proof.
  split; [apply list_elem_of_here|].
  destruct (assign_companies_to_days_lookup Config.defaults [Samples.bare "x"])
    as (days & Hdays & Hlookup).
  exists days. split; [exact Hdays|]. intros d l. rewrite Hlookup.
  case_bool_decide; [|done]. intros [= <-].
  rewrite filter_cons_False; [apply not_elem_of_nil|].
  by intros [? _].
Qed.

(** C4, amended: on a configured schedule [assign_companies_to_days] does
    not raise; a company that passes the guard of the loop (it has an
    address with a non-empty city) and matches no configured region name
    is put in the Thursday list; every input company that passes the guard
    is in the list of exactly one day; a company that does not pass the
    guard is in no list. *)
Theorem assign_companies_to_days_partition (cls : Config.t)
    (companies : list Company.t) :
  exists days,
    assign_companies_to_days (Config.get_location_schedule cls) companies
    = Some days /\
    (forall c, c ∈ companies -> has_city c = true ->
       matches_no_region cls c ->
       exists l, days !! "Thursday" = Some l /\ c ∈ l) /\
    (forall c, c ∈ companies -> has_city c = true ->
       exists d l, days !! d = Some l /\ c ∈ l /\
         forall d' l', days !! d' = Some l' -> c ∈ l' -> d' = d) /\
    (forall c, has_city c = false ->
       forall d l, days !! d = Some l -> c ∉ l).
Proof.
  destruct (assign_companies_to_days_lookup cls companies)
    as (days & Hdays & Hlookup).
  cbv zeta in Hlookup.
  set (schedule := Config.get_location_schedule cls) in *.
  assert ("Thursday" ∈ schedule.*1) as Hthu.
  { subst schedule. rewrite get_location_schedule_keys.
    rewrite !elem_of_cons. auto. }
  assert (forall c, c ∈ companies -> has_city c = true ->
            days !! day_of schedule c
            = Some (filter (assigned_to schedule (day_of schedule c)) companies)
            /\ c ∈ filter (assigned_to schedule (day_of schedule c)) companies)
    as Hplaced.
  { intros c Hc Hcity. split.
    - rewrite Hlookup, bool_decide_eq_true_2; [done|]. by apply day_of_key.
    - apply list_elem_of_filter. by split. }
  exists days. split; [exact Hdays|]. split; [|split].
  - intros c Hc Hcity Hno. destruct (Hplaced c Hc Hcity) as [Hday Hin].
    assert (day_of schedule c = "Thursday") as Hthursday.
    { unfold day_of. destruct (Company.address c) as [a|] eqn:Ha; [|done].
      subst schedule. by rewrite (matches_no_region_day cls c a Ha Hno). }
    rewrite Hthursday in Hday, Hin. eauto.
  - intros c Hc Hcity. destruct (Hplaced c Hc Hcity) as [Hday Hin].
    eexists (day_of schedule c), _. split; [exact Hday|]. split; [exact Hin|].
    intros d' l'. rewrite Hlookup. case_bool_decide; [|done].
    intros [= <-] [[_ Hd'] _]%list_elem_of_filter. done.
  - intros c Hcity d l. rewrite Hlookup. case_bool_decide; [|done].
    intros [= <-] [[Hc _] _]%list_elem_of_filter. congruence.
Qed.

Lemma assign_companies_to_days_partition_witness :
  exists days,
    assign_companies_to_days (Config.get_location_schedule Config.defaults)
      [Samples.located "s" Samples.springfield_address; Samples.bare "x"]
    = Some days /\
    (exists l, days !! "Thursday" = Some l
               /\ Samples.located "s" Samples.springfield_address ∈ l) /\
    (forall d l, days !! d = Some l -> Samples.bare "x" ∉ l).
Proof.
  destruct (assign_companies_to_days_partition Config.defaults
              [Samples.located "s" Samples.springfield_address;
               Samples.bare "x"])
    as (days & Hdays & Hthursday & _ & Hskipped).
  exists days. split; [exact Hdays|]. split.
  - apply Hthursday; [apply list_elem_of_here|reflexivity|].
    intros address region [= <-] Hregion.
    cbn [Config.MONDAY_LOCATIONS Config.TUESDAY_LOCATIONS
         Config.WEDNESDAY_LOCATIONS Config.defaults app] in Hregion.
    rewrite !elem_of_cons, elem_of_nil in Hregion.
    destruct Hregion as [->|[->|[->|[->|[->|[->|[->|[->|[]]]]]]]]];
      split; reflexivity.
  - apply Hskipped. reflexivity.
Defined.

End DayAssignment.

(** ** Clustering *)

Section Clustering.
Import LogisticsOptimizer.

Lemma concat_snd_Permutation {K A : Type} (l1 l2 : list (K * list A)) :
  l1 ≡ₚ l2 -> concat l1.*2 ≡ₚ concat l2.*2.
Proof.
  induction 1 as [|x l1 l2 _ IH|x y l|l1 l2 l3 _ IH1 _ IH2]; simpl.
  - done.
  - by rewrite IH.
  - rewrite !app_assoc. f_equiv. apply Permutation_app_comm.
  - by rewrite IH1.
Qed.

Lemma members_insert_fresh clusters region (bucket : list Company.t) :
  clusters !! region = None ->
  members (<[region := bucket]> clusters) ≡ₚ members clusters ++ bucket.
Proof.
  intros Hnone. unfold members.
  rewrite (concat_snd_Permutation _ _ (map_to_list_insert _ _ bucket Hnone)).
  simpl. apply Permutation_app_comm.
Qed.

Lemma members_insert_append clusters region (bucket : list Company.t) c :
  clusters !! region = Some bucket ->
  members (<[region := bucket ++ [c]]> clusters) ≡ₚ members clusters ++ [c].
Proof.
  intros Hsome. unfold members.
  rewrite <- (concat_snd_Permutation _ _
                (map_to_list_delete clusters region bucket Hsome)).
  rewrite <- insert_delete_eq.
  rewrite (concat_snd_Permutation _ _
             (map_to_list_insert (delete region clusters) region
                (bucket ++ [c]) (lookup_delete_eq _ _))).
  simpl. rewrite <- !app_assoc. f_equiv. apply Permutation_app_comm.
Qed.

(** One iteration of the grouping loop adds the company at the index to
    one bucket. *)
Lemma group_step_members companies_with_location clusters i label c :
  companies_with_location !! i = Some c ->
  exists clusters',
    group_step companies_with_location clusters (i, label) = Some clusters'
    /\ members clusters' ≡ₚ members clusters ++ [c].
Proof.
  intros Hc. unfold group_step. cbn [fst snd]. rewrite Hc.
  destruct (clusters !! region_of_label label) as [bucket|] eqn:Hregion.
  - cbn. rewrite Hregion. cbn. eexists. split; [done|].
    by apply members_insert_append.
  - cbn. rewrite lookup_insert_eq. cbn. eexists. split; [done|].
    rewrite insert_insert_eq. by apply members_insert_fresh.
Qed.

(** The grouping loop from index [i] on. *)
Lemma group_loop companies_with_location labels i clusters :
  (i + length labels = length companies_with_location)%nat ->
  exists clusters',
    for_each (group_step companies_with_location)
             (imap (fun j label => ((i + j)%nat, label)) labels) clusters
    = Some clusters'
    /\ members clusters' ≡ₚ members clusters ++ drop i companies_with_location.
Proof.
  revert i clusters. induction labels as [|label labels IH];
    intros i clusters Hlen.
  - exists clusters. split; [done|].
    rewrite drop_ge by (simpl in Hlen; lia). by rewrite app_nil_r.
  - simpl in Hlen. rewrite imap_cons. cbn [for_each].
    destruct (lookup_lt_is_Some_2 companies_with_location i) as [c Hc]; [lia|].
    replace (i + 0)%nat with i by lia.
    destruct (group_step_members companies_with_location clusters i label c Hc)
      as (clusters1 & -> & Hmem1).
    cbn [mbind option_bind].
    rewrite (imap_ext _ (fun j label => ((S i + j)%nat, label)))
      by (intros j x _; simpl; f_equal; lia).
    destruct (IH (S i) clusters1) as (clusters' & -> & Hmem'); [lia|].
    exists clusters'. split; [done|].
    rewrite Hmem', Hmem1, <- app_assoc. f_equiv.
    by rewrite (drop_S _ _ _ Hc).
Qed.

Lemma has_valid_location_false (c : Company.t) :
  has_valid_location c = false <->
  Company.location c = None \/
  exists location,
    Company.location c = Some location /\
    (GeoLocation.latitude location == 0 \/ GeoLocation.longitude location == 0).
Proof.
  unfold has_valid_location. destruct (Company.location c) as [location|].
  - rewrite andb_false_iff, !negb_false_iff, !Qeq_bool_iff. split.
    + intros Hzero. right. by exists location.
    + intros [?|(? & [= <-] & Hzero)]; done.
  - split; [by left|done].
Qed.

Lemma members_lookup clusters region bucket c :
  clusters !! region = Some bucket -> c ∈ bucket -> c ∈ members clusters.
Proof.
  intros Hregion Hc. unfold members. apply list_elem_of_In, in_concat.
  exists bucket. split; [|by apply list_elem_of_In].
  apply list_elem_of_In, list_elem_of_fmap.
  exists (region, bucket). split; [done|]. by apply elem_of_map_to_list.
Qed.

Lemma lookup_members clusters c :
  c ∈ members clusters ->
  exists region bucket, clusters !! region = Some bucket /\ c ∈ bucket.
Proof.
  unfold members.
  intros (bucket & Hbucket & Hc%list_elem_of_In)%list_elem_of_In%in_concat.
  apply list_elem_of_In, list_elem_of_fmap in Hbucket
    as ([region bucket'] & -> & Hin).
  apply elem_of_map_to_list in Hin. by exists region, bucket'.
Qed.

(** C9: [cluster_companies_by_region] leaves out the companies whose
    location is missing or whose latitude or longitude is zero: they are
    in no bucket.  The buckets together hold exactly the remaining
    companies, each occurrence once, so each of them is in a bucket and
    in one only.  ([DBSCAN] is any routine that returns one label per
    sample.) *)
Theorem cluster_companies_by_region_buckets
    (dbscan : Q -> nat -> list (Q * Q) -> list Z)
    (companies : list Company.t) :
  labels_every_sample dbscan ->
  exists clusters,
    cluster_companies_by_region dbscan companies = Some clusters /\
    (forall c,
       (Company.location c = None \/
        exists location,
          Company.location c = Some location /\
          (GeoLocation.latitude location == 0
           \/ GeoLocation.longitude location == 0)) ->
       forall region bucket, clusters !! region = Some bucket -> c ∉ bucket) /\
    members clusters ≡ₚ filter has_valid_location companies /\
    (forall c, c ∈ companies -> has_valid_location c = true ->
       exists region bucket, clusters !! region = Some bucket /\ c ∈ bucket).
Proof.
  intros Hlabels. unfold cluster_companies_by_region.
  set (located := filter has_valid_location companies).
  assert (exists clusters,
            match located with
            | [] => Some ∅
            | _ :: _ =>
                coordinates ← mapM coordinates_of located;
                for_each (group_step located)
                         (imap pair (dbscan 0.05 2%nat coordinates)) ∅
            end = Some clusters
            /\ members clusters ≡ₚ located) as (clusters & Hrun & Hmem).
  { destruct located as [|c0 cs] eqn:Hlocated; [by exists ∅|].
    rewrite <- Hlocated.
    destruct (mapM_is_Some_2 coordinates_of located) as [coordinates Hcoords].
    { apply Forall_forall. intros c [Hvalid _]%list_elem_of_filter.
      unfold compose, coordinates_of. unfold has_valid_location in Hvalid.
      destruct (Company.location c); [by eexists|by destruct Hvalid]. }
    rewrite Hcoords. cbn [mbind option_bind].
    destruct (group_loop located (dbscan 0.05 2%nat coordinates) 0 ∅)
      as (clusters & Hloop & Hmem).
    { rewrite Hlabels. symmetry. simpl. by apply length_mapM in Hcoords. }
    exists clusters. split; [exact Hloop|]. by rewrite Hmem. }
  exists clusters. split; [exact Hrun|]. split; [|split; [exact Hmem|]].
  - intros c Hinvalid%has_valid_location_false region bucket Hregion Hc.
    pose proof (members_lookup _ _ _ _ Hregion Hc) as Hin.
    rewrite Hmem in Hin. apply list_elem_of_filter in Hin as [Hvalid _].
    rewrite Hinvalid in Hvalid. done.
  - intros c Hc Hvalid. apply lookup_members. rewrite Hmem.
    apply list_elem_of_filter. split; [by rewrite Hvalid|done].
Qed.

Lemma all_noise_labels_every_sample :
  labels_every_sample Samples.all_noise.
Proof. intros eps min_samples coordinates. apply length_map. Qed.

Lemma cluster_companies_by_region_buckets_witness :
  let companies :=
    [Samples.placed "a" 43.0389 (-87.9065); Samples.bare "b";
     Samples.placed "c" 0 (-88.2315)] in
  exists clusters,
    cluster_companies_by_region Samples.all_noise companies = Some clusters /\
    (forall region bucket,
       clusters !! region = Some bucket ->
       (Samples.bare "b" ∉ bucket)
       /\ (Samples.placed "c" 0 (-88.2315) ∉ bucket)) /\
    members clusters ≡ₚ [Samples.placed "a" 43.0389 (-87.9065)].
Proof.
  intros companies.
  destruct (cluster_companies_by_region_buckets Samples.all_noise companies
              all_noise_labels_every_sample)
    as (clusters & Hrun & Hout & Hmem & _).
  exists clusters. split; [exact Hrun|]. split; [|exact Hmem].
  intros region bucket Hregion. split.
  - apply (Hout (Samples.bare "b")) with region; [by left|exact Hregion].
  - apply (Hout (Samples.placed "c" 0 (-88.2315))) with region;
      [|exact Hregion].
    right. eexists. split; [reflexivity|]. by left.
Defined.

End Clustering.

(** ** Ranking *)

Section Sorting.
Import SimilarityScorer.
Context {A K : Type} (leb : K -> K -> bool) (key : A -> K).

Lemma insert_desc_Permutation x l : insert_desc leb key x l ≡ₚ x :: l.
Proof.
  induction l as [|y l IH]; simpl; [done|].
  destruct (leb (key y) (key x)); [done|].
  by rewrite IH, Permutation_swap.
Qed.

Lemma sort_desc_Permutation l : sort_desc leb key l ≡ₚ l.
Proof.
  induction l as [|x l IH]; simpl; [done|].
  by rewrite insert_desc_Permutation, IH.
Qed.

(** An element goes behind a block of strictly greater keys. *)
Lemma insert_desc_app_greater x l1 l2 :
  Forall (fun y => leb (key y) (key x) = false) l1 ->
  insert_desc leb key x (l1 ++ l2) = l1 ++ insert_desc leb key x l2.
Proof.
  induction 1 as [|y l1 Hy _ IH]; simpl; [done|]. by rewrite Hy, IH.
Qed.

(** An element goes in front of a block that starts with a key that is
    not greater. *)
Lemma insert_desc_front x l :
  match l with [] => True | y :: _ => leb (key y) (key x) = true end ->
  insert_desc leb key x l = x :: l.
Proof. destruct l as [|y l]; simpl; [done|]. by intros ->. Qed.

(** Stability: among the elements picked by a predicate [P] that holds for
    at most one class of keys (an element with [P] is never strictly
    smaller than another one with [P]), the order of the input is kept. *)
Lemma insert_desc_filter (P : A -> Prop) `{!forall x, Decision (P x)} x l :
  (forall y, P x -> P y -> leb (key y) (key x) = true) ->
  filter P (insert_desc leb key x l) = filter P (x :: l).
Proof.
  intros Hclass. induction l as [|y l IH]; simpl; [done|].
  destruct (leb (key y) (key x)) eqn:Hleb; [done|].
  rewrite filter_cons, IH, !filter_cons.
  destruct (decide (P y)) as [Hy|Hy], (decide (P x)) as [Hx|Hx]; try done.
  rewrite (Hclass y Hx Hy) in Hleb. discriminate.
Qed.

Lemma sort_desc_filter (P : A -> Prop) `{!forall x, Decision (P x)} l :
  (forall x y, P x -> P y -> leb (key y) (key x) = true) ->
  filter P (sort_desc leb key l) = filter P l.
Proof.
  intros Hclass. induction l as [|x l IH]; simpl; [done|].
  rewrite insert_desc_filter by (intros y; apply Hclass).
  by rewrite !filter_cons, IH.
Qed.

End Sorting.

Section Ranking.
Import SimilarityScorer.

Lemma StronglySorted_lookup {A : Type} (R : A -> A -> Prop) (l : list A)
    (i j : nat) (x y : A) :
  StronglySorted R l -> (i < j)%nat -> l !! i = Some x -> l !! j = Some y ->
  R x y.
Proof.
  intros Hsorted. revert i j.
  induction Hsorted as [|z l _ IH Hall]; intros i j Hij Hi Hj; [done|].
  destruct j as [|j]; [lia|]. destruct i as [|i]; simpl in *.
  - injection Hi as ->.
    by apply (Forall_lookup_1 _ _ _ _ Hall Hj).
  - apply (IH i j); [lia|done..].
Qed.

Lemma Qle_bool_false_iff (x y : Q) : Qle_bool x y = false <-> y < x.
Proof.
  split.
  - intros Hf. apply Qnot_le_lt. intros Hle. apply Qle_bool_iff in Hle.
    congruence.
  - intros Hlt. destruct (Qle_bool x y) eqn:Hb; [|done].
    apply Qle_bool_iff in Hb. lra.
Qed.

Lemma sort_desc_Q_sorted {A : Type} (key : A -> Q) (l : list A) :
  StronglySorted (fun p q => key q <= key p) (sort_desc Qle_bool key l).
Proof.
  induction l as [|x l IH]; simpl; [constructor|].
  revert IH. generalize (sort_desc Qle_bool key l). clear l.
  intros l Hsorted. induction Hsorted as [|y l Hsorted IH Hall]; simpl.
  - repeat constructor.
  - destruct (Qle_bool (key y) (key x)) eqn:Hleb.
    + apply Qle_bool_iff in Hleb. constructor; [by constructor|].
      constructor; [done|].
      eapply Forall_impl; [exact Hall|]. simpl. intros z Hz. lra.
    + apply Qle_bool_false_iff in Hleb. constructor; [done|].
      rewrite insert_desc_Permutation. constructor; [lra|done].
Qed.

Lemma slice_to_sublist {A : Type} (n : Z) (l : list A) :
  slice_to n l `sublist_of` l.
Proof. unfold slice_to. destruct (0 <=? n)%Z; apply sublist_take. Qed.

Lemma slice_to_sorted {A : Type} (R : A -> A -> Prop) (n : Z) (l : list A) :
  StronglySorted R l -> StronglySorted R (slice_to n l).
Proof.
  intros Hsorted. unfold slice_to.
  destruct (0 <=? n)%Z;
    match goal with
    | |- StronglySorted _ (firstn ?k _) =>
        rewrite <- (take_drop k l) in Hsorted;
        by apply StronglySorted_app_1_l in Hsorted
    end.
Qed.

Lemma slice_to_all {A : Type} (n : Z) (l : list A) :
  (Z.of_nat (length l) <= n)%Z -> slice_to n l = l.
Proof.
  intros Hn. unfold slice_to.
  destruct (0 <=? n)%Z eqn:H0; [|apply Z.leb_gt in H0; lia].
  apply take_ge. lia.
Qed.

(** X1: every entry of [rank_companies_by_similarity] is a candidate with
    an id other than the reference's, paired with its similarity to the
    reference; the scores never increase down the list; there are no more
    entries than candidates, and no more than [top_n] when [top_n] is not
    negative. *)
Theorem rank_companies_by_similarity_sound (log10 : Q -> Q)
    (reference : Company.t) (candidates : list Company.t) (top_n : Z) :
  let ranked :=
    rank_companies_by_similarity log10 reference candidates top_n in
  (forall c s, (c, s) ∈ ranked ->
     c ∈ candidates /\ Company.id c <> Company.id reference /\
     s = score_company_similarity log10 reference c) /\
  (forall i j p q, (i < j)%nat -> ranked !! i = Some p -> ranked !! j = Some q ->
     q.2 <= p.2) /\
  (length ranked <= length candidates)%nat /\
  ((0 <= top_n)%Z -> (length ranked <= Z.to_nat top_n)%nat).
Proof.
  intros ranked. subst ranked. unfold rank_companies_by_similarity. cbv zeta.
  set (scored := (fun candidate => (candidate, _)) <$> _).
  split; [|split; [|split]].
  - intros c s Hin.
    apply (fun H => elem_of_sublist _ _ _ H (slice_to_sublist _ _)) in Hin.
    rewrite sort_desc_Permutation in Hin. subst scored.
    apply list_elem_of_fmap in Hin as (c' & [= -> ->] & Hc').
    by apply list_elem_of_filter in Hc' as [Hid Hc'].
  - intros i j p q Hij Hp Hq.
    refine (StronglySorted_lookup (fun p q => q.2 <= p.2) _ i j p q
              _ Hij Hp Hq).
    apply slice_to_sorted, sort_desc_Q_sorted.
  - etrans; [apply sublist_length, slice_to_sublist|].
    rewrite (Permutation_length (sort_desc_Permutation _ _ _)).
    subst scored. rewrite length_fmap. apply length_filter.
  - intros Hn. unfold slice_to.
    destruct (0 <=? top_n)%Z eqn:H0; [|apply Z.leb_gt in H0; lia].
    apply firstn_le_length.
Qed.

(** X2: when [top_n] is at least the number of candidates, the ranking
    holds exactly the candidates with another id than the reference's,
    and candidates with equal scores keep the order in which they were
    given. *)
Theorem rank_companies_by_similarity_stable (log10 : Q -> Q)
    (reference : Company.t) (candidates : list Company.t) (top_n : Z) :
  (Z.of_nat (length candidates) <= top_n)%Z ->
  let ranked :=
    rank_companies_by_similarity log10 reference candidates top_n in
  ranked.*1 ≡ₚ other_candidates reference candidates /\
  forall v : Q,
    (filter (fun p => p.2 == v) ranked).*1
    = filter (fun c => score_company_similarity log10 reference c == v)
             (other_candidates reference candidates).
Proof.
  intros Hn ranked. subst ranked. unfold rank_companies_by_similarity.
  cbv zeta. fold (other_candidates reference candidates).
  set (score := score_company_similarity log10 reference).
  rewrite slice_to_all.
  2:{ rewrite (Permutation_length (sort_desc_Permutation _ _ _)), length_fmap.
      pose proof (length_filter (fun c => Company.id c <> Company.id reference)
                    candidates).
      unfold other_candidates. lia. }
  split.
  - rewrite sort_desc_Permutation.
    induction (other_candidates reference candidates) as [|c cs IH];
      [done|].
    rewrite !fmap_cons. simpl. by rewrite IH.
  - intros v. rewrite sort_desc_filter.
    + induction (other_candidates reference candidates) as [|c cs IH];
        [done|].
      rewrite fmap_cons, !filter_cons. cbn [snd].
      destruct (decide (score c == v)); [|exact IH].
      rewrite fmap_cons. cbn [fst]. by rewrite IH.
    + intros p q Hp Hq. apply Qle_bool_iff. rewrite Hp, Hq. apply Qle_refl.
Qed.

Lemma rank_companies_by_similarity_stable_witness :
  (rank_companies_by_similarity Samples.coarse_log10 Samples.full_company
     [Samples.bare "a"; Samples.full_company; Samples.bare "b"] 5).*1
  ≡ₚ [Samples.bare "a"; Samples.bare "b"].
Proof.
  apply (rank_companies_by_similarity_stable Samples.coarse_log10
           Samples.full_company
           [Samples.bare "a"; Samples.full_company; Samples.bare "b"] 5).
  simpl. lia.
Defined.

Lemma rank_companies_by_similarity_sound_witness :
  (length (rank_companies_by_similarity Samples.coarse_log10
             Samples.full_company
             [Samples.bare "a"; Samples.full_company; Samples.bare "b"] 1)
   <= 1)%nat.
Proof.
  apply (rank_companies_by_similarity_sound Samples.coarse_log10
           Samples.full_company
           [Samples.bare "a"; Samples.full_company; Samples.bare "b"] 1).
  lia.
Defined.

(** X3: [rank_companies_by_tax_potential] lists the HIGH companies, then
    the MEDIUM ones, then the LOW ones, each group in the order of the
    input and each company paired with its own class. *)
Theorem rank_companies_by_tax_potential_groups (companies : list Company.t) :
  rank_companies_by_tax_potential companies
  = with_potential HIGH companies ++ with_potential MEDIUM companies
    ++ with_potential LOW companies.
Proof.
  unfold rank_companies_by_tax_potential. cbv zeta.
  induction companies as [|c cs IH]; [done|].
  rewrite fmap_cons. cbn [sort_desc foldr].
  fold (sort_desc Z.leb (fun x : Company.t * TaxSavingPotential =>
                           potential_order x.2)
          ((fun company => (company, score_tax_saving_potential company))
           <$> cs)).
  rewrite IH. unfold with_potential. rewrite !filter_cons.
  assert (forall p q b (l : list Company.t),
            (potential_order p <=? potential_order q)%Z = b ->
            Forall (fun y : Company.t * TaxSavingPotential =>
                      (potential_order y.2 <=? potential_order q)%Z = b)
                   ((fun c => (c, p)) <$> l)) as Hblock.
  { intros p q b l Hb. apply Forall_fmap, Forall_forall. by intros. }
  assert (forall c q (l : list (Company.t * TaxSavingPotential)),
            Forall (fun y => (potential_order y.2 <=? potential_order q)%Z
                             = true) l ->
            insert_desc Z.leb (fun x => potential_order x.2) (c, q) l
            = (c, q) :: l)
    as Hfront.
  { intros x q l Hl. apply insert_desc_front.
    destruct l as [|y l]; [done|]. by inversion Hl. }
  destruct (score_tax_saving_potential c) eqn:Hc.
  - rewrite decide_True by done.
    rewrite decide_False by done. rewrite decide_False by done.
    rewrite fmap_cons. apply Hfront.
    rewrite !Forall_app. repeat split; by apply Hblock.
  - rewrite decide_False by done.
    rewrite decide_True by done. rewrite decide_False by done.
    rewrite insert_desc_app_greater by (by apply Hblock).
    rewrite fmap_cons. f_equal. apply Hfront.
    rewrite !Forall_app. repeat split; by apply Hblock.
  - rewrite decide_False by done. rewrite decide_False by done.
    rewrite decide_True by done.
    rewrite insert_desc_app_greater by (by apply Hblock).
    rewrite insert_desc_app_greater by (by apply Hblock).
    rewrite fmap_cons. do 2 f_equal. apply Hfront. by apply Hblock.
Qed.

End Ranking.

(** ** The range of the similarity score *)

Section SimilarityRange.
Import SimilarityScorer PyStr.

Variable log10 : Q -> Q.
Hypothesis log10_pos : forall x, 10 <= x -> 0 < log10 x.

Lemma log_ratio_range (a b : Q) :
  0 < a -> 0 < b -> 0 < Qmin a b / Qmax a b /\ Qmin a b / Qmax a b <= 1.
Proof.
  intros Ha Hb.
  assert (0 < Qmin a b) as Hmin by (by apply Q.min_glb_lt).
  assert (0 < Qmax a b) as Hmax
    by (eapply Qlt_le_trans; [exact Ha|apply Q.le_max_l]).
  assert (Qmin a b <= Qmax a b) as Hle
    by (eapply Qle_trans; [apply Q.le_min_l|apply Q.le_max_l]).
  split.
  - apply Qlt_shift_div_l; [done|]. lra.
  - apply Qle_shift_div_r; [done|]. lra.
Qed.

Lemma employee_floor_ge (e : Z) : 10 <= inject_Z (Z.max 10 e).
Proof.
  change (inject_Z 10 <= inject_Z (Z.max 10 e)).
  rewrite <- Zle_Qle. apply Z.le_max_l.
Qed.

Lemma revenue_floor_ge (r : Q) : 10 <= Qmax 10000 r.
Proof. eapply Qle_trans; [|apply Q.le_max_l]. done. Qed.

Lemma _score_size_similarity_range c1 c2 :
  0 < _score_size_similarity log10 c1 c2
  /\ _score_size_similarity log10 c1 c2 <= 1.
Proof.
  unfold _score_size_similarity.
  destruct (Company.financials c1) as [f1|], (Company.financials c2) as [f2|];
    try (split; [done|by apply Qle_bool_iff]).
  cbv zeta.
  assert (forall e r, 0 < e /\ e <= 1 -> 0 < r /\ r <= 1 ->
                      0 < 0.6 * e + 0.4 * r /\ 0.6 * e + 0.4 * r <= 1)
    as Hcombine by (intros e r [? ?] [? ?]; split; lra).
  destruct (Financials.employee_count f1), (Financials.employee_count f2),
           (Financials.estimated_revenue f1), (Financials.estimated_revenue f2);
    apply Hcombine;
    first [ apply log_ratio_range; apply log10_pos;
            (apply employee_floor_ge || apply revenue_floor_ge)
          | split; [done|by apply Qle_bool_iff] ].
Qed.

Lemma subcategory_overlap_range (s1 s2 : gset string) :
  set_truthy (s1 ∩ s2) = true ->
  let r := (0.3 * inject_Z (Z.of_nat (size (s1 ∩ s2))))
           / inject_Z (Z.of_nat (Nat.max (size s1) (size s2))) in
  0 < r /\ r <= 0.3.
Proof.
  intros Hne r. subst r. unfold set_truthy in Hne.
  apply negb_true_iff, Nat.eqb_neq in Hne.
  assert (size (s1 ∩ s2) <= size s1)%nat as Hsub
    by apply subseteq_size, intersection_subseteq_l.
  set (k := size (s1 ∩ s2)) in *. set (m := Nat.max (size s1) (size s2)).
  assert (k <= m)%nat as Hkm by (subst m; lia).
  assert (0 < inject_Z (Z.of_nat k)) as Hk.
  { change 0 with (inject_Z 0). rewrite <- Zlt_Qlt. lia. }
  assert (inject_Z (Z.of_nat k) <= inject_Z (Z.of_nat m)) as Hle.
  { rewrite <- Zle_Qle. lia. }
  revert Hk Hle.
  generalize (inject_Z (Z.of_nat k)), (inject_Z (Z.of_nat m)).
  intros qk qm Hk Hle. split.
  - apply Qlt_shift_div_l; lra.
  - apply Qle_shift_div_r; lra.
Qed.

Lemma _score_industry_similarity_range c1 c2 :
  0.1 <= _score_industry_similarity c1 c2
  /\ _score_industry_similarity c1 c2 <= 1.
Proof.
  unfold _score_industry_similarity.
  destruct (Company.industry c1) as [i1|], (Company.industry c2) as [i2|];
    try (split; by apply Qle_bool_iff).
  cbv zeta.
  set (s1 := list_to_set (Industry.subcategories i1) : gset string).
  set (s2 := list_to_set (Industry.subcategories i2) : gset string).
  assert (0.1 <= (if set_truthy s1 && set_truthy s2
                  then if set_truthy (s1 ∩ s2)
                       then 0.5 + (0.3 * inject_Z (Z.of_nat (size (s1 ∩ s2))))
                                  / inject_Z (Z.of_nat (Nat.max (size s1)
                                                                (size s2)))
                       else 0.2
                  else 0.2)
          /\ (if set_truthy s1 && set_truthy s2
              then if set_truthy (s1 ∩ s2)
                   then 0.5 + (0.3 * inject_Z (Z.of_nat (size (s1 ∩ s2))))
                              / inject_Z (Z.of_nat (Nat.max (size s1)
                                                            (size s2)))
                   else 0.2
              else 0.2) <= 1) as Hsub.
  { destruct (set_truthy s1 && set_truthy s2);
      [|split; by apply Qle_bool_iff].
    destruct (set_truthy (s1 ∩ s2)) eqn:Hov;
      [|split; by apply Qle_bool_iff].
    destruct (subcategory_overlap_range s1 s2 Hov) as [H0 H1].
    cbv zeta in H0, H1. split; lra. }
  repeat case_match; try (split; by apply Qle_bool_iff); exact Hsub.
Qed.

Lemma _score_location_similarity_range c1 c2 :
  0.1 <= _score_location_similarity c1 c2
  /\ _score_location_similarity c1 c2 <= 1.
Proof.
  unfold _score_location_similarity.
  repeat case_match; split; by apply Qle_bool_iff.
Qed.

Lemma _score_legal_structure_similarity_range c1 c2 :
  0.3 <= _score_legal_structure_similarity c1 c2
  /\ _score_legal_structure_similarity c1 c2 <= 1.
Proof.
  unfold _score_legal_structure_similarity.
  repeat case_match; split; by apply Qle_bool_iff.
Qed.

Lemma _score_growth_similarity_range c1 c2 :
  0.2 <= _score_growth_similarity c1 c2
  /\ _score_growth_similarity c1 c2 <= 1.
Proof.
  unfold _score_growth_similarity.
  repeat case_match; split; by apply Qle_bool_iff.
Qed.

(** X4: a similarity score is above 0.1 and at most 1; the industry,
    location, legal-structure and growth scores are at least 0.1, 0.1, 0.3
    and 0.2, the size score is positive, and none exceeds 1.  ([log10] is
    positive from 10 on.) *)
Theorem score_company_similarity_range (A B : Company.t) :
  (0.1 <= _score_industry_similarity A B
   /\ _score_industry_similarity A B <= 1) /\
  (0 < _score_size_similarity log10 A B
   /\ _score_size_similarity log10 A B <= 1) /\
  (0.1 <= _score_location_similarity A B
   /\ _score_location_similarity A B <= 1) /\
  (0.3 <= _score_legal_structure_similarity A B
   /\ _score_legal_structure_similarity A B <= 1) /\
  (0.2 <= _score_growth_similarity A B
   /\ _score_growth_similarity A B <= 1) /\
  0.1 < score_company_similarity log10 A B /\
  score_company_similarity log10 A B <= 1.
Proof.
  pose proof (_score_industry_similarity_range A B) as Hi.
  pose proof (_score_size_similarity_range A B) as Hs.
  pose proof (_score_location_similarity_range A B) as Hl.
  pose proof (_score_legal_structure_similarity_range A B) as Hg.
  pose proof (_score_growth_similarity_range A B) as Hr.
  repeat split; try tauto;
    rewrite score_company_similarity_eq; lra.
Qed.

End SimilarityRange.

Lemma score_company_similarity_range_witness :
  0.1 < SimilarityScorer.score_company_similarity Samples.coarse_log10
          Samples.full_company (Samples.bare "b")
  /\ SimilarityScorer.score_company_similarity Samples.coarse_log10
       Samples.full_company (Samples.bare "b") <= 1.
Proof.
  apply (score_company_similarity_range Samples.coarse_log10
           coarse_log10_pos Samples.full_company (Samples.bare "b")).
Defined.

Section SimilarityProfiles.
Import SimilarityScorer PyStr.

Variable log10 : Q -> Q.
Hypothesis log10_pos : forall x, 10 <= x -> 0 < log10 x.

(** X5: two companies that carry the same industry, address, financials
    and legal structure (whatever their ids, names and other fields), with
    industry, address, employee count and revenue present, score at least
    0.9. *)
Theorem score_company_similarity_same_profile (A B : Company.t) :
  Company.industry B = Company.industry A ->
  Company.address B = Company.address A ->
  Company.financials B = Company.financials A ->
  Company.legal_structure B = Company.legal_structure A ->
  is_Some (Company.industry A) ->
  is_Some (Company.address A) ->
  (exists f, Company.financials A = Some f /\
             is_Some (Financials.employee_count f) /\
             is_Some (Financials.estimated_revenue f)) ->
  0.9 <= score_company_similarity log10 A B.
Proof.
  intros HBi HBa HBf HBl [i Hi] [a Ha] (f & Hf & [e He] & [r Hr]).
  assert (_score_industry_similarity A B == 1) as H1.
  { unfold _score_industry_similarity. rewrite HBi, Hi.
    by rewrite String.eqb_refl. }
  assert (_score_size_similarity log10 A B == 1) as H2.
  { unfold _score_size_similarity. rewrite HBf, Hf, He, Hr. cbv zeta.
    rewrite !(log_ratio_self log10 log10_pos); [done| |].
    - eapply Qle_trans; [|apply Q.le_max_l]. done.
    - change (inject_Z 10 <= inject_Z (Z.max 10 e)).
      rewrite <- Zle_Qle. apply Z.le_max_l. }
  assert (_score_location_similarity A B == 1) as H3.
  { unfold _score_location_similarity. rewrite HBa, Ha. cbv zeta.
    by rewrite !String.eqb_refl. }
  assert (0.5 <= _score_legal_structure_similarity A B) as H4.
  { unfold _score_legal_structure_similarity. rewrite HBl.
    destruct (Company.legal_structure A); [|done].
    by rewrite bool_decide_eq_true_2. }
  assert (0.5 <= _score_growth_similarity A B) as H5.
  { unfold _score_growth_similarity. rewrite HBf, Hf.
    destruct (Financials.growth_rate f) as [g|]; [|done]. cbv zeta.
    assert (Qle_bool (Qabs (g - g)) 2 = true) as ->; [|done].
    apply Qle_bool_iff. assert (g - g == 0) as -> by ring. done. }
  rewrite score_company_similarity_eq, H1, H2, H3. lra.
Qed.



End SimilarityProfiles.

Lemma score_company_similarity_same_profile_witness :
  0.9 <= SimilarityScorer.score_company_similarity Samples.coarse_log10
           Samples.full_company Samples.full_company.
Proof.
  apply (score_company_similarity_same_profile Samples.coarse_log10
           coarse_log10_pos Samples.full_company Samples.full_company);
    try reflexivity; try (by eexists).
Defined.


(** ** The distance matrix and the tour in detail *)

Section RouteDetails.
Import LogisticsOptimizer.

(** A loop over [range(a, a + m)] whose body carries an invariant from
    index [i] to index [i + 1] runs to its end. *)
Lemma for_each_seq_invariant {S : Type} (I : nat -> S -> Prop)
    (body : S -> nat -> option S) (a m : nat) (s : S) :
  (forall i s, (a <= i < a + m)%nat -> I i s ->
               exists s', body s i = Some s' /\ I (Datatypes.S i) s') ->
  I a s ->
  exists s', for_each body (seq a m) s = Some s' /\ I (a + m)%nat s'.
Proof.
  revert a s. induction m as [|m IH]; intros a s Hbody Hs; simpl.
  - exists s. by rewrite Nat.add_0_r.
  - destruct (Hbody a s) as (s1 & -> & Hs1); [lia|done|]. simpl.
    replace (a + Datatypes.S m)%nat with (Datatypes.S a + m)%nat by lia.
    apply IH; [|done]. intros i s2 Hi. apply Hbody. lia.
Qed.

Lemma cell_set_cell distances i j d distances' p q :
  set_cell distances i j d = Some distances' ->
  cell distances' p q
  = if decide (p = i /\ q = j) then Some d else cell distances p q.
Proof.
  unfold set_cell, cell. destruct (distances !! i) as [row|] eqn:Hrow; [|done].
  simpl. destruct (j <? length row)%nat eqn:Hj; [|done].
  apply Nat.ltb_lt in Hj. intros [= <-].
  destruct (decide (p = i)) as [->|Hp].
  - rewrite list_lookup_insert_eq by (by eapply lookup_lt_Some). simpl.
    destruct (decide (q = j)) as [->|Hq].
    + rewrite list_lookup_insert_eq by done. by rewrite decide_True.
    + rewrite list_lookup_insert_ne by done. rewrite Hrow.
      by rewrite decide_False by tauto.
  - rewrite list_lookup_insert_ne by done. by rewrite decide_False by tauto.
Qed.

Lemma _calculate_distance_matrix_cells companies start_location :
  exists distances,
    _calculate_distance_matrix companies start_location = Some distances /\
    square (S (length companies)) distances /\
    forall p q, (p < S (length companies))%nat ->
                (q < S (length companies))%nat ->
                cell distances p q = Some (if decide (p = q) then 0 else 10.0).
Proof.
  unfold _calculate_distance_matrix.
  set (addresses := start_location :: map CompanyReference.address companies).
  assert (length addresses = S (length companies)) as Hn
    by (subst addresses; simpl; by rewrite length_map).
  rewrite Hn. set (n := S (length companies)) in *.
  match goal with
  | |- context [for_each ?body (range 0 n) ?s] =>
      destruct (for_each_seq_invariant (fun i d => filled n i 0 d) body 0 n s)
        as (distances & Hrun & Hsq & Hdiag & Hoff)
  end.
  - intros i distances [_ Hi] Hinv.
    assert (range (i + 1) n = seq (S i) (n - S i)) as ->
      by (unfold range; f_equal; lia).
    match goal with
    | |- context [for_each ?body _ _] =>
        destruct (for_each_seq_invariant (fun j d => filled n i j d) body
                    (S i) (n - S i) distances)
          as (distances' & -> & Hsq & Hdiag & Hoff)
    end.
    + intros j d [Hj1 Hj2] (Hsq & Hdiag & Hoff).
      assert (j < n)%nat as Hj by lia.
      destruct (lookup_lt_is_Some_2 addresses i) as [address_i ->]; [lia|].
      destruct (lookup_lt_is_Some_2 addresses j) as [address_j ->]; [lia|].
      simpl.
      destruct (set_cell_square n d i j
                  (_calculate_distance address_i address_j) Hsq Hi Hj)
        as (d1 & Hd1 & Hsq1).
      rewrite Hd1. simpl.
      destruct (set_cell_square n d1 j i
                  (_calculate_distance address_i address_j) Hsq1 Hj Hi)
        as (d2 & Hd2 & Hsq2).
      rewrite Hd2. eexists. split; [done|].
      split; [done|]. split.
      * intros p Hp. rewrite (cell_set_cell _ _ _ _ _ p p Hd2).
        rewrite decide_False by lia.
        rewrite (cell_set_cell _ _ _ _ _ p p Hd1).
        rewrite decide_False by lia. by apply Hdiag.
      * intros p q Hp Hq Hpq Hw.
        rewrite (cell_set_cell _ _ _ _ _ p q Hd2).
        case_decide as H2; [done|].
        rewrite (cell_set_cell _ _ _ _ _ p q Hd1).
        case_decide as H1; [done|].
        apply Hoff; [done..|]. unfold written in *. lia.
    + destruct Hinv as (Hsq & Hdiag & Hoff). split; [done|]. split; [done|].
      intros p q Hp Hq Hpq Hw. apply Hoff; [done..|]. unfold written in *. lia.
    + eexists. split; [done|]. split; [done|]. split; [done|].
      intros p q Hp Hq Hpq Hw. apply Hoff; [done..|]. unfold written in *. lia.
  - split; [apply square_replicate|]. split.
    + intros p Hp. unfold cell. rewrite lookup_replicate_2 by done.
      cbv [mbind option_bind]. by rewrite lookup_replicate_2.
    + intros p q _ _ _ Hw. unfold written in Hw. lia.
  - unfold range in *. rewrite Nat.sub_0_r. exists distances.
    split; [done|]. split; [done|]. intros p q Hp Hq.
    case_decide as Hpq; [subst; by apply Hdiag|].
    apply Hoff; [done..|]. unfold written. lia.
Qed.

(** X7: [_calculate_distance_matrix] never raises; its result has one
    row and one column for the start and for each company, a zero
    diagonal, the placeholder distance of [_calculate_distance] everywhere
    else, and is symmetric. *)
Theorem _calculate_distance_matrix_spec (companies : list CompanyReference.t)
    (start_location : string) :
  exists distances,
    _calculate_distance_matrix companies start_location = Some distances /\
    square (S (length companies)) distances /\
    forall p q, (p <= length companies)%nat -> (q <= length companies)%nat ->
      cell distances p q = cell distances q p /\
      cell distances p p = Some 0 /\
      (p <> q ->
       forall address1 address2,
         cell distances p q = Some (_calculate_distance address1 address2)).
Proof.
  destruct (_calculate_distance_matrix_cells companies start_location)
    as (distances & Hrun & Hsq & Hcells).
  exists distances. split; [done|]. split; [done|].
  intros p q Hp Hq. split; [|split].
  - rewrite !Hcells by lia. by repeat case_decide.
  - rewrite Hcells by lia. by rewrite decide_True.
  - intros Hpq address1 address2. rewrite Hcells by lia.
    by rewrite decide_False.
Qed.

Lemma StronglySorted_lt_filter (P : nat -> Prop) `{!forall x, Decision (P x)}
    (l : list nat) :
  StronglySorted lt l -> StronglySorted lt (filter P l).
Proof.
  induction 1 as [|x l Hl IH Hx]; [constructor|].
  rewrite filter_cons. case_decide; [|done].
  constructor; [done|].
  apply Forall_forall. intros y [_ Hy]%list_elem_of_filter.
  by apply (Forall_forall (lt x) l).
Qed.

Lemma StronglySorted_lt_seq (a m : nat) : StronglySorted lt (seq a m).
Proof.
  revert a. induction m as [|m IH]; intros a; simpl; constructor.
  - apply IH.
  - apply Forall_forall. intros x Hx%elem_of_seq. lia.
Qed.

(** [min] returns an element whose key is least, and the first such
    element: on an ascending list, the smallest index among the least. *)
Lemma min_by_least key best best_key l r :
  key best = Some best_key ->
  Forall (lt best) l -> StronglySorted lt l ->
  min_by key best best_key l = Some r ->
  exists kr, key r = Some kr /\ kr <= best_key /\
    ((best < r)%nat -> kr < best_key) /\
    forall x kx, x ∈ l -> key x = Some kx ->
                 kr <= kx /\ ((x < r)%nat -> kr < kx).
Proof.
  revert best best_key.
  induction l as [|y l IH]; intros best best_key Hbest Hlt Hsorted; simpl.
  - intros [= <-]. exists best_key. split; [done|]. split; [apply Qle_refl|].
    split; [lia|]. by intros x kx ?%elem_of_nil.
  - destruct (key y) as [k|] eqn:Hy; simpl; [|done].
    apply Forall_cons in Hlt as [Hby Hlt].
    apply StronglySorted_inv in Hsorted as [Hsorted Hyl].
    destruct (Qle_bool best_key k) eqn:Hle; intros Hr.
    + apply Qle_bool_iff in Hle.
      destruct (IH best best_key Hbest Hlt Hsorted Hr)
        as (kr & Hkr & Hle' & Hstrict & Hall).
      exists kr. split; [done|]. split; [done|]. split; [done|].
      intros x kx [->|Hx]%elem_of_cons Hkx; [|by apply Hall].
      assert (kx = k) as -> by congruence.
      split; [by eapply Qle_trans|].
      intros Hyr. eapply Qlt_le_trans; [|exact Hle]. apply Hstrict. lia.
    + apply Qle_bool_false_iff in Hle.
      destruct (IH y k Hy Hyl Hsorted Hr) as (kr & Hkr & Hle' & Hstrict & Hall).
      exists kr. split; [done|].
      assert (kr < best_key) as Hlt' by (by eapply Qle_lt_trans).
      split; [by apply Qlt_le_weak|]. split; [done|].
      intros x kx [->|Hx]%elem_of_cons Hkx; [|by apply Hall].
      assert (kx = k) as -> by congruence. by split.
Qed.

Lemma py_min_least key l r :
  StronglySorted lt l -> py_min key l = Some r ->
  exists kr, key r = Some kr /\
    forall x kx, x ∈ l -> key x = Some kx ->
                 kr <= kx /\ ((x < r)%nat -> kr < kx).
Proof.
  destruct l as [|y l]; [done|]. intros Hsorted. simpl.
  destruct (key y) as [k|] eqn:Hy; simpl; [|done].
  apply StronglySorted_inv in Hsorted as [Hsorted Hyl]. intros Hr.
  destruct (min_by_least key y k l r Hy Hyl Hsorted Hr)
    as (kr & Hkr & Hle & Hstrict & Hall).
  exists kr. split; [done|].
  intros x kx [->|Hx]%elem_of_cons Hkx; [|by apply Hall].
  assert (kx = k) as -> by congruence. by split.
Qed.

(** The greedy loop moves, at each step, to the unvisited index nearest
    to the current one, the smallest index among equally near ones. *)
Lemma tsp_loop_nearest n distances current unvisited tour :
  square n distances -> (current < n)%nat ->
  Forall (fun x => (x < n)%nat) unvisited ->
  StronglySorted lt unvisited -> NoDup unvisited ->
  exists visited,
    tsp_loop distances current unvisited tour = Some (tour ++ visited) /\
    visited ≡ₚ unvisited /\
    forall k cur nxt x,
      (current :: visited) !! k = Some cur -> visited !! k = Some nxt ->
      x ∈ unvisited -> x ∉ take k visited ->
      exists dn dx,
        cell distances cur nxt = Some dn /\ cell distances cur x = Some dx /\
        dn <= dx /\ ((x < nxt)%nat -> dn < dx).
Proof.
  intros Hsq.
  remember (length unvisited) as len eqn:Hlen.
  revert unvisited Hlen current tour.
  induction len as [len IH] using lt_wf_ind.
  intros unvisited Hlen current tour Hcur Hlt Hsorted Hnd.
  destruct unvisited as [|u us].
  - exists []. simp tsp_loop. rewrite app_nil_r. split; [done|].
    split; [done|]. intros k cur nxt x _ Hnil. by rewrite lookup_nil in Hnil.
  - rewrite tsp_loop_equation_2.
    destruct (py_min_is_Some (cell distances current) (u :: us))
      as [closest Hmin]; [done| |].
    { intros x Hx. apply (cell_square n); [done..|].
      by apply (Forall_forall (fun x => (x < n)%nat) (u :: us)). }
    pose proof (py_min_elem _ _ _ Hmin) as Hin.
    assert (closest < n)%nat as Hclosest
      by (by apply (Forall_forall (fun x => (x < n)%nat) (u :: us))).
    destruct (py_min_least _ _ _ Hsorted Hmin) as (kr & Hkr & Hleast).
    generalize (inspect (py_min (cell distances current) (u :: us))).
    intros [[c|] Hr]; [|congruence].
    assert (c = closest) as -> by congruence. simpl.
    destruct (IH (length (set_remove closest (u :: us))))
      with (unvisited := set_remove closest (u :: us))
           (current := closest) (tour := tour ++ [closest])
      as (visited & Hloop & Hperm & Hnear).
    + rewrite Hlen. by apply set_remove_length.
    + done.
    + done.
    + apply Forall_forall. intros x [_ Hx]%list_elem_of_filter.
      by apply (Forall_forall (fun x => (x < n)%nat) (u :: us)).
    + by apply StronglySorted_lt_filter.
    + by apply NoDup_filter.
    + exists (closest :: visited). split; [|split].
      * rewrite Hloop. by rewrite <- app_assoc.
      * rewrite Hperm. by apply set_remove_Permutation.
      * intros [|k] cur nxt x Hcurk Hnxt Hx Hfresh.
        -- simpl in Hcurk, Hnxt.
           injection Hcurk as <-. injection Hnxt as <-.
           destruct (cell_square n distances current x) as [dx Hdx];
             [done..| |].
           { by apply (Forall_forall (fun x => (x < n)%nat) (u :: us)). }
           exists kr, dx. split; [done|]. split; [done|]. by apply Hleast.
        -- simpl in Hcurk, Hnxt. rewrite firstn_cons in Hfresh.
           apply not_elem_of_cons in Hfresh as [Hne Hfresh].
           apply (Hnear k cur nxt x); [done..| |done].
           apply list_elem_of_filter. by split.
Qed.

(** X8: on any square matrix [_solve_tsp_greedy] returns a tour of
    [n + 2] indices that starts and ends at 0 and visits every other index
    once; each move goes to an index not yet visited that is nearest to
    the current one, and to the smallest such index when several are
    equally near. *)
Theorem _solve_tsp_greedy_nearest (n : nat) (distances : list (list Q)) :
  square (S n) distances ->
  exists middle,
    _solve_tsp_greedy distances = Some (0%nat :: middle ++ [0%nat]) /\
    middle ≡ₚ seq 1 n /\
    forall k cur nxt x,
      (0%nat :: middle) !! k = Some cur -> middle !! k = Some nxt ->
      (1 <= x <= n)%nat -> x ∉ take k middle ->
      exists dn dx,
        cell distances cur nxt = Some dn /\ cell distances cur x = Some dx /\
        dn <= dx /\ ((x < nxt)%nat -> dn < dx).
Proof.
  intros Hsq. unfold _solve_tsp_greedy.
  pose proof Hsq as [Hlen Hrows]. rewrite Hlen.
  destruct (tsp_loop_nearest (S n) distances 0 (range 1 (S n)) [0%nat])
    as (visited & -> & Hperm & Hnear).
  - done.
  - lia.
  - apply Forall_forall. intros x Hx%elem_of_range. lia.
  - apply StronglySorted_lt_seq.
  - apply NoDup_seq.
  - exists visited. split; [done|].
    assert (range 1 (S n) = seq 1 n) as Hrange
      by (unfold range; f_equal; lia).
    rewrite Hrange in *. split; [done|].
    intros k cur nxt x Hcur Hnxt Hx Hfresh.
    apply (Hnear k cur nxt x); [done..| |done].
    apply elem_of_seq. lia.
Qed.

Lemma _solve_tsp_greedy_nearest_witness :
  let distances : list (list Q) := [[0; 5; 2]; [5; 0; 1]; [2; 1; 0]] in
  exists middle,
    _solve_tsp_greedy distances = Some (0%nat :: middle ++ [0%nat]) /\
    middle ≡ₚ seq 1 2 /\
    forall k cur nxt x,
      (0%nat :: middle) !! k = Some cur -> middle !! k = Some nxt ->
      (1 <= x <= 2)%nat -> x ∉ take k middle ->
      exists dn dx,
        cell distances cur nxt = Some dn /\ cell distances cur x = Some dx /\
        dn <= dx /\ ((x < nxt)%nat -> dn < dx).
Proof.
  intros distances. apply (_solve_tsp_greedy_nearest 2 distances).
  split; [reflexivity|]. repeat constructor.
Defined.

Lemma add_all_length route companies :
  length (Route.companies (add_all route companies))
  = (length (Route.companies route) + length (filter has_address companies))%nat.
Proof.
  revert route. induction companies as [|c cs IH]; intros route.
  - simpl. lia.
  - rewrite add_all_cons, IH, filter_cons.
    case_decide as Hc.
    + destruct Hc as [a Ha]. rewrite (add_company_with_address route c 0 a Ha).
      simpl. rewrite length_app. simpl. lia.
    + rewrite (add_company_no_address route c 0); [done|].
      destruct (Company.address c) eqn:Ha; [|done].
      exfalso. apply Hc. by eexists.
Qed.

Lemma add_all_day route companies :
  Route.day (add_all route companies) = Route.day route.
Proof.
  revert route. induction companies as [|c cs IH]; intros route; [done|].
  rewrite add_all_cons, IH. unfold Route.add_company.
  by destruct (Company.address c).
Qed.

(** A matrix whose cells off the diagonal all hold the same distance. *)
Lemma min_by_uniform key best v l :
  (forall x, x ∈ l -> key x = Some v) -> min_by key best v l = Some best.
Proof.
  induction l as [|x l IH]; intros Hkey; [done|]. simpl.
  rewrite (Hkey x) by apply list_elem_of_here. simpl.
  assert (Qle_bool v v = true) as -> by (apply Qle_bool_iff, Qle_refl).
  apply IH. intros y Hy. apply Hkey. by apply list_elem_of_further.
Qed.

Lemma set_remove_seq a m : set_remove a (seq a (S m)) = seq (S a) m.
Proof.
  unfold set_remove. simpl. rewrite filter_cons, decide_False by tauto.
  assert (forall l : list nat, Forall (lt a) l ->
                               filter (fun y => y ≠ a) l = l) as Hkeep.
  { induction 1 as [|x l Hx Hl IH]; [done|].
    rewrite filter_cons, decide_True by lia. by rewrite IH. }
  apply Hkeep. apply Forall_forall. intros x Hx%elem_of_seq. lia.
Qed.

Lemma tsp_loop_uniform n v distances current a m tour :
  (forall p q, (p < n)%nat -> (q < n)%nat -> p <> q ->
               cell distances p q = Some v) ->
  (current < a)%nat -> (a + m <= n)%nat ->
  tsp_loop distances current (seq a m) tour = Some (tour ++ seq a m).
Proof.
  intros Hcells. revert current a tour.
  induction m as [|m IH]; intros current a tour Hcur Hle.
  - simpl. simp tsp_loop. by rewrite app_nil_r.
  - change (seq a (S m)) with (a :: seq (S a) m) at 1.
    rewrite tsp_loop_equation_2.
    assert (py_min (cell distances current) (a :: seq (S a) m) = Some a)
      as Hmin.
    { simpl. rewrite Hcells by lia. simpl. apply min_by_uniform.
      intros x Hx%elem_of_seq. apply Hcells; lia. }
    generalize (inspect (py_min (cell distances current) (a :: seq (S a) m))).
    intros [[c|] Hr]; [|congruence].
    assert (c = a) as -> by congruence. simpl.
    change (a :: seq (S a) m) with (seq a (S m)).
    rewrite set_remove_seq, IH by lia.
    by rewrite <- app_assoc.
Qed.

(** The length of the tour [0, 1, ..., m, 0] on such a matrix. *)
Lemma total_distance_uniform n v distances m :
  (forall p q, (p < n)%nat -> (q < n)%nat -> p <> q ->
               cell distances p q = Some v) ->
  (0 < m)%nat -> (m < n)%nat ->
  let optimized_order := 0%nat :: seq 1 m ++ [0%nat] in
  exists total,
    for_each
      (fun total_distance i =>
         from_idx ← optimized_order !! i;
         to_idx ← optimized_order !! (i + 1)%nat;
         d ← cell distances from_idx to_idx;
         Some (total_distance + d))
      (range 0 (length optimized_order - 1)) 0 = Some total /\
    total == inject_Z (Z.of_nat (m + 1)) * v.
Proof.
  intros Hcells Hm Hmn optimized_order.
  assert (length optimized_order - 1 = m + 1)%nat as Hlen.
  { subst optimized_order. simpl. rewrite length_app, length_seq. simpl. lia. }
  assert (forall i, (i <= m)%nat -> optimized_order !! i = Some i) as Hlow.
  { intros i Hi. subst optimized_order.
    change (0%nat :: seq 1 m ++ [0%nat]) with (seq 0 (S m) ++ [0%nat]).
    rewrite lookup_app_l by (rewrite length_seq; lia).
    by rewrite lookup_seq_lt by lia. }
  assert (optimized_order !! (m + 1)%nat = Some 0%nat) as Hlast.
  { subst optimized_order.
    change (0%nat :: seq 1 m ++ [0%nat]) with (seq 0 (S m) ++ [0%nat]).
    rewrite lookup_app_r by (rewrite length_seq; lia).
    rewrite length_seq. by replace (m + 1 - S m)%nat with 0%nat by lia. }
  unfold range. rewrite Hlen, Nat.sub_0_r.
  match goal with
  | |- context [for_each ?body _ _] =>
      destruct (for_each_seq_invariant
                  (fun i total => total == inject_Z (Z.of_nat i) * v)
                  body 0 (m + 1) 0) as (total & -> & Htotal)
  end.
  - intros i total [_ Hi] Htotal. rewrite (Hlow i) by lia. simpl.
    destruct (decide (i = m)) as [->|Hne].
    + rewrite Hlast. simpl. rewrite Hcells by lia. simpl.
      eexists. split; [done|]. rewrite Htotal, Nat2Z.inj_succ.
      unfold Z.succ. rewrite inject_Z_plus. ring.
    + rewrite (Hlow (i + 1)%nat) by lia. simpl. rewrite Hcells by lia. simpl.
      eexists. split; [done|]. rewrite Htotal, Nat2Z.inj_succ.
      unfold Z.succ. rewrite inject_Z_plus. ring.
  - simpl. ring.
  - by exists total.
Qed.

(** X9: when at least one company has an address, [optimize_route]
    returns a route over the [m] companies with an address whose order is
    the input order, [0, 1, ..., m, 0]; its distance is [10 * (m + 1)]
    miles and its travel time a thirtieth of that, in hours. *)
Theorem optimize_route_input_order (companies : list Company.t)
    (start_location : string) :
  Exists has_address companies ->
  exists r,
    optimize_route companies start_location = Some r /\
    let m := length (Route.companies r) in
    m = length (filter has_address companies) /\
    Route.optimized_order r = 0%nat :: seq 1 m ++ [0%nat] /\
    Route.total_distance r == 10 * inject_Z (Z.of_nat (m + 1)) /\
    Route.estimated_travel_time r == inject_Z (Z.of_nat (m + 1)) / 3.
Proof.
  intros Hex. destruct companies as [|first_company rest];
    [by apply Exists_nil in Hex|].
  unfold optimize_route.
  fold (add_all (Route.new (route_day first_company)) (first_company :: rest)).
  set (route := add_all _ _).
  pose proof (add_all_length (Route.new (route_day first_company))
                (first_company :: rest)) as Hlen.
  fold route in Hlen. change (length (Route.companies (Route.new _)))
    with 0%nat in Hlen. simpl in Hlen.
  assert (0 < length (filter has_address (first_company :: rest)))%nat as Hpos.
  { apply Exists_exists in Hex as (c & Hc & Haddr).
    assert (c ∈ filter has_address (first_company :: rest)) as Hin
      by (by apply list_elem_of_filter).
    destruct (filter has_address (first_company :: rest));
      [by apply elem_of_nil in Hin|simpl; lia]. }
  destruct (Route.companies route) as [|ref refs] eqn:Hrefs;
    [simpl in Hlen; lia|].
  rewrite <- Hrefs in *. clear Hrefs ref refs.
  set (m := length (Route.companies route)) in *.
  destruct (_calculate_distance_matrix_cells (Route.companies route)
              start_location) as (distances & -> & Hsq & Hcells).
  fold m in Hsq, Hcells. cbv [mbind option_bind].
  assert (forall p q, (p < S m)%nat -> (q < S m)%nat -> p <> q ->
                      cell distances p q = Some 10.0) as Hoff.
  { intros p q Hp Hq Hpq. rewrite Hcells by done. by rewrite decide_False. }
  unfold _solve_tsp_greedy. destruct Hsq as [-> _].
  assert (range 1 (S m) = seq 1 m) as -> by (unfold range; f_equal; lia).
  rewrite (tsp_loop_uniform (S m) 10.0 distances 0 1 m [0%nat] Hoff)
    by lia.
  cbv [mbind option_bind].
  change (([0%nat] ++ seq 1 m) ++ [0%nat]) with (0%nat :: seq 1 m ++ [0%nat]).
  destruct (total_distance_uniform (S m) 10.0 distances m Hoff)
    as (total & Hrun & Htotal); [lia..|].
  cbv [mbind option_bind] in Hrun. rewrite Hrun.
  eexists. split; [done|]. cbn [Route.companies Route.optimized_order
    Route.total_distance Route.estimated_travel_time]. fold m.
  split; [lia|]. split; [done|]. rewrite Htotal. split; [|field].
  assert (10.0 == 10) as -> by done. ring.
Qed.

Lemma optimize_route_input_order_witness :
  exists r,
    optimize_route [Samples.bare "a";
                    Samples.located "b" Samples.milwaukee_address;
                    Samples.located "c" Samples.madison_address]
                   "Milwaukee, WI" = Some r /\
    let m := length (Route.companies r) in
    m = length (filter has_address
                  [Samples.bare "a";
                   Samples.located "b" Samples.milwaukee_address;
                   Samples.located "c" Samples.madison_address]) /\
    Route.optimized_order r = 0%nat :: seq 1 m ++ [0%nat] /\
    Route.total_distance r == 10 * inject_Z (Z.of_nat (m + 1)) /\
    Route.estimated_travel_time r == inject_Z (Z.of_nat (m + 1)) / 3.
Proof.
  apply (optimize_route_input_order
           [Samples.bare "a"; Samples.located "b" Samples.milwaukee_address;
            Samples.located "c" Samples.madison_address] "Milwaukee, WI").
  apply Exists_cons_tl, Exists_cons_hd. by eexists.
Defined.

End RouteDetails.

(** ** The weekly schedule *)

Section WeeklySchedule.
Import LogisticsOptimizer.

Lemma add_all_ids route companies :
  CompanyReference.company_id <$> Route.companies (add_all route companies)
  = (CompanyReference.company_id <$> Route.companies route)
    ++ (Company.id <$> filter has_address companies).
Proof.
  revert route. induction companies as [|c cs IH]; intros route.
  - simpl. by rewrite app_nil_r.
  - rewrite add_all_cons, IH, filter_cons. case_decide as Hc.
    + destruct Hc as [a Ha]. rewrite (add_company_with_address route c 0 a Ha).
      cbn [Route.companies]. rewrite fmap_app, fmap_cons, <- app_assoc.
      done.
    + rewrite (add_company_no_address route c 0); [done|].
      destruct (Company.address c) eqn:Ha; [|done].
      exfalso. apply Hc. by eexists.
Qed.

(** [optimize_route] on a non-empty list: the day label and the
    references of the route. *)
Lemma optimize_route_shape first_company rest start_location :
  exists r,
    optimize_route (first_company :: rest) start_location = Some r /\
    route_for "" (first_company :: rest) r.
Proof.
  set (route := add_all (Route.new (route_day first_company))
                        (first_company :: rest)).
  assert (route_for "" (first_company :: rest) route) as Hroute.
  { split; [apply add_all_day|]. subst route. by rewrite add_all_ids. }
  destruct (Route.companies route) as [|ref refs] eqn:Hrefs.
  - exists route. split; [|done]. unfold optimize_route.
    fold (add_all (Route.new (route_day first_company)) (first_company :: rest)).
    fold route. by rewrite Hrefs.
  - destruct (optimize_route_routed first_company rest start_location)
      as (middle & total & -> & _); [fold route; by rewrite Hrefs|].
    eexists. split; [done|]. exact Hroute.
Qed.

Lemma schedule_step_route companies_by_day routes day day_companies :
  companies_by_day !! day = Some day_companies ->
  exists r,
    schedule_step companies_by_day routes day = Some (<[day := r]> routes) /\
    route_for day day_companies r.
Proof.
  intros Hday. unfold schedule_step. rewrite Hday. simpl.
  destruct day_companies as [|first_company rest]; [by eexists|].
  destruct (optimize_route_shape first_company rest (day_start_location day))
    as (r & -> & Hr).
  by exists r.
Qed.

(** No company is assigned to Friday: its schedule entry is a string, and
    the fallback is Thursday. *)
Lemma day_of_not_Friday cls c :
  day_of (Config.get_location_schedule cls) c <> "Friday".
Proof.
  unfold day_of. destruct (Company.address c) as [a|]; [|done].
  unfold matching_day, Config.get_location_schedule.
  cbn [List.find day_matches snd].
  destruct (existsb _ (Config.MONDAY_LOCATIONS cls)); [done|].
  destruct (existsb _ (Config.TUESDAY_LOCATIONS cls)); [done|].
  by destruct (existsb _ (Config.WEDNESDAY_LOCATIONS cls)).
Qed.

(** The routes of a configured schedule, day by day. *)
Lemma generate_weekly_schedule_lookup cls companies :
  let schedule := Config.get_location_schedule cls in
  exists routes,
    generate_weekly_schedule schedule companies = Some routes /\
    forall d,
      if bool_decide (d ∈ schedule.*1)
      then exists r, routes !! d = Some r /\
             route_for d (filter (assigned_to schedule d) companies) r
      else routes !! d = None.
Proof.
  intros schedule. unfold generate_weekly_schedule.
  destruct (assign_companies_to_days_lookup cls companies)
    as (days & Hdays & Hlookup).
  fold schedule in Hdays, Hlookup. rewrite Hdays. simpl.
  subst schedule. rewrite get_location_schedule_keys in *.
  set (schedule := Config.get_location_schedule cls) in *.
  assert (forall d, d ∈ ["Monday"; "Tuesday"; "Wednesday"; "Thursday"; "Friday"] ->
            forall routes, exists r,
              schedule_step days routes d = Some (<[d := r]> routes) /\
              route_for d (filter (assigned_to schedule d) companies) r)
    as Hstep.
  { intros d Hd routes. apply schedule_step_route.
    by rewrite Hlookup, bool_decide_eq_true_2. }
  cbn [for_each].
  destruct (Hstep "Monday" ltac:(by repeat constructor) ∅) as (r1 & -> & H1). simpl.
  destruct (Hstep "Tuesday" ltac:(by repeat constructor) (<["Monday" := r1]> ∅))
    as (r2 & -> & H2). simpl.
  destruct (Hstep "Wednesday" ltac:(by repeat constructor)
              (<["Tuesday" := r2]> (<["Monday" := r1]> ∅)))
    as (r3 & -> & H3). simpl.
  destruct (Hstep "Thursday" ltac:(by repeat constructor)
              (<["Wednesday" := r3]> (<["Tuesday" := r2]>
                 (<["Monday" := r1]> ∅))))
    as (r4 & -> & H4). simpl.
  destruct (Hstep "Friday" ltac:(by repeat constructor)
              (<["Thursday" := r4]> (<["Wednesday" := r3]>
                 (<["Tuesday" := r2]> (<["Monday" := r1]> ∅)))))
    as (r5 & -> & H5). simpl.
  eexists. split; [done|]. intros d.
  case_bool_decide as Hd.
  - rewrite !elem_of_cons, elem_of_nil in Hd.
    destruct Hd as [->|[->|[->|[->|[->|[]]]]]]; eexists; (split; [|eassumption]);
      by simplify_map_eq.
  - rewrite !elem_of_cons, elem_of_nil in Hd.
    repeat (rewrite lookup_insert_ne by (intros <-; tauto)). done.
Qed.

(** X10: on a configured schedule [generate_weekly_schedule] never
    raises; it returns one route for each of the five weekdays and for no
    other key; the route of a day lists the companies that
    [assign_companies_to_days] puts on that day, in input order; the
    Friday route is always the empty route. *)
Theorem generate_weekly_schedule_days (cls : Config.t)
    (companies : list Company.t) :
  let schedule := Config.get_location_schedule cls in
  exists routes,
    generate_weekly_schedule schedule companies = Some routes /\
    (forall d, is_Some (routes !! d)
               <-> d ∈ ["Monday"; "Tuesday"; "Wednesday"; "Thursday"; "Friday"]) /\
    (forall d r, routes !! d = Some r ->
       CompanyReference.company_id <$> Route.companies r
       = Company.id <$> filter (assigned_to schedule d) companies) /\
    routes !! "Friday" = Some (Route.new "Friday").
Proof.
  intros schedule.
  destruct (generate_weekly_schedule_lookup cls companies)
    as (routes & Hrun & Hlookup).
  fold schedule in Hrun, Hlookup. exists routes. split; [done|].
  assert (forall d l, Forall has_address (filter (assigned_to schedule d) l))
    as Haddr.
  { intros d l. apply Forall_forall. intros c [[Hcity _] _]%list_elem_of_filter.
    unfold has_city in Hcity. unfold has_address.
    by destruct (Company.address c). }
  assert (forall l : list Company.t, Forall has_address l ->
                                     filter has_address l = l) as Hkeep.
  { induction 1 as [|x l Hx Hl IH]; [done|].
    by rewrite filter_cons_True, IH. }
  split; [|split].
  - intros d. specialize (Hlookup d).
    subst schedule. rewrite get_location_schedule_keys in Hlookup.
    case_bool_decide as Hd.
    + destruct Hlookup as (r & -> & _). split; [done|by eexists].
    + rewrite Hlookup. split; [by intros [? ?]|done].
  - intros d r Hr. specialize (Hlookup d). case_bool_decide as Hd.
    + destruct Hlookup as (r' & Hr' & Hfor).
      rewrite Hr in Hr'. injection Hr' as <-.
      unfold route_for in Hfor.
      destruct (filter (assigned_to schedule d) companies) as [|c cs] eqn:Hf.
      * by subst r.
      * destruct Hfor as [_ ->]. rewrite <- Hf. by rewrite Hkeep.
    + congruence.
  - specialize (Hlookup "Friday").
    rewrite bool_decide_eq_true_2 in Hlookup
      by (subst schedule; rewrite get_location_schedule_keys; by repeat constructor).
    destruct Hlookup as (r & -> & Hfor). f_equal.
    assert (filter (assigned_to schedule "Friday") companies = []) as Hnone.
    { clear. induction companies as [|c cs IH]; [done|].
      rewrite filter_cons_False; [done|].
      intros [_ Hday]. by apply day_of_not_Friday in Hday. }
    by rewrite Hnone in Hfor.
Qed.

(** X11: the route stored under a day that has companies carries as its
    [day] the region of the first company assigned to that day, and
    "Monday" when that company has no location or an empty region; only
    the route of a day without companies carries the day itself. *)
Theorem generate_weekly_schedule_labels (cls : Config.t)
    (companies : list Company.t) :
  let schedule := Config.get_location_schedule cls in
  exists routes,
    generate_weekly_schedule schedule companies = Some routes /\
    forall d r, routes !! d = Some r ->
      match filter (assigned_to schedule d) companies with
      | [] => Route.day r = d
      | first_company :: _ =>
          Route.day r
          = match Company.location first_company with
            | Some location =>
                match GeoLocation.region location with
                | Some region => if PyStr.truthy region then region
                                 else "Monday"
                | None => "Monday"
                end
            | None => "Monday"
            end
      end.
Proof.
  intros schedule.
  destruct (generate_weekly_schedule_lookup cls companies)
    as (routes & Hrun & Hlookup).
  fold schedule in Hrun, Hlookup. exists routes. split; [done|].
  intros d r Hr. specialize (Hlookup d). case_bool_decide as Hd; [|congruence].
  destruct Hlookup as (r' & Hr' & Hfor).
  rewrite Hr in Hr'. injection Hr' as <-.
  unfold route_for in Hfor.
  destruct (filter (assigned_to schedule d) companies) as [|c cs];
    [by subst r|].
  destruct Hfor as [-> _]. unfold route_day.
  destruct (Company.location c) as [location|]; [|done].
  by destruct (GeoLocation.region location).
Qed.

End WeeklySchedule.

(** ** Owner-operated and growth-mode filters *)

Section Filters.
Import PyStr DataNormalizer IndustryDiscovery.

Lemma filter_raising_total {A : Type} (p : A -> option bool) (g : A -> bool)
    (l : list A) :
  (forall x, x ∈ l -> p x = Some (g x)) ->
  filter_raising p l = Some (List.filter g l).
Proof.
  induction l as [|x l IH]; intros Hp; [done|]. simpl.
  rewrite (Hp x) by apply list_elem_of_here. simpl.
  rewrite IH by (intros y Hy; apply Hp; by apply list_elem_of_further).
  simpl. by destruct (g x).
Qed.

Lemma filter_raising_None {A : Type} (p : A -> option bool) (l : list A) :
  filter_raising p l = None <-> exists x, x ∈ l /\ p x = None.
Proof.
  induction l as [|x l IH]; simpl.
  - split; [done|]. by intros (x & ?%elem_of_nil & _).
  - destruct (p x) as [keep|] eqn:Hx; simpl.
    + destruct (filter_raising p l) as [rest|] eqn:Hl; simpl.
      * split; [done|]. intros (y & [->|Hy]%elem_of_cons & Hnone);
          [congruence|].
        destruct IH as [_ IH]. by discriminate IH; eauto.
      * split; [|done]. intros _. destruct IH as [IH _].
        destruct (IH eq_refl) as (y & Hy & Hnone).
        exists y. split; [by apply list_elem_of_further|done].
    + split; [|done]. intros _. exists x. split; [apply list_elem_of_here|done].
Qed.

Lemma number_gt_500 (n : Z) :
  py_truthy (PInt n) && number_gt (PInt n) 500 = (500 <? n)%Z.
Proof.
  simpl. destruct (500 <? n)%Z eqn:Hn.
  - apply Z.ltb_lt in Hn. apply andb_true_iff. split.
    + apply negb_true_iff, Z.eqb_neq. lia.
    + apply negb_true_iff. destruct (Qle_bool (inject_Z n) 500) eqn:Hle; [|done].
      apply Qle_bool_iff in Hle. change 500 with (inject_Z 500) in Hle.
      rewrite <- Zle_Qle in Hle. lia.
  - apply Z.ltb_ge in Hn. apply andb_false_iff. right.
    apply negb_false_iff, Qle_bool_iff. change 500 with (inject_Z 500).
    by rewrite <- Zle_Qle.
Qed.

Lemma owner_title_loop_roles (executives : list Executive.t) :
  owner_title_loop
    ((fun exec => PDict {[ "role" := PStr (Executive.role exec) ]})
     <$> executives)
  = Some (existsb (fun exec => any_in owner_titles (lower (Executive.role exec)))
                  executives).
Proof.
  induction executives as [|exec execs IH]; [reflexivity|].
  rewrite fmap_cons. cbn [owner_title_loop existsb].
  unfold py_get. rewrite lookup_singleton_eq.
  cbn [default from_option id py_lower mbind option_bind].
  destruct (any_in owner_titles (lower (Executive.role exec)));
    [reflexivity|].
  by rewrite IH.
Qed.

Lemma is_owner_operated_company (c : Company.t) :
  is_owner_operated (owner_data c)
  = Some (negb (large c)
          && (owner_titled c || owner_structured c || family_named c)).
Proof.
  unfold is_owner_operated.
  assert (py_get (owner_data c) "executives" (PList [])
          = PList ((fun exec => PDict {[ "role" := PStr (Executive.role exec) ]})
                   <$> Company.executives c)) as -> by reflexivity.
  assert (py_get (owner_data c) "name" (PStr "") = PStr (Company.name c))
    as -> by reflexivity.
  assert (py_get (owner_data c) "legal_structure" (PStr "")
          = match Company.legal_structure c with
            | Some legal_structure => PStr (LegalStructure_value legal_structure)
            | None => PStr ""
            end) as -> by reflexivity.
  assert (py_truthy (py_get (owner_data c) "employee_count" PNone)
          && number_gt (py_get (owner_data c) "employee_count" PNone) 500
          = large c) as ->.
  { assert (py_get (owner_data c) "employee_count" PNone
            = match Company.financials c with
              | Some financials =>
                  match Financials.employee_count financials with
                  | Some n => PInt n
                  | None => PNone
                  end
              | None => PNone
              end) as -> by reflexivity.
    unfold large. destruct (Company.financials c) as [f|]; [|done].
    destruct (Financials.employee_count f) as [n|]; [|done].
    apply number_gt_500. }
  cbv zeta. destruct (large c); [done|].
  cbn [py_iter mbind option_bind]. rewrite owner_title_loop_roles.
  fold (owner_titled c). cbn [negb andb].
  destruct (owner_titled c); [done|]. cbn [orb].
  assert (match
            match Company.legal_structure c with
            | Some legal_structure =>
                PStr (LegalStructure_value legal_structure)
            | None => PStr ""
            end
          with
          | PStr s => any_in ["llc"; "family"; "proprietor"] (lower s)
          | _ => false
          end = owner_structured c) as ->.
  { unfold owner_structured.
    by destruct (Company.legal_structure c) as [[]|]. }
  destruct (owner_structured c); [done|]. reflexivity.
Qed.

(** X12: [filter_owner_operated_companies] never raises.  It keeps, in
    input order, exactly the companies that do not have more than 500
    employees on record and that have an executive whose role names an
    owner, founder, president, CEO or principal, or whose legal structure
    is LLC, family-owned or sole proprietorship, or whose name carries a
    family indicator. *)
Theorem filter_owner_operated_companies_spec (companies : list Company.t) :
  filter_owner_operated_companies companies
  = Some (List.filter
            (fun c => negb (large c)
                      && (owner_titled c || owner_structured c
                          || family_named c))
            companies).
Proof.
  unfold filter_owner_operated_companies.
  apply filter_raising_total. intros c _. apply is_owner_operated_company.
Qed.

Lemma is_in_growth_mode_company (c : Company.t) :
  is_in_growth_mode (growth_data c)
  = if growth_check_raises c then None else Some (growth_mode c).
Proof.
  unfold is_in_growth_mode, growth_check_raises, growth_mode.
  assert (py_truthy (py_get (growth_data c) "growth_rate" PNone)
          && number_ge (py_get (growth_data c) "growth_rate" PNone) 5
          = fast_growing c) as ->.
  { assert (py_get (growth_data c) "growth_rate" PNone
            = match Company.financials c with
              | Some financials =>
                  match Financials.growth_rate financials with
                  | Some x => PFloat x
                  | None => PNone
                  end
              | None => PNone
              end) as -> by reflexivity.
    unfold fast_growing. destruct (Company.financials c) as [f|]; [|done].
    destruct (Financials.growth_rate f) as [g|]; [|done]. simpl.
    destruct (Qle_bool 5 g) eqn:Hg; [|by rewrite andb_false_r].
    rewrite andb_true_r. apply negb_true_iff.
    destruct (Qeq_bool g 0) eqn:H0; [|done].
    apply Qeq_bool_iff in H0. apply Qle_bool_iff in Hg. rewrite H0 in Hg.
    by apply Qle_bool_iff in Hg. }
  destruct (fast_growing c); [done|]. cbn [negb andb orb].
  assert (py_lower (py_get (growth_data c) "description" (PStr ""))
          = Some (lower (default "" (Company.description c)))) as ->.
  { assert (py_get (growth_data c) "description" (PStr "")
            = match Company.description c with
              | Some s => if truthy s then PStr s else PStr ""
              | None => PStr ""
              end) as -> by reflexivity.
    destruct (Company.description c) as [s|]; [|done]. simpl.
    destruct (truthy s) eqn:Hs; [done|].
    apply negb_false_iff, String.eqb_eq in Hs. by subst s. }
  cbn [mbind option_bind]. fold (hiring_described c).
  destruct (hiring_described c); [done|]. cbn [negb andb orb].
  assert (forall field kws,
            Forall (fun kw => truthy kw = true) kws ->
            py_lower (indicator_text c field)
            = (if text_missing c field then None
               else Some (lower (text_of c field)))
            /\ truthy (lower (text_of c field))
               && any_in kws (lower (text_of c field))
               = any_in kws (lower (text_of c field))) as Htext.
  { intros field kws Hkws. unfold indicator_text, text_missing, text_of.
    split.
    - destruct (Company.tax_indicators c) as [t|]; [|done].
      by destruct (field t).
    - destruct (truthy (lower _)) eqn:Hs; [done|].
      apply negb_false_iff, String.eqb_eq in Hs. rewrite Hs. simpl.
      symmetry. apply existsb_false. intros kw Hkw.
      apply (proj1 (Forall_forall _ _) Hkws) in Hkw.
      by destruct kw. }
  assert (py_get (growth_data c) "recent_developments" (PStr "")
          = indicator_text c TaxIndicators.recent_developments) as ->
    by reflexivity.
  assert (py_get (growth_data c) "financing_activity" (PStr "")
          = indicator_text c TaxIndicators.financing_activity) as ->
    by reflexivity.
  destruct (Htext TaxIndicators.recent_developments expansion_indicators)
    as [-> Hrecent]; [by repeat constructor|].
  destruct (Htext TaxIndicators.financing_activity financing_terms)
    as [-> Hfinancing]; [by repeat constructor|].
  destruct (text_missing c TaxIndicators.recent_developments); [done|].
  cbn [mbind option_bind orb]. rewrite Hrecent.
  fold (expansion_reported c).
  destruct (expansion_reported c); [done|]. cbn [negb andb orb].
  destruct (text_missing c TaxIndicators.financing_activity); [done|].
  cbn [mbind option_bind]. by rewrite Hfinancing.
Qed.

(** X13: [filter_growth_mode_companies] raises exactly when the list
    holds a company whose growth rate is unknown or below 5, whose
    description carries no hiring indicator, and whose tax indicators
    hold [None] for [recent_developments], or report no expansion and
    hold [None] for [financing_activity]; when it does not raise it keeps,
    in input order, the companies with a growth rate of at least 5, a
    hiring indicator, a reported expansion or a reported financing. *)
Theorem filter_growth_mode_companies_spec (companies : list Company.t) :
  (filter_growth_mode_companies companies = None
   <-> exists c, c ∈ companies /\ growth_check_raises c = true) /\
  (forall kept, filter_growth_mode_companies companies = Some kept ->
                kept = List.filter growth_mode companies).
Proof.
  unfold filter_growth_mode_companies. split.
  - rewrite filter_raising_None. split.
    + intros (c & Hc & Hnone). exists c. split; [done|].
      rewrite is_in_growth_mode_company in Hnone.
      by destruct (growth_check_raises c).
    + intros (c & Hc & Hraises). exists c. split; [done|].
      by rewrite is_in_growth_mode_company, Hraises.
  - intros kept Hkept.
    assert (forall c, c ∈ companies -> growth_check_raises c = false) as Hsafe.
    { intros c Hc. destruct (growth_check_raises c) eqn:Hraises; [|done].
      assert (filter_raising
                (fun company => is_in_growth_mode (growth_data company))
                companies = None) as Hnone.
      { apply filter_raising_None. exists c. split; [done|].
        by rewrite is_in_growth_mode_company, Hraises. }
      congruence. }
    rewrite (filter_raising_total _ growth_mode) in Hkept; [congruence|].
    intros c Hc. by rewrite is_in_growth_mode_company, (Hsafe c Hc).
Qed.

Lemma filter_growth_mode_companies_spec_witness :
  filter_growth_mode_companies [Samples.full_company; Samples.fresh "new"]
  = None.
Proof.
  apply (proj1 (filter_growth_mode_companies_spec
                  [Samples.full_company; Samples.fresh "new"])).
  exists (Samples.fresh "new"). split; [|reflexivity].
  apply list_elem_of_further, list_elem_of_here.
Defined.

End Filters.

(** ** Industry names and industry filters *)

Section Industries.
Import PyStr DataNormalizer IndustryDiscovery.

Lemma prefix_app_contains (a b s : string) :
  String.prefix (a +:+ b) s = true -> contains b s = true.
Proof.
  revert s. induction a as [|c a IH]; intros s.
  - change ("" +:+ b) with b. intros Hb.
    destruct s; cbn [contains]; by rewrite Hb.
  - change (String c a +:+ b) with (String c (a +:+ b)).
    destruct s as [|c' s]; cbn [String.prefix]; [done|].
    destruct (ascii_dec c c'); [|done].
    intros Hs%IH. cbn [contains]. rewrite Hs. apply orb_true_r.
Qed.

(** A text that contains a phrase contains the end of the phrase. *)
Lemma contains_app_r (a b s : string) :
  contains (a +:+ b) s = true -> contains b s = true.
Proof.
  induction s as [|c s IH]; cbn [contains].
  - rewrite orb_false_r. intros H%prefix_app_contains. exact H.
  - intros [H|H]%orb_true_iff.
    + apply prefix_app_contains in H. exact H.
    + rewrite (IH H). apply orb_true_r.
Qed.

Lemma any_in_elem (kws : list string) (kw s : string) :
  kw ∈ kws -> contains kw s = true -> any_in kws s = true.
Proof.
  intros Hkw Hs. apply existsb_exists. exists kw.
  split; [by apply list_elem_of_In|done].
Qed.

Lemma any_in_empty (kws : list string) :
  Forall (fun kw => truthy kw = true) kws -> any_in kws "" = false.
Proof.
  intros Hkws. apply existsb_false. intros kw Hkw.
  apply (proj1 (Forall_forall _ _) Hkws) in Hkw. by destruct kw.
Qed.

Lemma heavy_equipment_manufacturing (industry_lower : string) :
  any_in manufacturing_keywords industry_lower = false ->
  any_in ["heavy equipment"] industry_lower = false.
Proof.
  intros Hman. destruct (any_in ["heavy equipment"] industry_lower) eqn:Hheavy;
    [|done].
  simpl in Hheavy. rewrite orb_false_r in Hheavy.
  apply (contains_app_r "heavy " "equipment") in Hheavy.
  rewrite (any_in_elem manufacturing_keywords "equipment") in Hman; [done| |done].
  unfold manufacturing_keywords. by repeat constructor.
Qed.

Lemma trucking_subcategory_not_heavy (industry_lower : string) :
  any_in manufacturing_keywords industry_lower = false ->
  trucking_subcategory industry_lower <> "Heavy Equipment Transporters".
Proof.
  intros Hheavy%heavy_equipment_manufacturing. unfold trucking_subcategory.
  rewrite Hheavy. by repeat destruct (any_in _ _).
Qed.

Lemma normalize_industry_not_heavy (industry : string) :
  Normalized.subcategory (normalize_industry industry)
  <> "Heavy Equipment Transporters".
Proof.
  unfold normalize_industry. destruct (truthy industry); [|done].
  cbn [negb]. cbv zeta.
  destruct (any_in construction_keywords (lower industry)).
  { cbn [Normalized.subcategory]. unfold construction_subcategory.
    by repeat destruct (any_in _ _). }
  destruct (any_in manufacturing_keywords (lower industry)) eqn:Hman.
  { cbn [Normalized.subcategory]. unfold manufacturing_subcategory.
    by repeat destruct (any_in _ _). }
  destruct (any_in trucking_keywords (lower industry)); [|done].
  cbn [Normalized.subcategory]. by apply trucking_subcategory_not_heavy.
Qed.

(** X14: [normalize_industry] keeps the input as [primary]; the
    subcategory it returns is a segment that [get_industry_segments] lists
    for the returned category, or that category's "Other ..." entry; and
    it is never "Heavy Equipment Transporters", because a text with "heavy
    equipment" holds the manufacturing keyword "equipment". *)
Theorem normalize_industry_subcategory (industry : string) :
  let normalized := normalize_industry industry in
  Normalized.subcategory normalized <> "Heavy Equipment Transporters" /\
  (industry = "" /\ normalized = Normalized.mk "" "" ""
   \/ industry <> "" /\ Normalized.primary normalized = industry /\
      (Normalized.category normalized = "Construction" /\
       Normalized.subcategory normalized
         ∈ "Other Construction" :: get_industry_segments "construction"
       \/ Normalized.category normalized = "Manufacturing" /\
          Normalized.subcategory normalized
            ∈ "Other Manufacturing" :: get_industry_segments "manufacturing"
       \/ Normalized.category normalized = "Trucking & Logistics" /\
          Normalized.subcategory normalized
            ∈ "Other Trucking & Logistics" :: get_industry_segments "trucking"
       \/ Normalized.category normalized = "Other" /\
          Normalized.subcategory normalized = "Other")).
Proof.
  intros normalized. split; [apply normalize_industry_not_heavy|].
  subst normalized. unfold normalize_industry.
  destruct (truthy industry) eqn:Hindustry; cbn [negb]; cbv zeta.
  - right. split; [intros ->; discriminate|].
    destruct (any_in construction_keywords (lower industry)).
    { cbn [Normalized.primary Normalized.category Normalized.subcategory].
      split; [done|]. left. split; [done|].
      unfold construction_subcategory.
      repeat destruct (any_in _ _); vm_compute; by repeat constructor. }
    destruct (any_in manufacturing_keywords (lower industry)).
    { cbn [Normalized.primary Normalized.category Normalized.subcategory].
      split; [done|]. right; left. split; [done|].
      unfold manufacturing_subcategory.
      repeat destruct (any_in _ _); vm_compute; by repeat constructor. }
    destruct (any_in trucking_keywords (lower industry)).
    { cbn [Normalized.primary Normalized.category Normalized.subcategory].
      split; [done|]. right; right; left. split; [done|].
      unfold trucking_subcategory.
      repeat destruct (any_in _ _); vm_compute; by repeat constructor. }
    cbn [Normalized.primary Normalized.category Normalized.subcategory].
    split; [done|]. right; right; right. by split.
  - left. apply negb_false_iff, String.eqb_eq in Hindustry. by split.
Qed.

Lemma prefix_trans (a b c : string) :
  String.prefix a b = true -> String.prefix b c = true ->
  String.prefix a c = true.
Proof.
  revert a b. induction c as [|x c IH]; intros a b.
  - destruct b as [|y b]; [|by destruct a]. by destruct a.
  - destruct a as [|z a]; [done|]. destruct b as [|y b]; [done|].
    cbn [String.prefix]. destruct (ascii_dec z y) as [->|]; [|done].
    destruct (ascii_dec y x) as [->|]; [|done].
    destruct (ascii_dec x x); [|done]. apply IH.
Qed.

(** A list of code prefixes accepts the codes that its shortest members
    accept. *)
Lemma existsb_prefix_roots (roots codes : list string) (code : string) :
  forallb (fun p => existsb (fun r => String.prefix r p) roots) codes = true ->
  forallb (fun r => existsb (String.eqb r) codes) roots = true ->
  existsb (fun p => String.prefix p code) codes
  = existsb (fun p => String.prefix p code) roots.
Proof.
  intros Hcodes Hroots. rewrite forallb_forall in Hcodes, Hroots.
  apply eq_true_iff_eq. rewrite !existsb_exists. split.
  - intros (p & Hp & Hprefix).
    apply Hcodes, existsb_exists in Hp as (r & Hr & Hrp).
    exists r. split; [done|]. by apply (prefix_trans r p code).
  - intros (r & Hr & Hprefix).
    apply Hroots, existsb_exists in Hr as (p & Hp & ->%String.eqb_eq). eauto.
Qed.

(** Two keyword lists with the same members accept the same texts. *)
Lemma any_in_same_keywords (kws1 kws2 : list string) (s : string) :
  forallb (fun kw => existsb (String.eqb kw) kws2) kws1 = true ->
  forallb (fun kw => existsb (String.eqb kw) kws1) kws2 = true ->
  any_in kws1 s = any_in kws2 s.
Proof.
  intros H12 H21. rewrite forallb_forall in H12, H21.
  apply eq_true_iff_eq. unfold any_in. rewrite !existsb_exists.
  split; intros (kw & Hkw & Hs).
  - apply H12, existsb_exists in Hkw as (kw' & Hkw' & ->%String.eqb_eq). eauto.
  - apply H21, existsb_exists in Hkw as (kw' & Hkw' & ->%String.eqb_eq). eauto.
Qed.

Lemma in_industry_by_description_keywords (c : Company.t)
    (industry_type : string) (keywords keywords' : list string) :
  industry_keywords !! industry_type = Some keywords' ->
  forallb (fun kw => existsb (String.eqb kw) keywords) keywords' = true ->
  forallb (fun kw => existsb (String.eqb kw) keywords') keywords = true ->
  Forall (fun kw => truthy kw = true) keywords ->
  in_industry_by_description c industry_type
  = description_mentions c keywords.
Proof.
  intros Hlookup H1 H2 Hne.
  unfold in_industry_by_description, description_mentions. rewrite Hlookup.
  destruct (Company.description c) as [d|]; [|done]. cbv zeta.
  fold (any_in keywords' (lower d)).
  rewrite (any_in_same_keywords keywords' keywords) by done.
  destruct (truthy d) eqn:Hd; [done|].
  apply negb_false_iff, String.eqb_eq in Hd. subst d. cbn [andb].
  symmetry. by apply any_in_empty.
Qed.

Lemma in_industry_by_naics_roots (c : Company.t) (i : Industry.t)
    (industry_type : string) (roots codes : list string) :
  Company.industry c = Some i ->
  industry_naics_codes !! industry_type = Some codes ->
  forallb (fun p => existsb (fun r => String.prefix r p) roots) codes = true ->
  forallb (fun r => existsb (String.eqb r) codes) roots = true ->
  Forall (fun r => truthy r = true) roots ->
  in_industry_by_naics i industry_type = naics_starts c roots.
Proof.
  intros Hi Hlookup H1 H2 Hne.
  unfold in_industry_by_naics, naics_starts. rewrite Hi, Hlookup.
  destruct (Industry.naics_code i) as [code|]; [|done].
  rewrite (existsb_prefix_roots roots codes) by done.
  destruct (truthy code) eqn:Hcode; [done|].
  apply negb_false_iff, String.eqb_eq in Hcode. subst code. cbn [andb].
  symmetry. apply existsb_false. intros r Hr.
  apply (proj1 (Forall_forall _ _) Hne) in Hr. by destruct r.
Qed.

Lemma normalize_industry_category (primary : string) :
  Normalized.category (normalize_industry primary)
  = if negb (truthy primary) then ""
    else if any_in construction_keywords (lower primary) then "Construction"
    else if any_in manufacturing_keywords (lower primary) then "Manufacturing"
    else if any_in trucking_keywords (lower primary)
         then "Trucking & Logistics"
    else "Other".
Proof.
  unfold normalize_industry. destruct (negb (truthy primary)); [done|].
  cbv zeta. by repeat destruct (any_in _ _).
Qed.

(** X15: a company without an industry is in no industry.  With an
    industry, it is in "construction" when its primary label, or its
    description, holds a construction keyword, or its NAICS code starts
    with 23; in "manufacturing" when its primary label holds a
    manufacturing keyword and no construction keyword, or its description
    holds a manufacturing keyword, or its NAICS code starts with 31, 32 or
    33; in "trucking" when its description holds a trucking keyword or its
    NAICS code starts with 48 or 493: the primary label never puts a
    company in "trucking". *)
Theorem _is_in_industry_spec (company : Company.t) :
  let has_industry := bool_decide (is_Some (Company.industry company)) in
  _is_in_industry company "construction"
  = has_industry
    && (primary_mentions company construction_keywords
        || naics_starts company ["23"]
        || description_mentions company construction_keywords) /\
  _is_in_industry company "manufacturing"
  = has_industry
    && (negb (primary_mentions company construction_keywords)
        && primary_mentions company manufacturing_keywords
        || naics_starts company ["31"; "32"; "33"]
        || description_mentions company manufacturing_keywords) /\
  _is_in_industry company "trucking"
  = has_industry
    && (naics_starts company ["48"; "493"]
        || description_mentions company trucking_keywords).
Proof.
  intros has_industry. subst has_industry. unfold _is_in_industry.
  destruct (Company.industry company) as [i|] eqn:Hi; [|done].
  rewrite bool_decide_eq_true_2 by (by eexists). cbn [andb].
  rewrite (in_industry_by_description_keywords company "construction"
             construction_keywords _ eq_refl eq_refl eq_refl)
    by (by repeat constructor).
  rewrite (in_industry_by_description_keywords company "manufacturing"
             manufacturing_keywords _ eq_refl eq_refl eq_refl)
    by (by repeat constructor).
  rewrite (in_industry_by_description_keywords company "trucking"
             trucking_keywords _ eq_refl eq_refl eq_refl)
    by (by repeat constructor).
  rewrite (in_industry_by_naics_roots company i "construction" ["23"] _
             Hi eq_refl eq_refl eq_refl) by (by repeat constructor).
  rewrite (in_industry_by_naics_roots company i "manufacturing"
             ["31"; "32"; "33"] _ Hi eq_refl eq_refl eq_refl)
    by (by repeat constructor).
  rewrite (in_industry_by_naics_roots company i "trucking" ["48"; "493"] _
             Hi eq_refl eq_refl eq_refl) by (by repeat constructor).
  unfold in_industry_by_primary, primary_mentions. rewrite Hi.
  rewrite normalize_industry_category.
  destruct (truthy (Industry.primary i)) eqn:Hprimary; cbn [negb andb].
  - destruct (any_in construction_keywords (lower (Industry.primary i)));
      [by repeat split|].
    destruct (any_in manufacturing_keywords (lower (Industry.primary i)));
      [by repeat split|].
    by destruct (any_in trucking_keywords (lower (Industry.primary i))).
  - apply negb_false_iff, String.eqb_eq in Hprimary. rewrite Hprimary.
    by repeat split.
Qed.

Lemma _is_in_segment_heavy_equipment (company : Company.t) :
  _is_in_segment company "Heavy Equipment Transporters" = false.
Proof.
  unfold _is_in_segment.
  destruct (Company.industry company) as [i|]; [|done].
  destruct (Company.description company) as [d|]; [|done].
  destruct (negb (truthy d)); [done|].
  assert (String.eqb
            (Normalized.subcategory (normalize_industry (Industry.primary i)))
            "Heavy Equipment Transporters" = false) as ->.
  { apply String.eqb_neq, normalize_industry_not_heavy. }
  by rewrite andb_false_r.
Qed.

(** X16: "Heavy Equipment Transporters" is a trucking segment of
    [get_industry_segments], and [filter_companies_by_segment] returns
    the empty list for it, whatever the companies and the industry
    type. *)
Theorem filter_companies_by_segment_heavy_equipment
    (companies : list Company.t) (industry_type : string) :
  "Heavy Equipment Transporters" ∈ get_industry_segments "trucking" /\
  filter_companies_by_segment companies industry_type
                              "Heavy Equipment Transporters" = [].
Proof.
  split; [vm_compute; by repeat constructor|].
  unfold filter_companies_by_segment.
  induction companies as [|c cs IH]; [done|]. cbn [List.filter].
  by rewrite _is_in_segment_heavy_equipment, andb_false_r.
Qed.

End Industries.

(** ** Addresses *)

Section Addresses.
Import PyStr DataNormalizer.

Lemma chars_inj (s t : string) :
  list_ascii_of_string s = list_ascii_of_string t -> s = t.
Proof.
  intros H. rewrite <- (string_of_list_ascii_of_string s),
    <- (string_of_list_ascii_of_string t). by rewrite H.
Qed.

Lemma chars_rev_app (s t : string) :
  list_ascii_of_string (String.rev_app s t) = List.rev (list_ascii_of_string s) ++ list_ascii_of_string t.
Proof.
  revert t. induction s as [|c s IH]; intros t; [done|].
  cbn [String.rev_app list_ascii_of_string List.rev]. rewrite IH. cbn [list_ascii_of_string].
  by rewrite <- app_assoc.
Qed.

Lemma chars_rev (s : string) :
  list_ascii_of_string (String.rev s) = List.rev (list_ascii_of_string s).
Proof. unfold String.rev. rewrite chars_rev_app. apply app_nil_r. Qed.

Lemma rev_rev (s : string) : String.rev (String.rev s) = s.
Proof. apply chars_inj. by rewrite !chars_rev, rev_involutive. Qed.

Lemma length_chars (s : string) :
  length (list_ascii_of_string s) = String.length s.
Proof. induction s as [|c s IH]; [done|]. simpl. by rewrite IH. Qed.

Lemma has_char_In (c : ascii) (s : string) :
  has_char c s = true <-> In c (list_ascii_of_string s).
Proof.
  unfold has_char. induction s as [|a s IH]; cbn [contains list_ascii_of_string In].
  - split; [done|tauto].
  - cbn [String.prefix]. rewrite orb_true_iff, IH.
    destruct (ascii_dec c a) as [->|Hne].
    + split; [by left|]. intros _. left. by destruct s.
    + split; [intros [?|?]; [done|by right]|].
      intros [?|?]; [congruence|by right].
Qed.

Lemma lstrip_chars (s : string) :
  exists p, list_ascii_of_string s = p ++ list_ascii_of_string (lstrip s).
Proof.
  induction s as [|c s [p IH]]; [by exists []|]. cbn [lstrip].
  destruct (is_space c).
  - exists (c :: p). cbn [list_ascii_of_string]. by rewrite IH.
  - by exists [].
Qed.

Lemma lstrip_starts_clean (s : string) : starts_clean (lstrip s).
Proof.
  induction s as [|c s IH]; [done|]. cbn [lstrip].
  by destruct (is_space c) eqn:Hc.
Qed.

Lemma lstrip_clean (s : string) : starts_clean s -> lstrip s = s.
Proof. destruct s as [|c s]; [done|]. simpl. by intros ->. Qed.

Lemma lstrip_keeps_last (w : string) (a : list ascii) (c : ascii) :
  list_ascii_of_string w = a ++ [c] -> is_space c = false ->
  exists u, list_ascii_of_string (lstrip w) = u ++ [c].
Proof.
  revert a. induction w as [|x w IH]; intros a Hw Hc.
  - by destruct a.
  - cbn [lstrip]. destruct (is_space x) eqn:Hx; [|by exists a].
    destruct a as [|y a]; cbn [list_ascii_of_string app] in Hw.
    + injection Hw as -> _. congruence.
    + injection Hw as -> Hw. by apply (IH a).
Qed.

Lemma rstrip_starts_clean (t : string) :
  starts_clean t -> starts_clean (rstrip t).
Proof.
  destruct t as [|c t]; [done|]. intros Hc. unfold rstrip.
  destruct (lstrip_keeps_last (String.rev (String c t)) (List.rev (list_ascii_of_string t)) c)
    as [u Hu]; [by rewrite chars_rev|done|].
  assert (list_ascii_of_string (String.rev (lstrip (String.rev (String c t))))
          = c :: List.rev u) as Hrev.
  { rewrite chars_rev, Hu, rev_app_distr. done. }
  destruct (String.rev (lstrip (String.rev (String c t)))) as [|c' r];
    [done|].
  cbn [list_ascii_of_string] in Hrev. injection Hrev as -> _. exact Hc.
Qed.

Lemma lstrip_idem (s : string) : lstrip (lstrip s) = lstrip s.
Proof. apply lstrip_clean, lstrip_starts_clean. Qed.

(** Stripping twice is stripping once. *)
Lemma strip_idem (s : string) : strip (strip s) = strip s.
Proof.
  unfold strip.
  rewrite (lstrip_clean (rstrip (lstrip s)))
    by apply rstrip_starts_clean, lstrip_starts_clean.
  unfold rstrip. by rewrite rev_rev, lstrip_idem.
Qed.

(** The characters of the stripped string are characters of the string,
    and there are no more of them. *)
Lemma strip_chars (s : string) :
  (forall c, In c (list_ascii_of_string (strip s)) -> In c (list_ascii_of_string s)) /\
  (String.length (strip s) <= String.length s)%nat.
Proof.
  assert (forall t, (forall c, In c (list_ascii_of_string (lstrip t)) -> In c (list_ascii_of_string t)) /\
                    (String.length (lstrip t) <= String.length t)%nat) as Hl.
  { intros t. destruct (lstrip_chars t) as [p Hp]. split.
    - intros c Hc. rewrite Hp. apply in_or_app. by right.
    - rewrite <- !length_chars, Hp, length_app. lia. }
  unfold strip, rstrip. split.
  - intros c Hc. rewrite chars_rev, <- in_rev in Hc.
    apply Hl in Hc. rewrite chars_rev, <- in_rev in Hc. by apply Hl.
  - rewrite <- !length_chars, chars_rev, length_rev, !length_chars.
    etrans; [apply Hl|].
    rewrite <- !length_chars, chars_rev, length_rev, !length_chars.
    apply Hl.
Qed.

(** The first piece of a split holds no separator. *)
Lemma split_go_head (sep : ascii) (cur s : string) :
  exists h rest,
    split_go sep cur s = h :: rest /\
    forall c, In c (list_ascii_of_string h) -> In c (list_ascii_of_string cur) \/ c <> sep.
Proof.
  revert cur. induction s as [|a s IH]; intros cur; cbn [split_go].
  - eexists _, _. split; [done|]. intros c Hc.
    rewrite chars_rev, <- in_rev in Hc. by left.
  - destruct (Ascii.eqb a sep) eqn:Ha.
    + eexists _, _. split; [done|]. intros c Hc.
      rewrite chars_rev, <- in_rev in Hc. by left.
    + destruct (IH (String a cur)) as (h & rest & -> & Hh).
      exists h, rest. split; [done|]. intros c Hc.
      destruct (Hh c Hc) as [[<-|Hin]|Hne]; [|by left|by right].
      right. by apply Ascii.eqb_neq.
Qed.

Lemma split_head_no_sep (sep : ascii) (s : string) :
  has_char sep (default "" (head (split sep s))) = false.
Proof.
  unfold split. destruct (split_go_head sep "" s) as (h & rest & -> & Hh).
  cbn [head default from_option id].
  destruct (has_char sep h) eqn:Hsep; [|done].
  apply has_char_In, Hh in Hsep. by destruct Hsep.
Qed.

(** A normalized zip code is left as it is by the cut and the strip. *)
Lemma zip_idem (v : PyVal) (zip_code : PyVal) (z : string) :
  cut_zip v = Some zip_code -> py_strip zip_code = Some z ->
  cut_zip (PStr z) = Some (PStr z) /\ strip z = z.
Proof.
  intros Hcut Hstrip.
  assert (forall x, strip x = z ->
            (has_char "-" x = false \/ (String.length x <= 5)%nat) ->
            cut_zip (PStr z) = Some (PStr z) /\ strip z = z) as Hkeep.
  { intros x <- Hx. split; [|apply strip_idem]. unfold cut_zip.
    destruct (py_truthy (PStr (strip x))); [|done].
    cbn [py_len mbind option_bind].
    destruct (5 <? String.length (strip x))%nat eqn:Hlen; [|done].
    apply Nat.ltb_lt in Hlen. cbn [py_has_hyphen].
    destruct (has_char "-" (strip x)) eqn:Hhyphen; [|done].
    exfalso. destruct (strip_chars x) as [Hin Hle]. destruct Hx as [Hx|Hx].
    - apply has_char_In, Hin, has_char_In in Hhyphen. congruence.
    - lia. }
  unfold cut_zip in Hcut.
  destruct (py_truthy v) eqn:Htruthy.
  - destruct (py_len v) as [n|] eqn:Hn; [|done]. cbn [mbind option_bind] in Hcut.
    destruct (5 <? n)%nat eqn:Hlen.
    + destruct (py_has_hyphen v) as [hyphen|] eqn:Hh; [|done].
      cbn [mbind option_bind] in Hcut. destruct hyphen.
      * destruct v as [| | |s| |]; try done. injection Hcut as <-.
        injection Hstrip as Hz. apply (Hkeep _ Hz). left.
        apply split_head_no_sep.
      * injection Hcut as <-. destruct v as [| | |s| |]; try done.
        injection Hstrip as Hz. injection Hh as Hh.
        apply (Hkeep _ Hz). by left.
    + injection Hcut as <-. destruct v as [| | |s| |]; try done.
      injection Hstrip as Hz. injection Hn as <-.
      apply (Hkeep _ Hz). right. by apply Nat.ltb_ge.
  - injection Hcut as <-. destruct v as [| | |s| |]; try done.
    injection Hstrip as Hz. apply (Hkeep _ Hz). right.
    cbn [py_truthy] in Htruthy.
    apply negb_false_iff, String.eqb_eq in Htruthy. subst s. simpl. lia.
Qed.

(** The value that an [or] chain selects from a normalized address. *)
Lemma py_or_normalized (s : string) :
  py_or (PStr s) (PStr "") = PStr s /\
  py_or (py_or (PStr s) PNone) (PStr "") = PStr s /\
  py_or (py_or (py_or (PStr s) PNone) PNone) (PStr "") = PStr s.
Proof. by destruct s. Qed.

(** X17: when [normalize_address] does not raise, its result has the
    four keys street, city, state and zip; every value is free of leading
    and trailing white space; and normalizing the result again gives the
    result: the function is idempotent. *)
Theorem normalize_address_idempotent (address : gmap string PyVal)
    (normalized : gmap string string) :
  normalize_address address = Some normalized ->
  (exists street city state zip_code,
     normalized = <["zip" := zip_code]> (<["state" := state]>
                    (<["city" := city]> (<["street" := street]> ∅)))) /\
  (forall key value, normalized !! key = Some value -> strip value = value) /\
  normalize_address (PStr <$> normalized) = Some normalized.
Proof.
  intros Hrun. unfold normalize_address in Hrun. cbv zeta in Hrun.
  apply bind_Some in Hrun as (street & Hstreet & Hrun).
  apply bind_Some in Hrun as (city & Hcity & Hrun).
  apply bind_Some in Hrun as (state & Hstate & Hrun).
  apply bind_Some in Hrun as (zip1 & Hcut & Hrun).
  apply bind_Some in Hrun as (zip_code & Hzip & Hrun).
  injection Hrun as <-.
  assert (forall v y, py_strip v = Some y -> strip y = y) as Hstripped.
  { intros v y. destruct v as [| | |s| |]; try done.
    intros [= <-]. apply strip_idem. }
  pose proof (Hstripped _ _ Hstreet) as Hstreet'.
  pose proof (Hstripped _ _ Hcity) as Hcity'.
  pose proof (Hstripped _ _ Hstate) as Hstate'.
  destruct (zip_idem _ _ _ Hcut Hzip) as [Hcut' Hzip'].
  split; [by exists street, city, state, zip_code|]. split.
  - intros key value.
    rewrite !lookup_insert, lookup_empty.
    repeat case_decide; by intros [= <-].
  - clear Hstreet Hcity Hstate Hcut Hzip Hstripped.
    unfold normalize_address. cbv zeta. set (m := PStr <$> _).
    assert (py_get m "street" PNone = PStr street) as -> by reflexivity.
    assert (py_get m "address1" PNone = PNone) as -> by reflexivity.
    assert (py_get m "street_address" PNone = PNone) as -> by reflexivity.
    assert (py_get m "city" PNone = PStr city) as -> by reflexivity.
    assert (py_get m "state" PNone = PStr state) as -> by reflexivity.
    assert (py_get m "region" PNone = PNone) as -> by reflexivity.
    assert (py_get m "zip" PNone = PStr zip_code) as -> by reflexivity.
    assert (py_get m "postal_code" PNone = PNone) as -> by reflexivity.
    assert (py_get m "zipcode" PNone = PNone) as -> by reflexivity.
    rewrite (proj2 (proj2 (py_or_normalized street))),
      (proj1 (py_or_normalized city)),
      (proj1 (proj2 (py_or_normalized state))),
      (proj2 (proj2 (py_or_normalized zip_code))).
    cbn [py_strip mbind option_bind]. rewrite Hstreet', Hcity', Hstate'.
    cbn [mbind option_bind]. rewrite Hcut'.
    cbn [py_strip mbind option_bind]. by rewrite Hzip'.
Qed.

Lemma normalize_address_idempotent_witness :
  let address : gmap string PyVal :=
    {[ "address1" := PStr " 12 Oak St "; "city" := PStr "Racine";
       "postal_code" := PStr "53402-1234 " ]} in
  let normalized : gmap string string :=
    <["zip" := "53402"]> (<["state" := ""]> (<["city" := "Racine"]>
      (<["street" := "12 Oak St"]> ∅))) in
  normalize_address address = Some normalized /\
  normalize_address (PStr <$> normalized) = Some normalized.
Proof.
  intros address normalized.
  assert (normalize_address address = Some normalized) as Hrun
    by (vm_compute; reflexivity).
  split; [exact Hrun|].
  exact (proj2 (proj2 (normalize_address_idempotent address normalized Hrun))).
Defined.

End Addresses.

(** ** Tax-saving potential and the growth rate *)

Section TaxGrowth.
Import SimilarityScorer.

Lemma class_steps_hold : forallb id class_steps = true.
Proof. vm_compute. reflexivity. Qed.

Lemma tax_class_step (c c' : Company.t) :
  (_score_growth_rate c, _score_growth_rate c') ∈ growth_steps ->
  _score_hiring_expansion c' = _score_hiring_expansion c ->
  _score_equipment_upgrades c' = _score_equipment_upgrades c ->
  _score_succession_planning c' = _score_succession_planning c ->
  _score_government_contracts c' = _score_government_contracts c ->
  (potential_order (score_tax_saving_potential c)
   <= potential_order (score_tax_saving_potential c'))%Z.
Proof.
  intros Hstep Hh He Hs Hk.
  change (score_tax_saving_potential c)
    with (tax_class (tax_sum (_score_growth_rate c, _score_growth_rate c').1
            (_score_hiring_expansion c) (_score_equipment_upgrades c)
            (_score_succession_planning c) (_score_government_contracts c))).
  change (score_tax_saving_potential c')
    with (tax_class (tax_sum (_score_growth_rate c, _score_growth_rate c').2
            (_score_hiring_expansion c') (_score_equipment_upgrades c')
            (_score_succession_planning c') (_score_government_contracts c'))).
  rewrite Hh, He, Hs, Hk. apply Z.leb_le.
  apply (proj1 (forallb_forall id class_steps) class_steps_hold).
  apply list_elem_of_In. unfold class_steps.
  apply list_elem_of_bind. eexists. split; [|exact Hstep].
  apply list_elem_of_bind. eexists.
  split; [|apply _score_hiring_expansion_values].
  apply list_elem_of_bind. eexists.
  split; [|apply _score_equipment_upgrades_values].
  apply list_elem_of_bind. eexists.
  split; [|apply _score_succession_planning_values].
  apply list_elem_of_bind. eexists.
  split; [|apply _score_government_contracts_values].
  apply list_elem_of_here.
Qed.

Lemma _score_growth_rate_known (c : Company.t) (f : Financials.t) (g : Q) :
  _score_growth_rate (with_growth_rate c f (Some g))
  = if Qle_bool 15 g then 1.0%float
    else if Qle_bool 10 g then 0.8%float
    else if Qle_bool 5 g then 0.5%float
    else 0.2%float.
Proof. reflexivity. Qed.

(** X18: in [score_tax_saving_potential], raising the growth rate of a
    company, everything else unchanged, never lowers its class (in the
    binary64 arithmetic of the source); and a company whose growth rate
    is unknown is classed at least as high as the same company with a
    known growth rate below 5. *)
Theorem score_tax_saving_potential_growth (c : Company.t) (f : Financials.t)
    (g g' : Q) :
  g <= g' ->
  (potential_order (score_tax_saving_potential (with_growth_rate c f (Some g)))
   <= potential_order
        (score_tax_saving_potential (with_growth_rate c f (Some g'))))%Z /\
  (g < 5 ->
   (potential_order
      (score_tax_saving_potential (with_growth_rate c f (Some g)))
    <= potential_order
         (score_tax_saving_potential (with_growth_rate c f None)))%Z).
Proof.
  intros Hle. split.
  - apply tax_class_step; try reflexivity.
    rewrite !_score_growth_rate_known.
    destruct (Qle_bool 15 g) eqn:H15, (Qle_bool 10 g) eqn:H10,
             (Qle_bool 5 g) eqn:H5,
             (Qle_bool 15 g') eqn:H15', (Qle_bool 10 g') eqn:H10',
             (Qle_bool 5 g') eqn:H5';
      try (unfold growth_steps; by repeat constructor);
      exfalso;
      repeat match goal with
             | H : Qle_bool _ _ = true |- _ => apply Qle_bool_iff in H
             | H : Qle_bool _ _ = false |- _ => apply Qle_bool_false_iff in H
             end; lra.
  - intros Hlow. apply tax_class_step; try reflexivity.
    rewrite _score_growth_rate_known.
    assert (Qle_bool 15 g = false) as -> by (apply Qle_bool_false_iff; lra).
    assert (Qle_bool 10 g = false) as -> by (apply Qle_bool_false_iff; lra).
    assert (Qle_bool 5 g = false) as -> by (apply Qle_bool_false_iff; lra).
    unfold growth_steps. by repeat constructor.
Qed.

Lemma score_tax_saving_potential_growth_witness :
  (potential_order
     (score_tax_saving_potential
        (with_growth_rate Samples.growing_company
           Samples.steady_financials (Some 4%Q)))
   <= potential_order
        (score_tax_saving_potential
           (with_growth_rate Samples.growing_company
              Samples.steady_financials (Some 12%Q))))%Z.
Proof.
  refine (proj1 (score_tax_saving_potential_growth Samples.growing_company
                   Samples.steady_financials 4 12 _)).
  lra.
Defined.

Lemma growth_at_least_mono (g g' bound : Q) :
  0 < bound -> g <= g' ->
  Company.growth_at_least (Some g) bound = true ->
  Company.growth_at_least (Some g') bound = true.
Proof.
  unfold Company.growth_at_least. intros Hbound Hle.
  rewrite !andb_true_iff, !negb_true_iff. intros [_ Hg%Qle_bool_iff].
  split.
  - destruct (Qeq_bool g' 0) eqn:H0; [|done].
    apply Qeq_bool_iff in H0. lra.
  - apply Qle_bool_iff. lra.
Qed.

(** X19: [Company.calculate_tax_saving_potential] raises exactly when the
    financials or the tax indicators are [None]; the points it adds up lie
    between 0 and 10; and raising the growth rate, or making an unknown
    growth rate known, everything else unchanged, never lowers the
    class. *)
Theorem calculate_tax_saving_potential_growth (c : Company.t)
    (f : Financials.t) (g g' : Q) :
  (forall company,
     Company.calculate_tax_saving_potential company = None
     <-> Company.financials company = None
         \/ Company.tax_indicators company = None) /\
  (forall company points,
     Company.tax_saving_points company = Some points ->
     (0 <= points <= 10)%Z) /\
  (g <= g' ->
   forall p p' p0,
     Company.calculate_tax_saving_potential (with_growth_rate c f (Some g))
     = Some p ->
     Company.calculate_tax_saving_potential (with_growth_rate c f (Some g'))
     = Some p' ->
     Company.calculate_tax_saving_potential (with_growth_rate c f None)
     = Some p0 ->
     (potential_order p0 <= potential_order p)%Z /\
     (potential_order p <= potential_order p')%Z).
Proof.
  split; [|split].
  - intros company. unfold Company.calculate_tax_saving_potential,
      Company.tax_saving_points.
    destruct (Company.financials company) as [fin|]; [|by split; auto].
    destruct (Company.tax_indicators company) as [tax|]; [|by split; auto].
    cbn [mbind option_bind]. split; [done|]. by intros [?|?].
  - intros company points. unfold Company.tax_saving_points.
    destruct (Company.financials company) as [fin|]; [|done].
    destruct (Company.tax_indicators company) as [tax|]; [|done].
    cbn [mbind option_bind]. cbv zeta. intros [= <-].
    repeat match goal with
           | |- context [if ?b then _ else _] => destruct b
           end; lia.
  - intros Hle p p' p0.
    unfold Company.calculate_tax_saving_potential, Company.tax_saving_points,
      with_growth_rate.
    cbn [Company.financials Company.tax_indicators Financials.growth_rate
         Financials.payroll_trends Financials.capex_trends mbind option_bind].
    destruct (Company.tax_indicators c) as [tax|]; [|done].
    cbn [mbind option_bind]. cbv zeta.
    pose proof (growth_at_least_mono g g' 15 ltac:(done) Hle) as H15.
    pose proof (growth_at_least_mono g g' 10 ltac:(done) Hle) as H10.
    pose proof (growth_at_least_mono g g' 5 ltac:(done) Hle) as H5.
    set (b1 := match Financials.payroll_trends f with
               | Some _ => _ | None => _ end).
    set (b2 := match Financials.capex_trends f with
               | Some _ => _ | None => _ end).
    set (b3 := Company.not_blank (TaxIndicators.succession_planning tax)).
    set (b4 := Company.not_blank (TaxIndicators.government_contracts tax)).
    cbn [Company.growth_at_least] in *.
    set (a15 := negb (Qeq_bool g 0) && Qle_bool 15 g) in *.
    set (a10 := negb (Qeq_bool g 0) && Qle_bool 10 g) in *.
    set (a5 := negb (Qeq_bool g 0) && Qle_bool 5 g) in *.
    set (a15' := negb (Qeq_bool g' 0) && Qle_bool 15 g') in *.
    set (a10' := negb (Qeq_bool g' 0) && Qle_bool 10 g') in *.
    set (a5' := negb (Qeq_bool g' 0) && Qle_bool 5 g') in *.
    clearbody b1 b2 b3 b4 a15 a10 a5 a15' a10' a5'.
    intros [= <-] [= <-] [= <-].
    destruct a15; [try rewrite (H15 eq_refl)|];
      (destruct a10; [try rewrite (H10 eq_refl)|]);
      (destruct a5; [try rewrite (H5 eq_refl)|]);
      destruct b1, b2, b3, b4; try (by vm_compute);
      destruct a15', a10', a5'; by vm_compute.
Qed.

Lemma calculate_tax_saving_potential_growth_witness :
  (potential_order MEDIUM <= potential_order HIGH)%Z /\
  (potential_order HIGH <= potential_order HIGH)%Z.
Proof.
  apply (proj2 (proj2 (calculate_tax_saving_potential_growth
                         Samples.growing_company
                         (Financials.mk None None None
                            (Some "new equipment") None) 12 20))
           ltac:(done) HIGH HIGH MEDIUM);
    reflexivity.
Defined.

End TaxGrowth.

(** ** The business matcher *)

Section Matcher.
Import PyStr DataNormalizer SimilarityScorer BusinessMatcher.

Variable log10 : Q -> Q.
Hypothesis log10_pos : forall x, 10 <= x -> 0 < log10 x.

(** The value of the TF-IDF comparison of two descriptions: it does not
    depend on their order, and it lies between 0 and 1. *)
Variable tfidf : string -> string -> Q.
Hypothesis tfidf_sym : forall d1 d2, tfidf d1 d2 == tfidf d2 d1.
Hypothesis tfidf_range : forall d1 d2, 0 <= tfidf d1 d2 /\ tfidf d1 d2 <= 1.

Lemma calculate_industry_similarity_sym c1 c2 :
  calculate_industry_similarity c1 c2 = calculate_industry_similarity c2 c1.
Proof.
  unfold calculate_industry_similarity.
  destruct (Company.industry c1) as [i1|], (Company.industry c2) as [i2|];
    try done.
  cbv zeta.
  rewrite (String.eqb_sym (Industry.primary i2)).
  rewrite (codes_match_sym (Industry.naics_code i2)).
  rewrite (codes_match_sym (Industry.sic_code i2)).
  rewrite (andb_comm (opt_truthy (Industry.naics_code i2))).
  rewrite (String.eqb_sym (take 2 (default "" (Industry.naics_code i2)))).
  rewrite (String.eqb_sym
             (Normalized.category (normalize_industry (Industry.primary i2)))).
  rewrite (String.eqb_sym
             (Normalized.subcategory
                (normalize_industry (Industry.primary i2)))).
  rewrite (andb_comm (set_truthy (list_to_set (Industry.subcategories i2)))).
  rewrite (comm_L (∩) (list_to_set (Industry.subcategories i2) : gset string)).
  rewrite (Nat.max_comm (size (list_to_set (Industry.subcategories i2)
                               : gset string))).
  reflexivity.
Qed.

Lemma calculate_industry_similarity_range c1 c2 :
  0.1 <= calculate_industry_similarity c1 c2
  /\ calculate_industry_similarity c1 c2 <= 1.
Proof.
  unfold calculate_industry_similarity.
  destruct (Company.industry c1) as [i1|], (Company.industry c2) as [i2|];
    try (split; by apply Qle_bool_iff).
  cbv zeta.
  set (s1 := list_to_set (Industry.subcategories i1) : gset string).
  set (s2 := list_to_set (Industry.subcategories i2) : gset string).
  assert (0.1 <= (if set_truthy s1 && set_truthy s2
                  then if set_truthy (s1 ∩ s2)
                       then 0.5 + (0.3 * inject_Z (Z.of_nat (size (s1 ∩ s2))))
                                  / inject_Z (Z.of_nat (Nat.max (size s1)
                                                                (size s2)))
                       else 0.2
                  else 0.2)
          /\ (if set_truthy s1 && set_truthy s2
              then if set_truthy (s1 ∩ s2)
                   then 0.5 + (0.3 * inject_Z (Z.of_nat (size (s1 ∩ s2))))
                              / inject_Z (Z.of_nat (Nat.max (size s1)
                                                            (size s2)))
                   else 0.2
              else 0.2) <= 1) as Hsub.
  { destruct (set_truthy s1 && set_truthy s2);
      [|split; by apply Qle_bool_iff].
    destruct (set_truthy (s1 ∩ s2)) eqn:Hov;
      [|split; by apply Qle_bool_iff].
    destruct (subcategory_overlap_range s1 s2 Hov) as [H0 H1].
    cbv zeta in H0, H1. split; lra. }
  repeat match goal with
         | |- context [if ?b then _ else _] =>
             lazymatch b with
             | set_truthy _ && set_truthy _ => fail
             | set_truthy _ => fail
             | _ => destruct b
             end
         end; try (split; by apply Qle_bool_iff); exact Hsub.
Qed.

Lemma calculate_description_similarity_sym c1 c2 :
  calculate_description_similarity tfidf c1 c2
  == calculate_description_similarity tfidf c2 c1.
Proof.
  unfold calculate_description_similarity.
  rewrite (orb_comm (negb (opt_truthy (Company.description c2)))).
  destruct (negb _ || negb _); [reflexivity|apply tfidf_sym].
Qed.

Lemma calculate_description_similarity_range c1 c2 :
  0 <= calculate_description_similarity tfidf c1 c2
  /\ calculate_description_similarity tfidf c1 c2 <= 1.
Proof.
  unfold calculate_description_similarity.
  destruct (negb _ || negb _); [split; by apply Qle_bool_iff|].
  apply tfidf_range.
Qed.

(** X20: the matcher's [calculate_similarity_score] does not depend on
    the order of the two companies and lies above 0.06 and at most at 1,
    for a description comparison that is symmetric and between 0 and 1;
    its size and location parts are those of the similarity scorer. *)
Theorem calculate_similarity_score_spec (A B : Company.t) :
  calculate_similarity_score log10 tfidf A B
  == calculate_similarity_score log10 tfidf B A /\
  0.06 < calculate_similarity_score log10 tfidf A B /\
  calculate_similarity_score log10 tfidf A B <= 1 /\
  calculate_size_similarity log10 A B = _score_size_similarity log10 A B /\
  calculate_location_similarity A B = _score_location_similarity A B.
Proof.
  assert (calculate_size_similarity log10 A B
          = _score_size_similarity log10 A B) as Hsize by reflexivity.
  assert (calculate_size_similarity log10 B A
          = _score_size_similarity log10 B A) as Hsize' by reflexivity.
  assert (calculate_location_similarity A B
          = _score_location_similarity A B) as Hloc by reflexivity.
  assert (calculate_location_similarity B A
          = _score_location_similarity B A) as Hloc' by reflexivity.
  unfold calculate_similarity_score. cbv zeta.
  rewrite Hsize, Hsize', Hloc, Hloc'.
  pose proof (calculate_industry_similarity_range A B) as [Hi0 Hi1].
  pose proof (_score_size_similarity_range log10 log10_pos A B) as [Hs0 Hs1].
  pose proof (_score_location_similarity_range A B) as [Hl0 Hl1].
  pose proof (calculate_description_similarity_range A B) as [Hd0 Hd1].
  split; [|repeat split; lra].
  rewrite (calculate_industry_similarity_sym A B).
  rewrite (_score_size_similarity_sym log10 A B).
  rewrite (_score_location_similarity_sym A B).
  rewrite (calculate_description_similarity_sym A B).
  reflexivity.
Qed.

(** The early return on an empty list of candidates is the general case. *)
Lemma find_similar_companies_eq (company : Company.t)
    (candidate_companies : list Company.t) (top_n : Z) :
  find_similar_companies log10 tfidf company candidate_companies top_n
  = slice_to top_n
      (sort_desc Qle_bool snd
         ((fun candidate =>
             (candidate,
              calculate_similarity_score log10 tfidf company candidate))
          <$> other_candidates company candidate_companies)).
Proof.
  unfold find_similar_companies, other_candidates. cbv zeta.
  destruct (filter _ candidate_companies) as [|c cs]; [|done].
  unfold slice_to. cbn [fmap list_fmap sort_desc foldr].
  destruct (0 <=? top_n)%Z; symmetry; apply firstn_nil.
Qed.

(** X21: every entry of [find_similar_companies] is a candidate with
    another id than the company, paired with its matcher score; the
    scores never increase along the list; and the list has
    [min(top_n, m)] entries when [top_n >= 0] and [max(0, m + top_n)]
    entries when [top_n < 0], where [m] is the number of candidates with
    another id. *)
Theorem find_similar_companies_spec (company : Company.t)
    (candidate_companies : list Company.t) (top_n : Z) :
  let similar :=
    find_similar_companies log10 tfidf company candidate_companies top_n in
  let m := length (other_candidates company candidate_companies) in
  (forall c s, (c, s) ∈ similar ->
     c ∈ candidate_companies /\ Company.id c <> Company.id company /\
     s = calculate_similarity_score log10 tfidf company c) /\
  (forall i j p q, (i < j)%nat -> similar !! i = Some p ->
     similar !! j = Some q -> q.2 <= p.2) /\
  length similar
  = (if (0 <=? top_n)%Z then Nat.min (Z.to_nat top_n) m
     else m - Z.to_nat (- top_n))%nat.
Proof.
  intros similar m. subst similar m. rewrite find_similar_companies_eq.
  unfold other_candidates. set (candidates := filter _ candidate_companies).
  set (scored := (fun candidate => (candidate, _)) <$> candidates).
  split; [|split].
  - intros c s Hin.
    apply (fun H => elem_of_sublist _ _ _ H (slice_to_sublist _ _)) in Hin.
    rewrite sort_desc_Permutation in Hin. subst scored.
    apply list_elem_of_fmap in Hin as (c' & [= -> ->] & Hc').
    by apply list_elem_of_filter in Hc' as [Hid Hc'].
  - intros i j p q Hij Hp Hq.
    refine (StronglySorted_lookup (fun p q => q.2 <= p.2) _ i j p q
              _ Hij Hp Hq).
    apply slice_to_sorted, sort_desc_Q_sorted.
  - assert (length (sort_desc Qle_bool snd scored) = length candidates) as Hlen.
    { rewrite (Permutation_length (sort_desc_Permutation _ _ _)).
      subst scored. by rewrite length_fmap. }
    unfold slice_to. destruct (0 <=? top_n)%Z.
    + by rewrite length_take, Hlen.
    + rewrite length_take, Hlen. lia.
Qed.

End Matcher.

Lemma calculate_similarity_score_spec_witness :
  BusinessMatcher.calculate_similarity_score Samples.coarse_log10
    (fun _ _ => 0.5) Samples.full_company (Samples.bare "b")
  == BusinessMatcher.calculate_similarity_score Samples.coarse_log10
       (fun _ _ => 0.5) (Samples.bare "b") Samples.full_company.
Proof.
  apply (calculate_similarity_score_spec Samples.coarse_log10
           coarse_log10_pos (fun _ _ => 0.5)).
  - reflexivity.
  - intros _ _. split; by apply Qle_bool_iff.
Defined.

Lemma find_similar_companies_spec_witness :
  length (BusinessMatcher.find_similar_companies Samples.coarse_log10
            (fun _ _ => 0.5) Samples.full_company
            [Samples.bare "a"; Samples.full_company; Samples.bare "b"] (-1))
  = 1%nat.
Proof.
  apply (find_similar_companies_spec Samples.coarse_log10 (fun _ _ => 0.5)
           Samples.full_company
           [Samples.bare "a"; Samples.full_company; Samples.bare "b"] (-1)).
Defined.

(** ** The region of a geocoded address *)

Section Regions.
Import PyStr LogisticsOptimizer DataCollector.





End Regions.

(** ** Numbers written in decimal *)

Section Numerals.
Import PyStr DataNormalizer.


























End Numerals.

(** ** The table of industry codes *)

Section IndustryCodes.
Import PyStr BusinessMatcher.

Lemma contains_refl (s : string) : contains s s = true.
Proof.
  assert (String.prefix s s = true) as Hprefix.
  { induction s as [|c s IH]; [done|]. cbn [String.prefix].
    by destruct (ascii_dec c c). }
  destruct s; cbn [contains]; by rewrite Hprefix.
Qed.

(** Where a name found by a NAICS code comes from. *)
Lemma naics_matches_source entries naics_code matches name :
  name ∈ naics_matches entries naics_code matches ->
  name ∈ matches \/
  exists code info,
    (code, info) ∈ entries /\
    (code = naics_code /\ IndustryCode.name info = name
     \/ exists subcategories,
          IndustryCode.subcategories info = Some subcategories /\
          (naics_code, name) ∈ subcategories).
Proof.
  revert matches. induction entries as [|[code info] entries IH];
    intros matches; cbn [naics_matches]; [by left|].
  destruct (_ && _) eqn:Hexact.
  - apply andb_true_iff in Hexact as [_ Hcode%String.eqb_eq].
    intros [?|Hname%list_elem_of_singleton]%elem_of_app; [by left|].
    right. exists code, info. split; [apply list_elem_of_here|]. by left.
  - intros [Hin|(code' & info' & Hentry & Hsource)]%IH.
    + destruct (IndustryCode.subcategories info) as [subs|] eqn:Hsubs;
        [|by left].
      destruct (List.find _ subs) as [sub|] eqn:Hfind; [|by left].
      apply elem_of_app in Hin as [?|Hname%list_elem_of_singleton];
        [by left|].
      apply find_some in Hfind as [Hsub Hcode%String.eqb_eq].
      right. exists code, info. split; [apply list_elem_of_here|]. right.
      exists subs. split; [done|]. apply list_elem_of_In.
      destruct sub as [subcode subname]. simpl in *. by subst.
    + right. exists code', info'. split; [by apply list_elem_of_further|done].
Qed.

Lemma sic_matches_source entries sic_code matches name :
  name ∈ sic_matches entries sic_code matches ->
  name ∈ matches \/
  exists info, (sic_code, info) ∈ entries /\ IndustryCode.name info = name.
Proof.
  revert matches. induction entries as [|[code info] entries IH];
    intros matches; cbn [sic_matches]; [by left|].
  destruct (_ && _) eqn:Hexact.
  - apply andb_true_iff in Hexact as [_ Hcode%String.eqb_eq].
    intros [?|Hname%list_elem_of_singleton]%elem_of_app; [by left|].
    right. exists info. split; [subst; apply list_elem_of_here|done].
  - intros [Hin|(info' & Hentry & Hname)]%IH; [by left|].
    right. exists info'. split; [by apply list_elem_of_further|done].
Qed.

(** A search for the name of an entry, or of a subcategory, finds it. *)
Lemma get_industry_by_name_entry code info :
  (code, info) ∈ industry_codes ->
  (exists m, m ∈ get_industry_by_name (IndustryCode.name info) /\
             IndustryMatch.code m = code /\
             IndustryMatch.name m = IndustryCode.name info) /\
  (forall subcategories subcode subname,
     IndustryCode.subcategories info = Some subcategories ->
     (subcode, subname) ∈ subcategories ->
     exists m, m ∈ get_industry_by_name subname /\
               IndustryMatch.code m = subcode /\
               IndustryMatch.name m = subname).
Proof.
  intros Hentry. split.
  - exists (IndustryMatch.mk code (IndustryCode.code_type info)
                             (IndustryCode.name info) None).
    split; [|by split].
    apply list_elem_of_In, in_flat_map. exists (code, info).
    split; [by apply list_elem_of_In|]. cbn [name_matches].
    rewrite contains_refl. apply in_or_app. left. by left.
  - intros subs subcode subname Hsubs Hsub.
    exists (IndustryMatch.mk subcode (IndustryCode.code_type info) subname
                             (Some (IndustryCode.name info))).
    split; [|by split].
    apply list_elem_of_In, in_flat_map. exists (code, info).
    split; [by apply list_elem_of_In|]. cbn [name_matches].
    rewrite Hsubs. apply in_or_app. right. apply in_flat_map.
    exists (subcode, subname). split; [by apply list_elem_of_In|].
    cbn [fst snd]. rewrite contains_refl. by left.
Qed.

(** X25: every name that [match_by_industry_code] returns for a NAICS or
    a SIC code is found again by [get_industry_by_name], with that code;
    and [match_by_industry_code] returns at most one name for each of its
    two arguments. *)
Theorem match_by_industry_code_round_trip (naics_code sic_code : option string) :
  (forall name,
     name ∈ match_by_industry_code naics_code sic_code ->
     exists m,
       m ∈ get_industry_by_name name /\ IndustryMatch.name m = name /\
       (naics_code = Some (IndustryMatch.code m)
        \/ sic_code = Some (IndustryMatch.code m))) /\
  (length (match_by_industry_code naics_code None) <= 1)%nat /\
  (length (match_by_industry_code None sic_code) <= 1)%nat.
Proof.
  split; [|split].
  - intros name. unfold match_by_industry_code. cbv zeta.
    assert (forall matches,
              name ∈ (if opt_truthy naics_code
                      then naics_matches industry_codes (default "" naics_code)
                                         matches
                      else matches) ->
              name ∈ matches \/
              exists m, m ∈ get_industry_by_name name /\
                        IndustryMatch.name m = name /\
                        naics_code = Some (IndustryMatch.code m)) as Hnaics.
    { intros matches. destruct naics_code as [c|]; [|by left].
      cbn [opt_truthy default from_option id].
      destruct (truthy c); [|by left].
      intros [?|(code & info & Hentry & Hsource)]%naics_matches_source;
        [by left|]. right.
      destruct (get_industry_by_name_entry code info Hentry) as [Hself Hsub].
      destruct Hsource as [[-> <-]|(subs & Hsubs & Hin)].
      - destruct Hself as (m & Hm & <- & Hname). by exists m.
      - destruct (Hsub subs c name Hsubs Hin) as (m & Hm & <- & Hname).
        by exists m. }
    destruct sic_code as [c|]; cbn [opt_truthy default from_option id].
    + destruct (truthy c).
      * intros [Hin|(info & Hentry & <-)]%sic_matches_source.
        -- apply Hnaics in Hin as [?%elem_of_nil|(m & ? & ? & ?)]; [done|].
           exists m. auto.
        -- destruct (get_industry_by_name_entry c info Hentry)
             as [(m & Hm & <- & Hname) _].
           exists m. auto.
      * intros Hin. apply Hnaics in Hin as [?%elem_of_nil|(m & ? & ? & ?)];
          [done|]. exists m. auto.
    + intros Hin. apply Hnaics in Hin as [?%elem_of_nil|(m & ? & ? & ?)];
        [done|]. exists m. auto.
  - unfold match_by_industry_code. cbv zeta. cbn [opt_truthy].
    destruct naics_code as [c|]; cbn [opt_truthy default from_option id];
      [|by apply Nat.le_0_l].
    destruct (truthy c); [|by apply Nat.le_0_l].
    unfold industry_codes. cbn [naics_matches IndustryCode.code_type
      IndustryCode.name IndustryCode.subcategories List.find fst snd app].
    repeat match goal with
           | |- context [String.eqb ?k c] =>
               let H := fresh "H" in
               destruct (String.eqb k c) eqn:H;
               [apply String.eqb_eq in H; subst c; vm_compute; lia|]
           end.
    vm_compute. lia.
  - unfold match_by_industry_code. cbv zeta. cbn [opt_truthy].
    destruct sic_code as [c|]; cbn [opt_truthy default from_option id];
      [|by apply Nat.le_0_l].
    destruct (truthy c); [|by apply Nat.le_0_l].
    unfold industry_codes. cbn [sic_matches IndustryCode.code_type
      IndustryCode.name app].
    repeat match goal with
           | |- context [String.eqb ?k c] =>
               let H := fresh "H" in
               destruct (String.eqb k c) eqn:H;
               [apply String.eqb_eq in H; subst c; vm_compute; lia|]
           end.
    vm_compute. lia.
Qed.

End IndustryCodes.
